(** * Sequence management and retry protocol of the decentr broadcaster

    The development embeds [blockchain.go] (the broadcaster built on the
    transaction factory of the SDK) and the earlier revision of the same
    package (the broadcaster that keeps [num] and [seq] itself).  The
    collaborators of the package (gas simulation, transaction building,
    signing, encoding, the node RPC, the account retriever) are external:
    they are oracles over an abstract node state.  The Go standard library
    functions that the package calls ([regexp], [strconv.ParseUint],
    [errors.Is], [fmt.Errorf]) are modelled for the inputs the package gives
    them. *)

From Stdlib Require Import ZArith List String Ascii Bool Lia PrimFloat.
From Equations Require Import Equations.
Import ListNotations.

Set Implicit Arguments.
Local Open Scope Z_scope.

(** ** Go values *)

Module Go.

(** [uint64] values are integers in [0, 2^64); arithmetic wraps. *)
Definition maxUint64 : Z := 2 ^ 64 - 1.

Definition uint64_wrap (z : Z) : Z := z mod 2 ^ 64.

Definition uint64_add (x y : Z) : Z := uint64_wrap (x + y).

Definition is_uint64 (z : Z) : Prop := 0 <= z <= maxUint64.

(** [error] values.  [External] is an error made by a collaborator, known
    by its text only; [Wrapf] is [fmt.Errorf(prefix + ": %w", e)];
    [Newf] is [fmt.Errorf(prefix + ": %s", s)], which wraps nothing. *)
Inductive error : Type :=
| ErrTxInMempoolCache : error
| errInvalidSequence : error
| External (text : string) : error
| Wrapf (prefix : string) (e : error) : error
| Newf (prefix : string) (s : string) : error.

(** [err.Error()]. *)
Fixpoint Error (e : error) : string :=
  match e with
  | ErrTxInMempoolCache => "tx is already in mempool cache"
  | errInvalidSequence => "invalid sequence"
  | External text => text
  | Wrapf prefix e' => prefix ++ ": " ++ Error e'
  | Newf prefix s => prefix ++ ": " ++ s
  end%string.

(** [errors.Is(e, target)] for the two sentinels of the package: the chain
    of [%w] wrappers is followed, a collaborator's error is never one of
    the package's sentinels. *)
Fixpoint Is_mempool (e : error) : bool :=
  match e with
  | ErrTxInMempoolCache => true
  | Wrapf _ e' => Is_mempool e'
  | _ => false
  end.

Fixpoint Is_invalid_sequence (e : error) : bool :=
  match e with
  | errInvalidSequence => true
  | Wrapf _ e' => Is_invalid_sequence e'
  | _ => false
  end.

(** *** [strconv.ParseUint(s, 10, 64)]

    The loop of the library: each byte must be a decimal digit; when the
    accumulator reaches the cutoff or the addition overflows, the result
    is [maxUint64] with a range error. *)
Inductive NumError : Type := ErrSyntax | ErrRange.

Definition digit_value (c : ascii) : option Z :=
  let n := Z.of_N (N_of_ascii c) in
  if (48 <=? n) && (n <=? 57) then Some (n - 48) else None.

Fixpoint ParseUint_loop (s : string) (n : Z) : Z * option NumError :=
  match s with
  | EmptyString => (n, None)
  | String c s' =>
      match digit_value c with
      | None => (0, Some ErrSyntax)
      | Some d =>
          if maxUint64 / 10 + 1 <=? n then (maxUint64, Some ErrRange)
          else
            let n1 := n * 10 + d in
            if maxUint64 <? n1 then (maxUint64, Some ErrRange)
            else ParseUint_loop s' n1
      end
  end.

Definition ParseUint (s : string) : Z * option NumError :=
  match s with
  | EmptyString => (0, Some ErrSyntax)
  | _ => ParseUint_loop s 0
  end.

(** *** The fragment of [regexp] used by the package

    A pattern is a sequence of pieces: a literal text, a greedy [c+] over
    a character class, or a capturing group around such a [c+].  Matching
    is the leftmost-first (backtracking) discipline of the library: a
    greedy repetition first tries to take one more character and gives
    characters back only when the rest of the pattern fails. *)
Inductive piece : Type :=
| Literal (text : string)
| OneOrMore (class : ascii -> bool)
| Capture (class : ascii -> bool).

(** [.] matches every character except the line feed. *)
Definition any_char (c : ascii) : bool :=
  negb (N.eqb (N_of_ascii c) 10).

(** [\d] matches the ASCII digits. *)
Definition digit (c : ascii) : bool :=
  let n := N_of_ascii c in (N.leb 48 n) && (N.leb n 57).

Fixpoint strip_prefix (lit s : string) : option string :=
  match lit, s with
  | EmptyString, _ => Some s
  | String a lit', String b s' =>
      if Ascii.eqb a b then strip_prefix lit' s' else None
  | String _ _, EmptyString => None
  end.

Fixpoint plus_greedy (R : Type) (class : ascii -> bool)
         (k : string -> option R) (s : string) : option (string * R) :=
  match s with
  | EmptyString => None
  | String c s' =>
      if class c then
        match plus_greedy class k s' with
        | Some (t, r) => Some (String c t, r)
        | None =>
            match k s' with
            | Some r => Some (String c EmptyString, r)
            | None => None
            end
        end
      else None
  end.

(** [match_here re s]: the match of [re] anchored at the start of [s], as
    the text matched and the texts of the capturing groups. *)
Fixpoint match_here (re : list piece) (s : string)
  : option (string * list string) :=
  match re with
  | [] => Some (EmptyString, [])
  | Literal lit :: re' =>
      match strip_prefix lit s with
      | Some rest =>
          match match_here re' rest with
          | Some (m, caps) => Some ((lit ++ m)%string, caps)
          | None => None
          end
      | None => None
      end
  | OneOrMore class :: re' =>
      match plus_greedy class (match_here re') s with
      | Some (t, (m, caps)) => Some ((t ++ m)%string, caps)
      | None => None
      end
  | Capture class :: re' =>
      match plus_greedy class (match_here re') s with
      | Some (t, (m, caps)) => Some ((t ++ m)%string, t :: caps)
      | None => None
      end
  end.

(** [re.FindStringSubmatch(s)]: the leftmost match, as the matched text
    followed by the groups; [nil] when there is none. *)
Fixpoint FindStringSubmatch (re : list piece) (s : string) : list string :=
  match match_here re s with
  | Some (m, caps) => m :: caps
  | None =>
      match s with
      | EmptyString => []
      | String _ s' => FindStringSubmatch re s'
      end
  end.

End Go.

(** ** blockchain.go: sequence extraction *)

Module Pattern.
Import Go.

(** [.+account sequence mismatch, expected (\d+), got \d+:.+] *)
Definition accountSequenceMismatchErrorRegExp : list piece :=
  [ OneOrMore any_char;
    Literal "account sequence mismatch, expected ";
    Capture digit;
    Literal ", got ";
    OneOrMore digit;
    Literal ":";
    OneOrMore any_char ].

Definition getNextSequence (m : string) : Z :=
  let s := FindStringSubmatch accountSequenceMismatchErrorRegExp m in
  if negb (Nat.eqb (List.length s) 2) then 0
  else
    let '(seq, _) := ParseUint (nth 1 s EmptyString) in
    seq.

Fixpoint all_chars (class : ascii -> bool) (s : string) : bool :=
  match s with
  | EmptyString => true
  | String c s' => class c && all_chars class s'
  end.

Definition is_number (s : string) : Prop :=
  s <> EmptyString /\ all_chars digit s = true.

(** The sentence the node writes: [account sequence mismatch, expected
    <n>, got <m>:] with two decimal numbers. *)
Definition mismatch_sentence (n m : string) : string :=
  ("account sequence mismatch, expected " ++ n ++ ", got " ++ m ++ ":")%string.

Definition contains_mismatch_sentence (s : string) : Prop :=
  exists pre n m post,
    is_number n /\ is_number m
    /\ s = (pre ++ mismatch_sentence n m ++ post)%string.

(** The text of the node's message, with nothing before the sentence. *)
Definition sample_sentence : string :=
  "account sequence mismatch, expected 42, got 40: ...".

End Pattern.

(** ** Collaborators: the SDK and the node *)

Module Sdk.
Import Go.

(** [tx.Factory]: a value; every [With...] method returns a changed copy. *)
Record Factory : Type := mkFactory {
  AccountNumber : Z;
  Sequence : Z;
  Gas : Z;
  GasAdjustment : float;
  Memo : string;
  Fees : string
}.

Definition WithMemo (f : Factory) (memo : string) : Factory :=
  mkFactory (AccountNumber f) (Sequence f) (Gas f) (GasAdjustment f) memo (Fees f).

Definition WithGasAdjustment (f : Factory) (adj : float) : Factory :=
  mkFactory (AccountNumber f) (Sequence f) (Gas f) adj (Memo f) (Fees f).

Definition WithGas (f : Factory) (gas : Z) : Factory :=
  mkFactory (AccountNumber f) (Sequence f) gas (GasAdjustment f) (Memo f) (Fees f).

Definition WithSequence (f : Factory) (seq : Z) : Factory :=
  mkFactory (AccountNumber f) seq (Gas f) (GasAdjustment f) (Memo f) (Fees f).

Definition WithAccountNumber (f : Factory) (num : Z) : Factory :=
  mkFactory num (Sequence f) (Gas f) (GasAdjustment f) (Memo f) (Fees f).

(** [sdk.TxResponse]: the package reads [Code] and [RawLog] only. *)
Record TxResponse : Type := mkTxResponse {
  Code : Z;
  RawLog : string;
  TxHash : string
}.

(** [sdkerrors.ErrTxInMempoolCache.ABCICode()] and
    [sdkerrors.ErrUnauthorized.ABCICode()], as the SDK registers them. *)
Definition ABCICode_ErrTxInMempoolCache : Z := 19.
Definition ABCICode_ErrUnauthorized : Z := 4.

(** The calls that leave the package.  [W] is the state of everything
    outside it (node, network, keyring); a failed call gives the text of
    its error. *)
Record Collaborators (W Msg Tx : Type) : Type := mkCollaborators {
  CalculateGas : W -> Factory -> list Msg -> W * (Z + string);
  BuildUnsignedTx : W -> Factory -> list Msg -> W * (Tx + string);
  Sign : W -> Factory -> string -> Tx -> W * (Tx + string);
  TxEncoder : W -> Tx -> W * (list Byte.byte + string);
  BroadcastTx : W -> list Byte.byte -> W * (TxResponse + string);
  EnsureExists : W -> string -> W * option string;
  GetAccountNumberSequence : W -> string -> W * (Z * Z + string);
  TxResponse_String : TxResponse -> string
}.

(** What one run did outside the package, in order.  The log is ghost
    state: the package keeps none.  [EvRetry] marks the recursive call
    [b.broadcast(msgs, memo, true)]. *)
Inductive event : Type :=
| EvLock
| EvUnlock
| EvRetry
| EvCalculateGas (txf : Factory) (r : Z + string)
| EvBuildUnsignedTx (txf : Factory) (failed : option string)
| EvSign (txf : Factory) (failed : option string)
| EvEncode (failed : option string)
| EvBroadcastTx (txBytes : list Byte.byte) (r : TxResponse + string).

End Sdk.

(** ** Reading the log of a run *)

Module Trace.
Import Go Sdk.

(** The events of the invocation itself, up to its recursive call. *)
Fixpoint own_attempt (evs : list event) : list event :=
  match evs with
  | [] => []
  | EvRetry :: _ => []
  | e :: evs' => e :: own_attempt evs'
  end.

(** The events of the recursive call, when there is one. *)
Fixpoint retried_attempt (evs : list event) : list event :=
  match evs with
  | [] => []
  | EvRetry :: evs' => evs'
  | _ :: evs' => retried_attempt evs'
  end.

Fixpoint retries (evs : list event) : nat :=
  match evs with
  | [] => 0
  | EvRetry :: evs' => S (retries evs')
  | _ :: evs' => retries evs'
  end.

(** What the node answered to each submission, in order. *)
Fixpoint send_results (evs : list event) : list (TxResponse + string) :=
  match evs with
  | [] => []
  | EvBroadcastTx _ r :: evs' => r :: send_results evs'
  | _ :: evs' => send_results evs'
  end.

Definition sends (evs : list event) : nat := List.length (send_results evs).

(** A response that is neither a success nor the mempool-cache code. *)
Definition rejected (resp : TxResponse) : bool :=
  negb (Code resp =? 0) && negb (ABCICode_ErrTxInMempoolCache =? Code resp).

(** The first answer of [f] on the events of the invocation itself. *)
Fixpoint first_in_attempt (A : Type) (f : event -> option A)
         (evs : list event) : option A :=
  match evs with
  | [] => None
  | EvRetry :: _ => None
  | e :: evs' =>
      match f e with
      | Some a => Some a
      | None => first_in_attempt f evs'
      end
  end.

(** The text in which an attempt looks for the expected sequence: the error
    of the gas simulation, or the raw log of a rejected response. *)
Definition failure_text : list event -> option string :=
  first_in_attempt
    (fun e =>
       match e with
       | EvCalculateGas _ (inr err) => Some err
       | EvBroadcastTx _ (inl resp) =>
           if rejected resp then Some (RawLog resp) else None
       | _ => None
       end).

(** The stages whose failure ends an attempt at once. *)
Inductive stage : Type := Build | SignTx | Encode | Send.

Definition stage_description (st : stage) : string :=
  match st with
  | Build => "failed to build tx"
  | SignTx => "failed to sign tx"
  | Encode => "failed to encode tx"
  | Send => "failed to broadcast tx"
  end.

Definition stage_failure : list event -> option (stage * string) :=
  first_in_attempt
    (fun e =>
       match e with
       | EvBuildUnsignedTx _ (Some err) => Some (Build, err)
       | EvSign _ (Some err) => Some (SignTx, err)
       | EvEncode (Some err) => Some (Encode, err)
       | EvBroadcastTx _ (inr err) => Some (Send, err)
       | _ => None
       end).

(** The response the node gave to the submission of an attempt. *)
Definition attempt_response : list event -> option TxResponse :=
  first_in_attempt
    (fun e =>
       match e with
       | EvBroadcastTx _ (inl resp) => Some resp
       | _ => None
       end).

(** Every factory handed to a collaborator carries sequence [s]. *)
Definition uses_sequence (s : Z) (e : event) : Prop :=
  match e with
  | EvCalculateGas f _ | EvBuildUnsignedTx f _ | EvSign f _ => Sequence f = s
  | _ => True
  end.

Definition lock_free (e : event) : bool :=
  match e with
  | EvLock | EvUnlock => false
  | _ => true
  end.

End Trace.

(** ** blockchain.go *)

Module Blockchain.
Import Go Sdk.
Export Pattern.

(** [client.Context], as far as the package reads it. *)
Record Context : Type := mkContext {
  FromName : string;
  FromAddress : string
}.

(** [type broadcaster struct]; the mutex appears as lock events. *)
Record broadcaster : Type := mkBroadcaster {
  ctx : Context;
  txf : Factory
}.

Definition set_txf (b : broadcaster) (f : Factory) : broadcaster :=
  mkBroadcaster (ctx b) f.

(** The outcome of a method call: the receiver and the outside world
    afterwards, the log of the call, and the value returned. *)
Record Run (W A : Type) : Type := mkRun {
  after : broadcaster;
  world : W;
  events : list event;
  ret : A
}.

Definition logged {W A} (evs : list event) (r : Run W A) : Run W A :=
  mkRun (after r) (world r) (evs ++ events r) (ret r).

(** [if !isRetry { b.mu.Lock(); defer b.mu.Unlock() }] *)
Definition locked {W A} (isRetry : bool) (r : Run W A) : Run W A :=
  if isRetry then r
  else mkRun (after r) (world r) (EvLock :: events r ++ [EvUnlock]) (ret r).

Section Methods.
Context {W Msg Tx : Type} (sdk : Collaborators W Msg Tx).

(** [func (b *broadcaster) broadcast(msgs []sdk.Msg, memo string, isRetry
    bool)].  The method calls itself under [!isRetry] only, and then with
    [true]: the recursion is well founded on the flag.  [submit] is the
    code from [tx.BuildUnsignedTx] to the end of the method, which both
    branches of the gas test run into. *)
Equations(noind) broadcast (isRetry : bool) (msgs : list Msg) (memo : string)
           (b : broadcaster) (w : W) : Run W (TxResponse + error)
  by wf (if isRetry then 0 else 1)%nat lt :=
  broadcast isRetry msgs memo b w :=
    locked isRetry
      (let txf0 := WithMemo (txf b) memo in
       let txf1 :=
         if PrimFloat.eqb (GasAdjustment txf0) 0%float
         then WithGasAdjustment txf0 1%float else txf0 in
       let submit (txf2 : Factory) (w1 : W) : Run W (TxResponse + error) :=
         let '(w2, built) := BuildUnsignedTx sdk w1 txf2 msgs in
         match built with
         | inr err =>
             mkRun b w2 [EvBuildUnsignedTx txf2 (Some err)]
                   (inr (Wrapf "failed to build tx" (External err)))
         | inl unsignedTx =>
             let '(w3, signed) := Sign sdk w2 txf2 (FromName (ctx b)) unsignedTx in
             match signed with
             | inr err =>
                 mkRun b w3 [EvBuildUnsignedTx txf2 None; EvSign txf2 (Some err)]
                       (inr (Wrapf "failed to sign tx" (External err)))
             | inl signedTx =>
                 let '(w4, encoded) := TxEncoder sdk w3 signedTx in
                 match encoded with
                 | inr err =>
                     mkRun b w4
                           [EvBuildUnsignedTx txf2 None; EvSign txf2 None;
                            EvEncode (Some err)]
                           (inr (Wrapf "failed to encode tx" (External err)))
                 | inl txBytes =>
                     let '(w5, sent) := BroadcastTx sdk w4 txBytes in
                     logged [EvBuildUnsignedTx txf2 None; EvSign txf2 None;
                             EvEncode None; EvBroadcastTx txBytes sent]
                       match sent with
                       | inr err =>
                           mkRun b w5 []
                                 (inr (Wrapf "failed to broadcast tx" (External err)))
                       | inl resp =>
                           if negb (Code resp =? 0) then
                             if ABCICode_ErrTxInMempoolCache =? Code resp then
                               mkRun b w5 [] (inr ErrTxInMempoolCache)
                             else
                               match bool_dec isRetry false with
                               | left first =>
                                   let seq := getNextSequence (RawLog resp) in
                                   let b1 :=
                                     if negb (seq =? 0)
                                     then set_txf b (WithSequence (txf b) seq)
                                     else b in
                                   logged [EvRetry] (broadcast true msgs memo b1 w5)
                               | right _ =>
                                   mkRun b w5 []
                                         (inr (Newf "failed to broadcast tx"
                                                    (TxResponse_String sdk resp)))
                               end
                           else
                             mkRun
                               (set_txf b (WithSequence (txf b)
                                             (uint64_add (Sequence (txf b)) 1)))
                               w5 [] (inl resp)
                       end
                 end
             end
         end in
       if Gas txf1 =? 0 then
         let '(w1, estimated) := CalculateGas sdk w txf1 msgs in
         logged [EvCalculateGas txf1 estimated]
           match estimated with
           | inr err =>
               match bool_dec isRetry false with
               | left first =>
                   let seq := getNextSequence err in
                   let b1 :=
                     if negb (seq =? 0)
                     then set_txf b (WithSequence (txf b) seq)
                     else b in
                   logged [EvRetry] (broadcast true msgs memo b1 w1)
               | right _ =>
                   mkRun b w1 []
                         (inr (Wrapf "failed to calculate gas" (External err)))
               end
           | inl gas => submit (WithGas txf1 gas) w1
           end
       else submit txf1 w).

(** [func (b *broadcaster) Broadcast(msgs []sdk.Msg, memo string)] *)
Definition Broadcast (msgs : list Msg) (memo : string)
           (b : broadcaster) (w : W) : Run W (TxResponse + error) :=
  let r := broadcast false msgs memo b w in
  match ret r with
  | inr err => mkRun (after r) (world r) (events r)
                     (inr (Wrapf "failed to broadcast" err))
  | inl out => mkRun (after r) (world r) (events r) (inl out)
  end.

(** [func (b *broadcaster) BroadcastMsg(msg sdk.Msg, memo string)] *)
Definition BroadcastMsg (msg : Msg) (memo : string)
           (b : broadcaster) (w : W) : Run W (TxResponse + error) :=
  Broadcast [msg] memo b w.

(** Calls made one after the other on one instance: each starts from the
    receiver and the world that the call before it left. *)
Fixpoint Broadcast_each (calls : list (list Msg * string))
         (b : broadcaster) (w : W) : list (Run W (TxResponse + error)) :=
  match calls with
  | [] => []
  | (msgs, memo) :: rest =>
      let r := Broadcast msgs memo b w in
      r :: Broadcast_each rest (after r) (world r)
  end.

(** [func (b *broadcaster) From() sdk.AccAddress] *)
Definition From (b : broadcaster) : string := FromAddress (ctx b).

(** [func (b *broadcaster) refreshSequence() error] *)
Definition refreshSequence (b : broadcaster) (w : W) : Run W (option error) :=
  let '(w1, missing) := EnsureExists sdk w (From b) in
  match missing with
  | Some err =>
      mkRun b w1 [] (Some (Wrapf "failed to EnsureExists" (External err)))
  | None =>
      let '(w2, account) := GetAccountNumberSequence sdk w1 (From b) in
      match account with
      | inr err =>
          mkRun b w2 []
                (Some (Wrapf "failed to get GetAccountNumberSequence" (External err)))
      | inl (num, seq) =>
          mkRun (set_txf b (WithSequence (WithAccountNumber (txf b) num) seq))
                w2 [] None
      end
  end.

End Methods.

(** The receiver once all the runs are over. *)
Definition receiver_after {W A} (b : broadcaster) (runs : list (Run W A))
  : broadcaster :=
  fold_left (fun _ r => after r) runs b.

(** A call that returned a response and did not recurse. *)
Definition first_try {W} (r : Run W (TxResponse + error)) : bool :=
  match ret r with
  | inl _ => Nat.eqb (Trace.retries (events r)) 0
  | inr _ => false
  end.

End Blockchain.

(** ** The earlier revision of the package

    The broadcaster keeps the account number and the sequence in its own
    fields, builds a [TxBuilder] per attempt, and recovers from a rejected
    sequence by refreshing both from the node. *)

Module Legacy.
Import Go Sdk.

(** [auth.TxBuilder], as [auth.NewTxBuilder] fills it. *)
Record TxBuilder : Type := mkTxBuilder {
  bldAccountNumber : Z;
  bldSequence : Z;
  bldGas : Z;
  bldGasAdjustment : float;
  bldSimulateAndExecute : bool;
  bldChainID : string;
  bldMemo : string;
  bldFees : string
}.

(** [type Broadcaster struct]; the mutex appears as lock events. *)
Record Broadcaster : Type := mkBroadcaster {
  fromName : string;
  fromAddress : string;
  genesisKeyPass : string;
  chainID : string;
  num : Z;
  seq : Z;
  fees : string;
  gas : Z;
  gasAdj : float
}.

Definition set_num_seq (b : Broadcaster) (n s : Z) : Broadcaster :=
  mkBroadcaster (fromName b) (fromAddress b) (genesisKeyPass b) (chainID b)
                n s (fees b) (gas b) (gasAdj b).

(** The calls that leave the package in this revision.
    [GetAccountNumberSequence] gives its three results as Go does: the two
    numbers are assigned whether or not the error is nil. *)
Record Collaborators (W Msg : Type) : Type := mkCollaborators {
  PrepareTxBuilder : W -> TxBuilder -> W * (TxBuilder + string);
  EnrichWithGas : W -> TxBuilder -> list Msg -> W * (TxBuilder + string);
  BuildAndSign : W -> TxBuilder -> string -> string -> list Msg
                 -> W * (list Byte.byte + string);
  BroadcastTx : W -> list Byte.byte -> W * (TxResponse + string);
  GetAccountNumberSequence : W -> string -> W * (Z * Z * option string);
  TxResponse_String : TxResponse -> string
}.

(** Ghost log of one run; [EvCall] marks an entry into [broadcast]. *)
Inductive event : Type :=
| EvCall
| EvLock
| EvUnlock
| EvPrepareTxBuilder (bld : TxBuilder) (failed : option string)
| EvEnrichWithGas (failed : option string)
| EvBuildAndSign (bld : TxBuilder) (failed : option string)
| EvBroadcastTx (txBytes : list Byte.byte) (r : TxResponse + string)
| EvRefresh (failed : option string).

(** Entries into [broadcast] during a run. *)
Fixpoint calls (evs : list event) : nat :=
  match evs with
  | [] => 0
  | EvCall :: evs' => S (calls evs')
  | _ :: evs' => calls evs'
  end.

Fixpoint attempt_response (evs : list event) : option TxResponse :=
  match evs with
  | [] => None
  | EvUnlock :: _ => None
  | EvBroadcastTx _ (inl resp) :: _ => Some resp
  | _ :: evs' => attempt_response evs'
  end.

(** The failures of building-and-signing and of the transport. *)
Inductive stage : Type := BuildAndSignTx | Send.

Definition stage_description (st : stage) : string :=
  match st with
  | BuildAndSignTx => "failed to build and sign tx"
  | Send => "failed to broadcast tx"
  end.

Fixpoint stage_failure (evs : list event) : option (stage * string) :=
  match evs with
  | [] => None
  | EvUnlock :: _ => None
  | EvBuildAndSign _ (Some err) :: _ => Some (BuildAndSignTx, err)
  | EvBroadcastTx _ (inr err) :: _ => Some (Send, err)
  | _ :: evs' => stage_failure evs'
  end.

Record Run (W A : Type) : Type := mkRun {
  after : Broadcaster;
  world : W;
  events : list event;
  ret : A
}.

Section Methods.
Context {W Msg : Type} (sdk : Collaborators W Msg).

(** [func (b *Broadcaster) broadcast(msgs []sdk.Msg, memo string)]: the
    builder is made from [b.num] and [b.seq] before the lock is taken. *)
Definition broadcast (msgs : list Msg) (memo : string)
           (b : Broadcaster) (w : W) : Run W (TxResponse + error) :=
  let txBldr :=
    mkTxBuilder (num b) (seq b) (gas b) (gasAdj b) false (chainID b) memo (fees b) in
  let '(w1, prepared) := PrepareTxBuilder sdk w txBldr in
  match prepared with
  | inr err =>
      mkRun b w1 [EvCall; EvLock; EvPrepareTxBuilder txBldr (Some err); EvUnlock]
            (inr (Wrapf "failed to prepare builder" (External err)))
  | inl txBldr1 =>
      let '(w2, enriched) := EnrichWithGas sdk w1 txBldr1 msgs in
      match enriched with
      | inr err =>
          mkRun b w2
                [EvCall; EvLock; EvPrepareTxBuilder txBldr None;
                 EvEnrichWithGas (Some err); EvUnlock]
                (inr (Wrapf "failed to calculate gas" (External err)))
      | inl txBldr2 =>
          let '(w3, signed) :=
            BuildAndSign sdk w2 txBldr2 (fromName b) (genesisKeyPass b) msgs in
          match signed with
          | inr err =>
              mkRun b w3
                    [EvCall; EvLock; EvPrepareTxBuilder txBldr None;
                     EvEnrichWithGas None; EvBuildAndSign txBldr2 (Some err);
                     EvUnlock]
                    (inr (Wrapf "failed to build and sign tx" (External err)))
          | inl txBytes =>
              let '(w4, sent) := BroadcastTx sdk w3 txBytes in
              let log :=
                [EvCall; EvLock; EvPrepareTxBuilder txBldr None;
                 EvEnrichWithGas None; EvBuildAndSign txBldr2 None;
                 EvBroadcastTx txBytes sent; EvUnlock] in
              match sent with
              | inr err =>
                  mkRun b w4 log
                        (inr (Wrapf "failed to broadcast tx" (External err)))
              | inl resp =>
                  if negb (Code resp =? 0) then
                    if ABCICode_ErrTxInMempoolCache =? Code resp then
                      mkRun b w4 log (inr ErrTxInMempoolCache)
                    else if ABCICode_ErrUnauthorized =? Code resp then
                      mkRun b w4 log (inr errInvalidSequence)
                    else
                      mkRun b w4 log
                            (inr (Newf "failed to broadcast tx"
                                       (TxResponse_String sdk resp)))
                  else
                    mkRun (set_num_seq b (num b) (uint64_add (seq b) 1))
                          w4 log (inl resp)
              end
          end
      end
  end.

(** [func (b *Broadcaster) refreshSequence() error] *)
Definition refreshSequence (b : Broadcaster) (w : W) : Run W (option error) :=
  let b0 := set_num_seq b 0 0 in
  let '(w1, (n, s, err)) := GetAccountNumberSequence sdk w (fromAddress b0) in
  mkRun (set_num_seq b0 n s) w1 [EvRefresh err]
        (match err with Some text => Some (External text) | None => None end).

(** [func (b *Broadcaster) Broadcast(msgs []sdk.Msg, memo string)] *)
Definition Broadcast (msgs : list Msg) (memo : string)
           (b : Broadcaster) (w : W) : Run W (TxResponse + error) :=
  let r1 := broadcast msgs memo b w in
  let wrap (r : Run W (TxResponse + error)) (log : list event) :=
    match ret r with
    | inr err => mkRun (after r) (world r) log (inr (Wrapf "failed to broadcast" err))
    | inl out => mkRun (after r) (world r) log (inl out)
    end in
  match ret r1 with
  | inr err =>
      if Is_invalid_sequence err then
        let rf := refreshSequence (after r1) (world r1) in
        match ret rf with
        | Some err' =>
            mkRun (after rf) (world rf) (events r1 ++ events rf)
                  (inr (Wrapf "failed to refresh sequence" err'))
        | None =>
            let r2 := broadcast msgs memo (after rf) (world rf) in
            wrap r2 (events r1 ++ events rf ++ events r2)
        end
      else wrap r1 (events r1)
  | inl _ => wrap r1 (events r1)
  end.

(** [func (b *Broadcaster) BroadcastMsg(msg sdk.Msg, memo string)] *)
Definition BroadcastMsg (msg : Msg) (memo : string)
           (b : Broadcaster) (w : W) : Run W (TxResponse + error) :=
  Broadcast [msg] memo b w.

(** Calls made one after the other on one instance. *)
Fixpoint Broadcast_each (calls : list (list Msg * string))
         (b : Broadcaster) (w : W) : list (Run W (TxResponse + error)) :=
  match calls with
  | [] => []
  | (msgs, memo) :: rest =>
      let r := Broadcast msgs memo b w in
      r :: Broadcast_each rest (after r) (world r)
  end.

End Methods.

Definition receiver_after {W A} (b : Broadcaster) (runs : list (Run W A))
  : Broadcaster :=
  fold_left (fun _ r => after r) runs b.

(** A call that returned a response after a single entry into
    [broadcast]. *)
Definition first_try {W} (r : Run W (TxResponse + error)) : bool :=
  match ret r with
  | inl _ => Nat.eqb (calls (events r)) 1
  | inr _ => false
  end.

End Legacy.

(** ** A scripted node

    A test double for the collaborators: each kind of call answers from its
    own list of prepared replies, in order.  A transaction is the factory
    and the messages it was built from; its encoding is its sequence as one
    byte. *)

Module Scripted.
Import Go Sdk.

Record Node : Type := mkNode {
  gas_replies : list (Z + string);
  build_replies : list (option string);
  sign_replies : list (option string);
  encode_replies : list (option string);
  send_replies : list (TxResponse + string);
  exists_replies : list (option string);
  account_replies : list (Z * Z + string)
}.

Definition Tx : Type := Factory * list string.

Definition encode (tx : Tx) : list Byte.byte :=
  match Byte.of_N (Z.to_N (Sequence (fst tx) mod 256)) with
  | Some x => [x]
  | None => []
  end.

Definition sdk : Collaborators Node string Tx :=
  {| CalculateGas := fun n _ _ =>
       match gas_replies n with
       | [] => (n, inr "node unreachable"%string)
       | r :: rs =>
           (mkNode rs (build_replies n) (sign_replies n) (encode_replies n)
                   (send_replies n) (exists_replies n) (account_replies n), r)
       end;
     BuildUnsignedTx := fun n f msgs =>
       match build_replies n with
       | [] => (n, inl (f, msgs))
       | r :: rs =>
           (mkNode (gas_replies n) rs (sign_replies n) (encode_replies n)
                   (send_replies n) (exists_replies n) (account_replies n),
            match r with Some err => inr err | None => inl (f, msgs) end)
       end;
     Sign := fun n _ _ tx =>
       match sign_replies n with
       | [] => (n, inl tx)
       | r :: rs =>
           (mkNode (gas_replies n) (build_replies n) rs (encode_replies n)
                   (send_replies n) (exists_replies n) (account_replies n),
            match r with Some err => inr err | None => inl tx end)
       end;
     TxEncoder := fun n tx =>
       match encode_replies n with
       | [] => (n, inl (encode tx))
       | r :: rs =>
           (mkNode (gas_replies n) (build_replies n) (sign_replies n) rs
                   (send_replies n) (exists_replies n) (account_replies n),
            match r with Some err => inr err | None => inl (encode tx) end)
       end;
     BroadcastTx := fun n _ =>
       match send_replies n with
       | [] => (n, inr "node unreachable"%string)
       | r :: rs =>
           (mkNode (gas_replies n) (build_replies n) (sign_replies n)
                   (encode_replies n) rs (exists_replies n) (account_replies n), r)
       end;
     EnsureExists := fun n _ =>
       match exists_replies n with
       | [] => (n, None)
       | r :: rs =>
           (mkNode (gas_replies n) (build_replies n) (sign_replies n)
                   (encode_replies n) (send_replies n) rs (account_replies n), r)
       end;
     GetAccountNumberSequence := fun n _ =>
       match account_replies n with
       | [] => (n, inr "node unreachable"%string)
       | r :: rs =>
           (mkNode (gas_replies n) (build_replies n) (sign_replies n)
                   (encode_replies n) (send_replies n) (exists_replies n) rs, r)
       end;
     TxResponse_String := fun resp => RawLog resp |}.

(** A node that only has replies for gas simulations and submissions. *)
Definition node (gas : list (Z + string)) (send : list (TxResponse + string)) : Node :=
  mkNode gas [] [] [] send [] [].

Definition account (fixed_gas sequence : Z) : Blockchain.broadcaster :=
  Blockchain.mkBroadcaster
    (Blockchain.mkContext "alice" "decentr1alice")
    (mkFactory 11 sequence fixed_gas 0%float "" "10udec").

Definition accepted : TxResponse := mkTxResponse 0 "[]" "A1B2".

(** The same double for the earlier revision. *)
Record LegacyNode : Type := mkLegacyNode {
  lgas_replies : list (option string);
  lsign_replies : list (option string);
  lsend_replies : list (TxResponse + string);
  laccount_replies : list (Z * Z * option string)
}.

Definition legacy_encode (bld : Legacy.TxBuilder) : list Byte.byte :=
  match Byte.of_N (Z.to_N (Legacy.bldSequence bld mod 256)) with
  | Some x => [x]
  | None => []
  end.

Definition legacy_sdk : Legacy.Collaborators LegacyNode string :=
  {| Legacy.PrepareTxBuilder := fun n bld => (n, inl bld);
     Legacy.EnrichWithGas := fun n bld _ =>
       match lgas_replies n with
       | [] => (n, inl bld)
       | r :: rs =>
           (mkLegacyNode rs (lsign_replies n) (lsend_replies n)
                         (laccount_replies n),
            match r with Some err => inr err | None => inl bld end)
       end;
     Legacy.BuildAndSign := fun n bld _ _ _ =>
       match lsign_replies n with
       | [] => (n, inl (legacy_encode bld))
       | r :: rs =>
           (mkLegacyNode (lgas_replies n) rs (lsend_replies n)
                         (laccount_replies n),
            match r with
            | Some err => inr err
            | None => inl (legacy_encode bld)
            end)
       end;
     Legacy.BroadcastTx := fun n _ =>
       match lsend_replies n with
       | [] => (n, inr "node unreachable"%string)
       | r :: rs =>
           (mkLegacyNode (lgas_replies n) (lsign_replies n) rs
                         (laccount_replies n), r)
       end;
     Legacy.GetAccountNumberSequence := fun n _ =>
       match laccount_replies n with
       | [] => (n, (0, 0, Some "node unreachable"%string))
       | r :: rs =>
           (mkLegacyNode (lgas_replies n) (lsign_replies n)
                         (lsend_replies n) rs, r)
       end;
     Legacy.TxResponse_String := fun resp => RawLog resp |}.

Definition legacy_node (send : list (TxResponse + string)) : LegacyNode :=
  mkLegacyNode [] [] send [].

Definition legacy_account (sequence : Z) : Legacy.Broadcaster :=
  Legacy.mkBroadcaster "alice" "decentr1alice" "" "mainnet-3" 11 sequence
                       "10udec" 100 1%float.

Definition refused (code : Z) (log : string) : TxResponse :=
  mkTxResponse code log "A1B2".

End Scripted.

(** ** The body of [broadcast], one pass at a time

    [pass] is the body of [broadcast] cut at its return statements and at
    its recursive call; it is a device of the proofs.  Lemma
    [broadcast_by_pass] shows that the method is one pass, wrapped in the
    lock, followed by the recursion when the pass ends in a failure that
    the method looks into. *)

Module Passes.
Import Go Sdk Trace Blockchain.

(** How a pass ends: with a return, or with a failure whose text is
    searched for a sequence (then [err] is what a retry returns). *)
Inductive ending : Type :=
| Returns (b' : broadcaster) (r : TxResponse + error)
| Fails (text : string) (err : error).

(** [b] after [b.txf = b.txf.WithSequence(seq)] under [seq != 0]. *)
Definition corrected (b : broadcaster) (text : string) : broadcaster :=
  let seq := getNextSequence text in
  if negb (seq =? 0) then set_txf b (WithSequence (txf b) seq) else b.

(** The receiver and the value returned when a pass is the last one. *)
Definition ending_receiver (b : broadcaster) (e : ending) : broadcaster :=
  match e with
  | Returns b' _ => b'
  | Fails _ _ => b
  end.

Definition ending_result (e : ending) : TxResponse + error :=
  match e with
  | Returns _ r => r
  | Fails _ err => inr err
  end.

Section Pass.
Context {W Msg Tx : Type} (sdk : Collaborators W Msg Tx).

Definition submit_pass (msgs : list Msg) (b : broadcaster)
           (txf2 : Factory) (w1 : W) : W * list event * ending :=
  let '(w2, built) := BuildUnsignedTx sdk w1 txf2 msgs in
  match built with
  | inr err =>
      (w2, [EvBuildUnsignedTx txf2 (Some err)],
       Returns b (inr (Wrapf "failed to build tx" (External err))))
  | inl unsignedTx =>
      let '(w3, signed) := Sign sdk w2 txf2 (FromName (ctx b)) unsignedTx in
      match signed with
      | inr err =>
          (w3, [EvBuildUnsignedTx txf2 None; EvSign txf2 (Some err)],
           Returns b (inr (Wrapf "failed to sign tx" (External err))))
      | inl signedTx =>
          let '(w4, encoded) := TxEncoder sdk w3 signedTx in
          match encoded with
          | inr err =>
              (w4, [EvBuildUnsignedTx txf2 None; EvSign txf2 None;
                    EvEncode (Some err)],
               Returns b (inr (Wrapf "failed to encode tx" (External err))))
          | inl txBytes =>
              let '(w5, sent) := BroadcastTx sdk w4 txBytes in
              let log := [EvBuildUnsignedTx txf2 None; EvSign txf2 None;
                          EvEncode None; EvBroadcastTx txBytes sent] in
              match sent with
              | inr err =>
                  (w5, log,
                   Returns b (inr (Wrapf "failed to broadcast tx" (External err))))
              | inl resp =>
                  if negb (Code resp =? 0) then
                    if ABCICode_ErrTxInMempoolCache =? Code resp then
                      (w5, log, Returns b (inr ErrTxInMempoolCache))
                    else
                      (w5, log,
                       Fails (RawLog resp)
                             (Newf "failed to broadcast tx"
                                   (TxResponse_String sdk resp)))
                  else
                    (w5, log,
                     Returns (set_txf b (WithSequence (txf b)
                                           (uint64_add (Sequence (txf b)) 1)))
                             (inl resp))
              end
          end
      end
  end.

Definition pass (msgs : list Msg) (memo : string) (b : broadcaster) (w : W)
  : W * list event * ending :=
  let txf0 := WithMemo (txf b) memo in
  let txf1 :=
    if PrimFloat.eqb (GasAdjustment txf0) 0%float
    then WithGasAdjustment txf0 1%float else txf0 in
  if Gas txf1 =? 0 then
    let '(w1, estimated) := CalculateGas sdk w txf1 msgs in
    match estimated with
    | inr err =>
        (w1, [EvCalculateGas txf1 estimated],
         Fails err (Wrapf "failed to calculate gas" (External err)))
    | inl gas =>
        let '(w2, evs, e) := submit_pass msgs b (WithGas txf1 gas) w1 in
        (w2, EvCalculateGas txf1 estimated :: evs, e)
    end
  else submit_pass msgs b txf1 w.

(** The method in terms of its passes. *)
Definition after_pass (isRetry : bool) (msgs : list Msg) (memo : string)
           (b : broadcaster) (p : W * list event * ending)
  : Run W (TxResponse + error) :=
  let '(w1, evs, e) := p in
  match e with
  | Returns b' r => mkRun b' w1 evs r
  | Fails text err =>
      if isRetry then mkRun b w1 evs (inr err)
      else logged (evs ++ [EvRetry])
                  (broadcast sdk true msgs memo (corrected b text) w1)
  end.

(** What a pass leaves in the log, case by case. *)
Inductive pass_spec (b : broadcaster) : list event -> ending -> Prop :=
| pass_stage_failure evs st err :
    stage_failure evs = Some (st, err) ->
    failure_text evs = None ->
    attempt_response evs = None ->
    (forall resp, ~ In (inl resp) (send_results evs)) ->
    pass_spec b evs
      (Returns b (inr (Wrapf (stage_description st) (External err))))
| pass_mempool evs resp :
    attempt_response evs = Some resp ->
    Code resp = ABCICode_ErrTxInMempoolCache ->
    stage_failure evs = None ->
    failure_text evs = None ->
    send_results evs = [inl resp] ->
    pass_spec b evs (Returns b (inr ErrTxInMempoolCache))
| pass_accepted evs resp :
    attempt_response evs = Some resp ->
    Code resp = 0 ->
    stage_failure evs = None ->
    failure_text evs = None ->
    send_results evs = [inl resp] ->
    pass_spec b evs
      (Returns (set_txf b (WithSequence (txf b) (uint64_add (Sequence (txf b)) 1)))
               (inl resp))
| pass_gas_failure evs text :
    failure_text evs = Some text ->
    stage_failure evs = None ->
    attempt_response evs = None ->
    send_results evs = [] ->
    pass_spec b evs (Fails text (Wrapf "failed to calculate gas" (External text)))
| pass_rejected evs resp :
    attempt_response evs = Some resp ->
    rejected resp = true ->
    failure_text evs = Some (RawLog resp) ->
    stage_failure evs = None ->
    send_results evs = [inl resp] ->
    pass_spec b evs
      (Fails (RawLog resp)
             (Newf "failed to broadcast tx" (TxResponse_String sdk resp))).

(** What every pass leaves in the log. *)
Definition pass_log_ok (b : broadcaster) (evs : list event) : Prop :=
  retries evs = 0%nat
  /\ forallb lock_free evs = true
  /\ Forall (uses_sequence (Sequence (txf b))) evs
  /\ (sends evs <= 1)%nat.

(** A run is one pass, or two passes around the recursive call. *)
Inductive run_of (b : broadcaster)
  : bool -> Run W (TxResponse + error) -> Prop :=
| run_returns isRetry w1 evs b' r :
    pass_spec b evs (Returns b' r) ->
    pass_log_ok b evs ->
    run_of b isRetry (locked isRetry (mkRun b' w1 evs r))
| run_retry_fails w1 evs text err :
    pass_spec b evs (Fails text err) ->
    pass_log_ok b evs ->
    run_of b true (mkRun b w1 evs (inr err))
| run_recurses evs text err w2 evs2 e2 :
    pass_spec b evs (Fails text err) ->
    pass_log_ok b evs ->
    pass_spec (corrected b text) evs2 e2 ->
    pass_log_ok (corrected b text) evs2 ->
    run_of b false
           (mkRun (ending_receiver (corrected b text) e2) w2
                  (EvLock :: evs ++ EvRetry :: evs2 ++ [EvUnlock])
                  (ending_result e2)).

End Pass.
End Passes.

(** ** Goroutines sharing one broadcaster

    A schedule is the order in which the events of all goroutines happen,
    each event with the goroutine that performs it.  [sync.Mutex] decides
    which schedules can happen: [Lock] goes through only when the mutex is
    free, [Unlock] frees it. *)

Module Mutex.
Import Sdk.

Definition schedule : Type := list (nat * event).

Fixpoint admits (locked : bool) (s : schedule) : bool :=
  match s with
  | [] => true
  | (_, EvLock) :: s' => if locked then false else admits true s'
  | (_, EvUnlock) :: s' => if locked then admits false s' else false
  | _ :: s' => admits locked s'
  end.

(** What goroutine [g] does in a schedule. *)
Fixpoint thread (g : nat) (s : schedule) : list event :=
  match s with
  | [] => []
  | (g', e) :: s' => if Nat.eqb g g' then e :: thread g s' else thread g s'
  end.

(** A call that runs from its first event to its last with nothing of the
    other goroutines in between, and a schedule made of such calls. *)
Definition block (g : nat) (log : list event) : schedule := map (pair g) log.

Definition serial (blocks : list (nat * list event)) : schedule :=
  List.concat (map (fun gb => block (fst gb) (snd gb)) blocks).

(** The calls of goroutine [g] among the blocks, in order. *)
Definition calls_of (g : nat) (blocks : list (nat * list event))
  : list (list event) :=
  map snd (filter (fun gb => Nat.eqb g (fst gb)) blocks).

(** The log of a call that takes the lock first, releases it last and
    leaves it alone in between. *)
Definition critical (log : list event) : Prop :=
  exists body,
    log = EvLock :: body ++ [EvUnlock]
    /\ forallb Trace.lock_free body = true.

(** A goroutine outside its calls does nothing or asks for the lock. *)
Definition waiting (log : list event) : Prop :=
  log = [] \/ exists rest, log = EvLock :: rest.

End Mutex.

(** ** Numbers in the node's sentence *)

Module Sentence.
Import Go Pattern.

(** The words before the expected sequence. *)
Definition expected_literal : string := "account sequence mismatch, expected ".

(** [lit] is found somewhere in [s]. *)
Fixpoint occurs (lit s : string) : bool :=
  match strip_prefix lit s with
  | Some _ => true
  | None =>
      match s with
      | EmptyString => false
      | String _ s' => occurs lit s'
      end
  end.

(** The number a string of decimal digits writes. *)
Fixpoint decimal (s : string) : Z :=
  match s with
  | EmptyString => 0
  | String c s' =>
      match digit_value c with
      | Some d => d * 10 ^ Z.of_nat (String.length s') + decimal s'
      | None => decimal s'
      end
  end.

(** [s] starts with a character of the class. *)
Definition begins (class : ascii -> bool) (s : string) : bool :=
  match s with
  | EmptyString => false
  | String c _ => class c
  end.

(** A number cut at the largest [uint64]. *)
Definition saturated (z : Z) : Z := Z.min z maxUint64.

End Sentence.

(** ** The order of the calls that leave the package *)

Module Pipeline.
Import Go Sdk Trace Blockchain.

(** The factory of an attempt: [b.txf.WithMemo(memo)], with the gas
    adjustment 1 when the stored one is 0. *)
Definition prepared (b : broadcaster) (memo : string) : Factory :=
  let txf0 := WithMemo (txf b) memo in
  if PrimFloat.eqb (GasAdjustment txf0) 0%float
  then WithGasAdjustment txf0 1%float else txf0.

(** The factory that an event hands to a collaborator. *)
Definition factory_of (e : event) : option Factory :=
  match e with
  | EvCalculateGas f _ | EvBuildUnsignedTx f _ | EvSign f _ => Some f
  | _ => None
  end.

Fixpoint factories (evs : list event) : list Factory :=
  match evs with
  | [] => []
  | e :: evs' =>
      match factory_of e with
      | Some f => f :: factories evs'
      | None => factories evs'
      end
  end.

(** The gas simulations of a log, and the gas they estimated. *)
Fixpoint simulations (evs : list event) : list (Z + string) :=
  match evs with
  | [] => []
  | EvCalculateGas _ r :: evs' => r :: simulations evs'
  | _ :: evs' => simulations evs'
  end.

Fixpoint estimated (evs : list event) : list Z :=
  match evs with
  | [] => []
  | EvCalculateGas _ (inl gas) :: evs' => gas :: estimated evs'
  | _ :: evs' => estimated evs'
  end.

(** The factories given to [tx.BuildUnsignedTx]. *)
Fixpoint built (evs : list event) : list Factory :=
  match evs with
  | [] => []
  | EvBuildUnsignedTx f _ :: evs' => f :: built evs'
  | _ :: evs' => built evs'
  end.

(** What every factory of a call carries: the memo of the call, the account
    number and the fees of the receiver, and its gas adjustment, or 1 when
    that is 0. *)
Definition carries (b : broadcaster) (memo : string) (f : Factory) : Prop :=
  Memo f = memo
  /\ AccountNumber f = AccountNumber (txf b)
  /\ Fees f = Fees (txf b)
  /\ GasAdjustment f
     = if PrimFloat.eqb (GasAdjustment (txf b)) 0%float
       then 1%float else GasAdjustment (txf b).

(** The log of the code from [tx.BuildUnsignedTx] on: each stage runs when
    the one before it succeeded. *)
Inductive submission (f : Factory) : list event -> Prop :=
| submission_build err :
    submission f [EvBuildUnsignedTx f (Some err)]
| submission_sign err :
    submission f [EvBuildUnsignedTx f None; EvSign f (Some err)]
| submission_encode err :
    submission f [EvBuildUnsignedTx f None; EvSign f None; EvEncode (Some err)]
| submission_send txBytes r :
    submission f [EvBuildUnsignedTx f None; EvSign f None; EvEncode None;
                  EvBroadcastTx txBytes r].

(** The log of one attempt with the factory [f]. *)
Inductive attempt (f : Factory) : list event -> Prop :=
| attempt_fixed_gas evs :
    Gas f <> 0 -> submission f evs -> attempt f evs
| attempt_gas_failure err :
    Gas f = 0 -> attempt f [EvCalculateGas f (inr err)]
| attempt_estimated gas evs :
    Gas f = 0 -> submission (WithGas f gas) evs ->
    attempt f (EvCalculateGas f (inl gas) :: evs).

(** Every submission of the log comes right after a successful build, a
    successful signature and a successful encoding with one factory. *)
Definition sent_in_order (evs : list event) : Prop :=
  forall before txBytes r rest,
    evs = before ++ EvBroadcastTx txBytes r :: rest ->
    exists earlier f,
      before = earlier ++ [EvBuildUnsignedTx f None; EvSign f None; EvEncode None].

(** Two receivers that differ in the sequence of the stored factory at
    most. *)
Definition differs_in_sequence_only (b b' : broadcaster) : Prop :=
  ctx b' = ctx b
  /\ txf b' = WithSequence (txf b) (Sequence (txf b')).

(** The log of a call: one attempt, or two around the recursive call, the
    second with the factory of the corrected receiver. *)
Inductive call_log (b : broadcaster) (memo : string) : list event -> Prop :=
| call_once evs :
    attempt (prepared b memo) evs ->
    call_log b memo (EvLock :: evs ++ [EvUnlock])
| call_twice evs text evs2 :
    attempt (prepared b memo) evs ->
    failure_text evs = Some text ->
    attempt (prepared (Passes.corrected b text) memo) evs2 ->
    call_log b memo (EvLock :: evs ++ EvRetry :: evs2 ++ [EvUnlock]).

End Pipeline.

(** ** blockchain.go: construction and the node's status *)

Module Startup.
Import Go Sdk Blockchain.

(** [type Config struct]; [Coins] is [sdk.Coins]. *)
Record Config (Coins : Type) : Type := mkConfig {
  KeyringRootDir : string;
  KeyringBackend : string;
  KeyringPromptInput : string;
  NodeURI : string;
  BroadcastMode : string;
  From : string;
  ChainID : string;
  Fees : Coins;
  Gas : Z;
  GasAdjust : float
}.

(** [f.WithFees(fees)] *)
Definition WithFees (f : Factory) (fees : string) : Factory :=
  mkFactory (AccountNumber f) (Sequence f) (Sdk.Gas f) (GasAdjustment f)
            (Memo f) fees.

(** The calls of [New], [GetHeight] and [PingContext] that leave the
    package.  [keyring_New] is [keyring.New(config.AppName, backend, rootDir,
    input)]; [NewFactoryCLI] is [tx.NewFactoryCLI] on an empty flag set;
    [ABCIInfo] gives [Response.LastBlockHeight], an [int64]. *)
Record Collaborators (W Keyring Info Client Coins : Type) : Type :=
  mkCollaborators {
  keyring_New : W -> string -> string -> string -> W * (Keyring + string);
  Key : W -> Keyring -> string -> W * (Info + string);
  GetName : Info -> string;
  GetAddress : Info -> string;
  NewClientFromNode : W -> string -> W * (Client + string);
  NewFactoryCLI : Context -> Factory;
  Coins_String : Coins -> string;
  GetNode : W -> Context -> W * (Client + string);
  ABCIInfo : W -> Client -> W * (Z + string)
}.

Definition is_int64 (z : Z) : Prop := - 2 ^ 63 <= z < 2 ^ 63.

Section Methods.
Context {W Msg Tx Keyring Info Client Coins : Type}.
Context (cs : Collaborators W Keyring Info Client Coins).
Context (sdk : Sdk.Collaborators W Msg Tx).

(** [func New(cfg Config)]: the new broadcaster, or an error. *)
Definition New (cfg : Config Coins) (w : W) : W * (broadcaster + error) :=
  let '(w1, opened) :=
    keyring_New cs w (KeyringBackend cfg) (KeyringRootDir cfg)
                (KeyringPromptInput cfg) in
  match opened with
  | inr err => (w1, inr (Wrapf "failed to create keyring" (External err)))
  | inl kr =>
      let '(w2, found) := Key cs w1 kr (From cfg) in
      match found with
      | inr err => (w2, inr (Wrapf "failed to get account" (External err)))
      | inl acc =>
          let '(w3, dialed) := NewClientFromNode cs w2 (NodeURI cfg) in
          match dialed with
          | inr err => (w3, inr (Wrapf "failed to create client" (External err)))
          | inl _ =>
              let ctx := mkContext (GetName cs acc) (GetAddress cs acc) in
              let factory :=
                WithGasAdjustment
                  (WithGas (WithFees (NewFactoryCLI cs ctx)
                                     (Coins_String cs (Fees cfg)))
                           (Gas cfg))
                  (GasAdjust cfg) in
              let b := mkBroadcaster ctx factory in
              let r := refreshSequence sdk b w3 in
              match ret r with
              | Some err =>
                  (world r, inr (Wrapf "failed to refresh sequence" err))
              | None => (world r, inl (after r))
              end
          end
      end
  end.

(** [func (b *broadcaster) GetHeight(ctx context.Context) (uint64, error)];
    the [context.Context] of the caller goes with the RPC call and belongs
    to the outside world. *)
Definition GetHeight (b : broadcaster) (w : W) : W * (Z * option error) :=
  let '(w1, node) := GetNode cs w (ctx b) in
  match node with
  | inr err => (w1, (0, Some (Wrapf "failed get node" (External err))))
  | inl c =>
      let '(w2, info) := ABCIInfo cs w1 c in
      match info with
      | inr err =>
          (w2, (0, Some (Wrapf "failed to fetch ABCIInfo" (External err))))
      | inl LastBlockHeight => (w2, (uint64_wrap LastBlockHeight, None))
      end
  end.


End Methods.
End Startup.

(** ** The earlier revision: the order of the calls *)

Module LegacyLog.
Import Go Sdk Legacy.

(** [auth.NewTxBuilder(b.enc, b.num, b.seq, b.gas, b.gasAdj, false,
    b.chainID, memo, b.fees, nil)] *)
Definition builder (b : Broadcaster) (memo : string) : TxBuilder :=
  mkTxBuilder (num b) (seq b) (gas b) (gasAdj b) false (chainID b) memo (fees b).

(** Refreshes of a log, and the builders it starts from. *)
Fixpoint refreshes (evs : list event) : list (option string) :=
  match evs with
  | [] => []
  | EvRefresh failed :: evs' => failed :: refreshes evs'
  | _ :: evs' => refreshes evs'
  end.

Fixpoint builders (evs : list event) : list TxBuilder :=
  match evs with
  | [] => []
  | EvPrepareTxBuilder bld _ :: evs' => bld :: builders evs'
  | _ :: evs' => builders evs'
  end.

Fixpoint send_results (evs : list event) : list (TxResponse + string) :=
  match evs with
  | [] => []
  | EvBroadcastTx _ r :: evs' => r :: send_results evs'
  | _ :: evs' => send_results evs'
  end.

Section Entries.
Context {W Msg : Type} (sdk : Collaborators W Msg).

(** What [broadcast] makes of the response of the node: the receiver it
    leaves and what it returns. *)
Inductive answer (b : Broadcaster)
  : TxResponse -> Broadcaster -> TxResponse + error -> Prop :=
| answer_mempool resp :
    Code resp = ABCICode_ErrTxInMempoolCache ->
    answer b resp b (inr ErrTxInMempoolCache)
| answer_unauthorized resp :
    Code resp = ABCICode_ErrUnauthorized ->
    answer b resp b (inr errInvalidSequence)
| answer_rejected resp :
    Code resp <> 0 ->
    Code resp <> ABCICode_ErrTxInMempoolCache ->
    Code resp <> ABCICode_ErrUnauthorized ->
    answer b resp b
           (inr (Newf "failed to broadcast tx" (TxResponse_String sdk resp)))
| answer_accepted resp :
    Code resp = 0 ->
    answer b resp (set_num_seq b (num b) (uint64_add (seq b) 1)) (inl resp).

(** One entry into [broadcast]: its log, the receiver it leaves and what
    it returns. *)
Inductive entry (b : Broadcaster) (memo : string)
  : list event -> Broadcaster -> TxResponse + error -> Prop :=
| entry_prepare err :
    entry b memo
      [EvCall; EvLock; EvPrepareTxBuilder (builder b memo) (Some err); EvUnlock]
      b (inr (Wrapf "failed to prepare builder" (External err)))
| entry_gas err :
    entry b memo
      [EvCall; EvLock; EvPrepareTxBuilder (builder b memo) None;
       EvEnrichWithGas (Some err); EvUnlock]
      b (inr (Wrapf "failed to calculate gas" (External err)))
| entry_sign bld err :
    entry b memo
      [EvCall; EvLock; EvPrepareTxBuilder (builder b memo) None;
       EvEnrichWithGas None; EvBuildAndSign bld (Some err); EvUnlock]
      b (inr (Wrapf "failed to build and sign tx" (External err)))
| entry_transport bld txBytes err :
    entry b memo
      [EvCall; EvLock; EvPrepareTxBuilder (builder b memo) None;
       EvEnrichWithGas None; EvBuildAndSign bld None;
       EvBroadcastTx txBytes (inr err); EvUnlock]
      b (inr (Wrapf "failed to broadcast tx" (External err)))
| entry_answered bld txBytes resp b' res :
    answer b resp b' res ->
    entry b memo
      [EvCall; EvLock; EvPrepareTxBuilder (builder b memo) None;
       EvEnrichWithGas None; EvBuildAndSign bld None;
       EvBroadcastTx txBytes (inl resp); EvUnlock]
      b' res.

(** The public method wraps the error of the entry it returns from. *)
Definition wrapped (res : TxResponse + error) : TxResponse + error :=
  match res with
  | inl out => inl out
  | inr err => inr (Wrapf "failed to broadcast" err)
  end.

(** A call of [Broadcast]: one entry; or an entry that ends in
    [errInvalidSequence], the refresh, and when the refresh succeeds a
    second entry on the refreshed receiver. *)
Inductive call (b : Broadcaster) (memo : string)
  : list event -> Broadcaster -> TxResponse + error -> Prop :=
| legacy_once evs b' res :
    entry b memo evs b' res ->
    res <> inr errInvalidSequence ->
    call b memo evs b' (wrapped res)
| legacy_refresh_fails evs n s text :
    entry b memo evs b (inr errInvalidSequence) ->
    call b memo (evs ++ [EvRefresh (Some text)]) (set_num_seq b n s)
         (inr (Wrapf "failed to refresh sequence" (External text)))
| legacy_twice evs n s evs2 b2 res2 :
    entry b memo evs b (inr errInvalidSequence) ->
    entry (set_num_seq b n s) memo evs2 b2 res2 ->
    call b memo (evs ++ EvRefresh None :: evs2) b2 (wrapped res2).

End Entries.
End LegacyLog.

(** ** The earlier revision: construction and the node's status *)

Module LegacyStartup.
Import Go Sdk Legacy.

(** [type Config struct] *)
Record Config : Type := mkConfig {
  CLIHome : string;
  KeyringBackend : string;
  KeyringPromptInput : string;
  NodeURI : string;
  BroadcastMode : string;
  From : string;
  ChainID : string;
  GenesisKeyPass : string;
  Fees : string;
  Gas : Z;
  GasAdjust : float
}.

(** The calls of [New], [GetHeight] and [Ping] that leave the package.
    [NewKeyring] is [keys.NewKeyring(sdk.KeyringServiceName(), backend,
    home, input)]; [ABCIInfo] gives [Response.LastBlockHeight], an
    [int64]. *)
Record Collaborators (W Keybase Info Client : Type) : Type :=
  mkCollaborators {
  NewKeyring : W -> string -> string -> string -> W * (Keybase + string);
  Get : W -> Keybase -> string -> W * (Info + string);
  GetName : Info -> string;
  GetAddress : Info -> string;
  GetNode : W -> Broadcaster -> W * (Client + string);
  ABCIInfo : W -> Client -> W * (Z + string)
}.

Section Methods.
Context {W Msg Keybase Info Client : Type}.
Context (cs : Collaborators W Keybase Info Client).
Context (sdk : Legacy.Collaborators W Msg).

(** [func New(cdc *codec.Codec, cfg Config)]: the new broadcaster, or an
    error. *)
Definition New (cfg : Config) (w : W) : W * (Broadcaster + error) :=
  let '(w1, opened) :=
    NewKeyring cs w (KeyringBackend cfg) (CLIHome cfg) (KeyringPromptInput cfg) in
  match opened with
  | inr err => (w1, inr (Wrapf "failed to create keyring" (External err)))
  | inl kb =>
      let '(w2, found) := Get cs w1 kb (From cfg) in
      match found with
      | inr err => (w2, inr (Wrapf "failed to get account" (External err)))
      | inl acc =>
          let b :=
            mkBroadcaster (GetName cs acc) (GetAddress cs acc)
                          (GenesisKeyPass cfg) (ChainID cfg) 0 0
                          (Fees cfg) (Gas cfg) (GasAdjust cfg) in
          let r := refreshSequence sdk b w2 in
          match ret r with
          | Some err => (world r, inr (Wrapf "failed to refresh sequence" err))
          | None => (world r, inl (after r))
          end
      end
  end.

(** [func (b *Broadcaster) GetHeight() (uint64, error)] *)
Definition GetHeight (b : Broadcaster) (w : W) : W * (Z * option error) :=
  let '(w1, node) := GetNode cs w b in
  match node with
  | inr err => (w1, (0, Some (Wrapf "failed get node" (External err))))
  | inl c =>
      let '(w2, info) := ABCIInfo cs w1 c in
      match info with
      | inr err =>
          (w2, (0, Some (Wrapf "failed to fetch ABCIInfo" (External err))))
      | inl LastBlockHeight => (w2, (uint64_wrap LastBlockHeight, None))
      end
  end.


End Methods.
End LegacyStartup.

(** ** Scripted construction

    Test doubles for the collaborators of [New], [GetHeight] and
    [PingContext]: a keyring with the one key [alice], a node that is
    reached under every URI but the empty one, and a status call that
    answers [height]. *)

Module ScriptedStartup.
Import Go Sdk.
Local Open Scope string_scope.
Local Open Scope Z_scope.

Definition startup (height : Z + string)
  : Startup.Collaborators Scripted.Node string (string * string) string string :=
  {| Startup.keyring_New := fun n backend root _ =>
       (n, if String.eqb backend "test" then inl root
           else inr ("unknown keyring backend " ++ backend)%string);
     Startup.Key := fun n _ name =>
       (n, if String.eqb name "alice" then inl ("alice", "decentr1alice")%string
           else inr (name ++ ".info: key not found")%string);
     Startup.GetName := fst;
     Startup.GetAddress := snd;
     Startup.NewClientFromNode := fun n uri =>
       (n, if String.eqb uri "" then inr "missing node URI"%string else inl uri);
     Startup.NewFactoryCLI := fun _ => mkFactory 0 0 200000 0%float "" "";
     Startup.Coins_String := fun fees => fees;
     Startup.GetNode := fun n _ => (n, inl "tcp://localhost:26657"%string);
     Startup.ABCIInfo := fun n _ => (n, height) |}.

Definition config (backend : string) (gas : Z) : Startup.Config string :=
  Startup.mkConfig "/home/alice" backend "" "tcp://localhost:26657" "sync"
                   "alice" "mainnet-3" "10udec" gas 0%float.

(** A node that only has replies for the account query and submissions. *)
Definition chain (account : list (Z * Z + string))
           (send : list (TxResponse + string)) : Scripted.Node :=
  Scripted.mkNode [] [] [] [] send [] account.

Definition legacy_startup (height : Z + string)
  : LegacyStartup.Collaborators Scripted.LegacyNode string (string * string) string :=
  {| LegacyStartup.NewKeyring := fun n backend home _ =>
       (n, if String.eqb backend "test" then inl home
           else inr ("unknown keyring backend " ++ backend)%string);
     LegacyStartup.Get := fun n _ name =>
       (n, if String.eqb name "alice" then inl ("alice", "decentr1alice")%string
           else inr ("Key " ++ name ++ " not found")%string);
     LegacyStartup.GetName := fst;
     LegacyStartup.GetAddress := snd;
     LegacyStartup.GetNode := fun n _ => (n, inl "tcp://localhost:26657"%string);
     LegacyStartup.ABCIInfo := fun n _ => (n, height) |}.

Definition legacy_config (backend : string) : LegacyStartup.Config :=
  LegacyStartup.mkConfig "/home/alice" backend "" "tcp://localhost:26657" "sync"
                         "alice" "mainnet-3" "" "10udec" 100 1%float.

Definition legacy_chain (account : list (Z * Z * option string))
           (send : list (TxResponse + string)) : Scripted.LegacyNode :=
  Scripted.mkLegacyNode [] [] send account.

End ScriptedStartup.

(** ** Calls that keep their sequence, and what a submission is made of *)

Module Steady.
Import Go Sdk.

(** Every number of the list is the first one. *)
Definition one_sequence (seqs : list Z) : bool :=
  match seqs with
  | [] => true
  | s :: rest => forallb (Z.eqb s) rest
  end.

(** A call that returned a response and handed out one sequence
    throughout: its retried attempt, if there is one, ran with the sequence
    that the first attempt ran with. *)
Definition steady_success {W}
           (r : Blockchain.Run W (TxResponse + error)) : bool :=
  match Blockchain.ret r with
  | inl _ =>
      one_sequence (map Sequence (Pipeline.factories (Blockchain.events r)))
  | inr _ => false
  end.

(** The same in the earlier revision, on the builders of the call. *)
Definition legacy_steady_success {W}
           (r : Legacy.Run W (TxResponse + error)) : bool :=
  match Legacy.ret r with
  | inl _ =>
      one_sequence
        (map Legacy.bldSequence (LegacyLog.builders (Legacy.events r)))
  | inr _ => false
  end.

(** The sequence that a failure text leaves in a receiver with the
    sequence [s]: the number read from the text, or [s] when that is 0. *)
Definition sequence_after_text (s : Z) (text : string) : Z :=
  if Pattern.getNextSequence text =? 0 then s else Pattern.getNextSequence text.

Section Submissions.
Context {W Msg Tx : Type} (sdk : Collaborators W Msg Tx).

(** [txBytes], submitted with the answer [res], is the encoding of the
    transaction that was built from [msgs] with the factory [f] and signed
    with [f] under the name [name], each call on the world that the call
    before it left. *)
Definition submitted_from (msgs : list Msg) (name : string) (f : Factory)
           (txBytes : list Byte.byte) (res : TxResponse + string) : Prop :=
  exists w1 w2 w3 w4 w5 unsignedTx signedTx,
    BuildUnsignedTx sdk w1 f msgs = (w2, inl unsignedTx)
    /\ Sign sdk w2 f name unsignedTx = (w3, inl signedTx)
    /\ TxEncoder sdk w3 signedTx = (w4, inl txBytes)
    /\ BroadcastTx sdk w4 txBytes = (w5, res).

End Submissions.
End Steady.

(** ** Sequence extraction *)

Section Extraction.
Import Go Pattern.
Local Open Scope string_scope.
Local Open Scope Z_scope.

Lemma append_assoc (a b c : string) : (a ++ b) ++ c = a ++ (b ++ c).
Proof. induction a as [|x a IH]; simpl; [reflexivity | now rewrite IH]. Qed.

Lemma append_empty_r (a : string) : a ++ EmptyString = a.
Proof. induction a as [|x a IH]; simpl; [reflexivity | now rewrite IH]. Qed.

Lemma strip_prefix_sound lit s rest :
  strip_prefix lit s = Some rest -> s = lit ++ rest.
Proof.
  revert s; induction lit as [|a lit IH]; intros s H; simpl in *.
  - now inversion H.
  - destruct s as [|b s]; [discriminate|].
    destruct (Ascii.eqb a b) eqn:E; [|discriminate].
    apply Ascii.eqb_eq in E; subst b. f_equal. now apply IH.
Qed.

Lemma plus_greedy_sound R class (k : string -> option R) s t r :
  plus_greedy class k s = Some (t, r) ->
  exists rest,
    s = t ++ rest /\ k rest = Some r
    /\ t <> EmptyString /\ all_chars class t = true.
Proof.
  revert t r; induction s as [|c s IH]; intros t r H; simpl in H; [discriminate|].
  destruct (class c) eqn:Hc; [|discriminate].
  destruct (plus_greedy class k s) as [[t' r']|] eqn:Hmore.
  - inversion H; subst. destruct (IH _ _ eq_refl) as (rest & -> & Hk & _ & Hall).
    exists rest. simpl. rewrite Hc, Hall. repeat split; auto; discriminate.
  - destruct (k s) as [r'|] eqn:Hk; [|discriminate].
    inversion H; subst. exists s. simpl. rewrite Hc.
    repeat split; auto; discriminate.
Qed.

(** A match of the pattern spells the sentence out. *)
Lemma match_here_mismatch s m caps :
  match_here accountSequenceMismatchErrorRegExp s = Some (m, caps) ->
  exists before n got after rest,
    is_number n /\ is_number got
    /\ caps = [n]
    /\ before <> EmptyString /\ after <> EmptyString
    /\ m = before ++ mismatch_sentence n got ++ after
    /\ s = m ++ rest.
Proof.
  unfold accountSequenceMismatchErrorRegExp, mismatch_sentence.
  cbn [match_here]. intros H.
  destruct (plus_greedy any_char _ s) as [[t1 [m1 c1]]|] eqn:P1; [|discriminate].
  inversion H; subst m caps; clear H.
  apply plus_greedy_sound in P1. destruct P1 as (s1 & -> & K1 & Hne1 & _).
  destruct (strip_prefix _ s1) as [s2|] eqn:L1; [|discriminate].
  apply strip_prefix_sound in L1; subst s1.
  destruct (plus_greedy digit _ s2) as [[n [m2 c2]]|] eqn:P2; [|discriminate].
  inversion K1; subst m1 c1; clear K1.
  apply plus_greedy_sound in P2. destruct P2 as (s3 & -> & K2 & Hn & Hnd).
  destruct (strip_prefix _ s3) as [s4|] eqn:L2; [|discriminate].
  apply strip_prefix_sound in L2; subst s3.
  destruct (plus_greedy digit _ s4) as [[g [m3 c3]]|] eqn:P3; [|discriminate].
  inversion K2; subst m2 c2; clear K2.
  apply plus_greedy_sound in P3. destruct P3 as (s5 & -> & K3 & Hg & Hgd).
  destruct (strip_prefix _ s5) as [s6|] eqn:L3; [|discriminate].
  apply strip_prefix_sound in L3; subst s5.
  destruct (plus_greedy any_char _ s6) as [[t4 [m4 c4]]|] eqn:P4; [|discriminate].
  inversion K3; subst m3 c3; clear K3.
  apply plus_greedy_sound in P4. destruct P4 as (s7 & -> & K4 & Hne4 & _).
  inversion K4; subst m4 c4; clear K4.
  exists t1, n, g, t4, s7.
  repeat split; auto.
  all: rewrite append_empty_r.
  all: repeat (progress (rewrite ?append_assoc; simpl)); reflexivity.
Qed.

Lemma FindStringSubmatch_hit re s m caps :
  match_here re s = Some (m, caps) -> FindStringSubmatch re s = m :: caps.
Proof. intros H. destruct s; simpl; now rewrite H. Qed.

Lemma FindStringSubmatch_sound s found :
  FindStringSubmatch accountSequenceMismatchErrorRegExp s = found ->
  found <> [] ->
  contains_mismatch_sentence s.
Proof.
  revert found; induction s as [|c s IH]; intros found H Hne.
  - simpl in H. congruence.
  - cbn [FindStringSubmatch] in H.
    destruct (match_here _ (String c s)) as [[m caps]|] eqn:Hm.
    + apply match_here_mismatch in Hm.
      destruct Hm as (bf & n & g & af & rest & Hn & Hg & _ & _ & _ & -> & Hs).
      exists bf, n, g, (af ++ rest). repeat split; try apply Hn; try apply Hg.
      rewrite Hs. unfold mismatch_sentence.
    repeat (progress (rewrite ?append_assoc; simpl)); reflexivity.
    + destruct (IH _ eq_refl) as (pre & n & g & post & Hn & Hg & ->);
        [congruence|].
      exists (String c pre), n, g, post. repeat split; try apply Hn; try apply Hg.
Qed.

Lemma maxUint64_value : maxUint64 = 18446744073709551615.
Proof. reflexivity. Qed.

Lemma digit_value_range c d : digit_value c = Some d -> 0 <= d <= 9.
Proof.
  unfold digit_value.
  destruct (_ && _) eqn:D; [|discriminate].
  intros H; inversion H; subst.
  apply andb_true_iff in D. destruct D as [D1 D2].
  apply Z.leb_le in D1. apply Z.leb_le in D2. lia.
Qed.

Lemma ParseUint_loop_range s n :
  0 <= n <= maxUint64 -> 0 <= fst (ParseUint_loop s n) <= maxUint64.
Proof.
  revert n; induction s as [|c s IH]; intros n Hn; cbn [ParseUint_loop fst];
    [exact Hn|].
  destruct (digit_value c) as [d|] eqn:D; cbn [fst];
    [|rewrite maxUint64_value; lia].
  apply digit_value_range in D.
  destruct (maxUint64 / 10 + 1 <=? n); cbn [fst];
    [rewrite maxUint64_value; lia|].
  destruct (maxUint64 <? n * 10 + d) eqn:O; cbn [fst];
    [rewrite maxUint64_value; lia|].
  apply IH. apply Z.ltb_ge in O. lia.
Qed.

Lemma getNextSequence_range m : 0 <= getNextSequence m <= maxUint64.
Proof.
  unfold getNextSequence.
  destruct (negb _); [rewrite maxUint64_value; lia|].
  destruct (ParseUint _) as [v e] eqn:P.
  change v with (fst (v, e)). rewrite <- P. unfold ParseUint.
  destruct (nth 1 _ _) as [|a s]; cbn [fst]; [rewrite maxUint64_value; lia|].
  apply ParseUint_loop_range. rewrite maxUint64_value; lia.
Qed.

Lemma uint64_add_range x y : is_uint64 (uint64_add x y).
Proof.
  unfold is_uint64, uint64_add, uint64_wrap. rewrite maxUint64_value.
  pose proof (Z.mod_pos_bound (x + y) (2 ^ 64)). lia.
Qed.

Lemma uint64_wrap_small x : is_uint64 x -> uint64_wrap x = x.
Proof.
  unfold is_uint64, uint64_wrap. rewrite maxUint64_value. intros H.
  apply Z.mod_small. lia.
Qed.

Lemma uint64_add_wrap x n :
  uint64_wrap (uint64_add x 1 + n) = uint64_wrap (x + (1 + n)).
Proof.
  unfold uint64_add, uint64_wrap.
  rewrite Zplus_mod_idemp_l. f_equal. lia.
Qed.

Lemma length_append (a b : string) :
  String.length (a ++ b) = (String.length a + String.length b)%nat.
Proof. induction a as [|x a IH]; simpl; [reflexivity | now rewrite IH]. Qed.

Lemma mismatch_sentence_needs_room s :
  contains_mismatch_sentence s -> (36 <= String.length s)%nat.
Proof.
  intros (pre & n & m & post & _ & _ & ->). unfold mismatch_sentence.
  rewrite !length_append. simpl. lia.
Qed.

(** With something before it on the same line, the sentence of the claim
    is found: the greedy prefix gives back exactly the sentence. *)
Lemma greedy_prefix_stops_at_sample pre :
  pre <> EmptyString ->
  all_chars any_char pre = true ->
  plus_greedy any_char (match_here (tl accountSequenceMismatchErrorRegExp))
              (pre ++ sample_sentence)
  = Some (pre, (sample_sentence, ["42"])).
Proof.
  induction pre as [|c pre IH]; intros Hne Hall; [congruence|].
  simpl in Hall. apply andb_true_iff in Hall. destruct Hall as [Hc Hall].
  change (String c pre ++ sample_sentence) with (String c (pre ++ sample_sentence)).
  cbn [plus_greedy]. rewrite Hc.
  destruct pre as [|c' pre'].
  - reflexivity.
  - rewrite IH; [reflexivity | discriminate | exact Hall].
Qed.

End Extraction.

(** ** The earlier revision: one call *)

Section LegacyCalls.
Import Go Sdk.
Context {W Msg : Type} (sdk : Legacy.Collaborators W Msg).

Arguments uint64_add : simpl never.
Arguments Z.eqb : simpl never.

Ltac legacy_tests :=
  unfold ABCICode_ErrTxInMempoolCache, ABCICode_ErrUnauthorized in *;
  repeat match goal with
         | H : negb _ = true |- _ => apply negb_true_iff in H
         | H : negb _ = false |- _ => apply negb_false_iff in H
         | H : (_ =? _) = true |- _ => apply Z.eqb_eq in H
         | H : (_ =? _) = false |- _ => apply Z.eqb_neq in H
         end.

Ltac legacy_split H :=
  repeat match type of H with
         | context [match ?x with _ => _ end] => destruct x eqn:?
         end;
  inversion H; subst; clear H.

(** One entry into [broadcast], case by case. *)
Ltac legacy_call_cases :=
  intros;
  repeat match goal with
         | x := _ |- _ => subst x
         end;
  repeat match goal with
         | H : context [Legacy.broadcast] |- _ => revert H
         end;
  match goal with
  | |- context [Legacy.broadcast sdk ?m ?mm ?b ?w] =>
      let H1 := fresh "Hcall" in
      destruct (Legacy.broadcast sdk m mm b w) as [? ? ? ?] eqn:H1;
      unfold Legacy.broadcast in H1; legacy_split H1
  end;
  cbn [Legacy.ret Legacy.after Legacy.world Legacy.events
       Legacy.stage_failure Legacy.attempt_response Legacy.calls];
  intros.

Lemma legacy_call_counts msgs memo b w :
  Legacy.calls (Legacy.events (Legacy.broadcast sdk msgs memo b w)) = 1%nat.
Proof. legacy_call_cases; reflexivity. Qed.

(** A whole call: the first entry case by case, the second one, when the
    method refreshes and tries again, as it comes. *)
Ltac legacy_Broadcast_cases :=
  intros;
  repeat match goal with
         | x := _ |- _ => subst x
         end;
  repeat match goal with
         | H : context [Legacy.Broadcast] |- _ => revert H
         end;
  unfold Legacy.Broadcast; cbv zeta;
  match goal with
  | |- context [Legacy.broadcast sdk ?m ?mm ?b ?w] =>
      let H1 := fresh "Hcall" in
      destruct (Legacy.broadcast sdk m mm b w) as [? ? ? ?] eqn:H1;
      unfold Legacy.broadcast in H1; legacy_split H1
  end;
  cbn [Legacy.ret Legacy.after Legacy.world Legacy.events
       Is_invalid_sequence];
  try match goal with
      | |- context [Legacy.refreshSequence sdk ?b1 ?w1] =>
          destruct (Legacy.refreshSequence sdk b1 w1) as [? ? ? [?|]];
          cbn [Legacy.ret Legacy.after Legacy.world Legacy.events]
      end;
  try match goal with
      | |- context [Legacy.broadcast sdk ?m ?mm ?b2 ?w2] =>
          pose proof (legacy_call_counts m mm b2 w2);
          destruct (Legacy.broadcast sdk m mm b2 w2) as [? ? ? [?|?]];
          cbn [Legacy.ret Legacy.after Legacy.world Legacy.events]
      end;
  simpl; intros.

Lemma legacy_stage_failure msgs memo b w st err :
  let r := Legacy.broadcast sdk msgs memo b w in
  Legacy.stage_failure (Legacy.events r) = Some (st, err) ->
  Legacy.ret r = inr (Wrapf (Legacy.stage_description st) (External err))
  /\ Legacy.after r = b.
Proof.
  legacy_call_cases.
  all: try discriminate.
  all: match goal with H : Some _ = Some _ |- _ => inversion H; subst end.
  all: simpl; auto.
Qed.

Lemma legacy_stage_failure_no_retry msgs memo b w st err :
  let r := Legacy.Broadcast sdk msgs memo b w in
  Legacy.stage_failure (Legacy.events r) = Some (st, err) ->
  Legacy.ret r
  = inr (Wrapf "failed to broadcast"
               (Wrapf (Legacy.stage_description st) (External err)))
  /\ Legacy.calls (Legacy.events r) = 1%nat
  /\ Legacy.after r = b.
Proof.
  legacy_Broadcast_cases.
  all: try discriminate.
  all: match goal with H : Some _ = Some _ |- _ => inversion H; subst end.
  all: simpl; auto.
Qed.

Lemma legacy_mempool_code msgs memo b w resp :
  let r := Legacy.broadcast sdk msgs memo b w in
  Legacy.attempt_response (Legacy.events r) = Some resp ->
  Code resp = ABCICode_ErrTxInMempoolCache ->
  Legacy.ret r = inr ErrTxInMempoolCache
  /\ Legacy.after r = b.
Proof.
  legacy_call_cases.
  all: try discriminate.
  all: match goal with H : Some _ = Some _ |- _ => inversion H; subst end.
  all: legacy_tests; try lia; auto.
Qed.

Lemma legacy_mempool_code_no_retry msgs memo b w resp :
  let r := Legacy.Broadcast sdk msgs memo b w in
  Legacy.attempt_response (Legacy.events r) = Some resp ->
  Code resp = ABCICode_ErrTxInMempoolCache ->
  Legacy.ret r = inr (Wrapf "failed to broadcast" ErrTxInMempoolCache)
  /\ Legacy.calls (Legacy.events r) = 1%nat
  /\ Legacy.after r = b.
Proof.
  legacy_Broadcast_cases.
  all: try discriminate.
  all: match goal with H : Some _ = Some _ |- _ => inversion H; subst end.
  all: legacy_tests; try lia; auto.
Qed.

Lemma legacy_calls_app evs1 evs2 :
  Legacy.calls (evs1 ++ evs2) = (Legacy.calls evs1 + Legacy.calls evs2)%nat.
Proof.
  induction evs1 as [|e evs1 IH]; simpl; [reflexivity|].
  destruct e; simpl; rewrite ?IH; reflexivity.
Qed.

End LegacyCalls.

(** ** One attempt of [broadcast] *)

Section Attempts.
Import Go Sdk Blockchain Trace Passes.
Context {W Msg Tx : Type} (sdk : Collaborators W Msg Tx).

Arguments getNextSequence : simpl never.
Arguments uint64_add : simpl never.
Arguments Z.eqb : simpl never.

Ltac split_run :=
  repeat match goal with
         | |- context [match ?x with _ => _ end] => destruct x eqn:?
         end.

Lemma broadcast_by_pass isRetry msgs memo b w :
  broadcast sdk isRetry msgs memo b w
  = locked isRetry (after_pass sdk isRetry msgs memo b (pass sdk msgs memo b w)).
Proof.
  rewrite broadcast_equation_1.
  unfold after_pass, pass, submit_pass, corrected, locked, logged; cbv zeta.
  destruct isRetry.
  all: split_run; try discriminate; try congruence; reflexivity.
Qed.

Ltac z_bool :=
  unfold rejected, ABCICode_ErrTxInMempoolCache in *;
  repeat match goal with
         | H : (_ && _) = true |- _ => apply andb_true_iff in H; destruct H
         | H : negb _ = true |- _ => apply negb_true_iff in H
         | H : negb _ = false |- _ => apply negb_false_iff in H
         | H : (_ =? _) = true |- _ => apply Z.eqb_eq in H
         | H : (_ =? _) = false |- _ => apply Z.eqb_neq in H
         end.

Ltac split_pass H :=
  repeat match type of H with
         | context [match ?x with _ => _ end] => destruct x eqn:?
         end;
  inversion H; subst; clear H.

Lemma submit_pass_ok msgs b txf2 w1 w2 evs e :
  Sequence txf2 = Sequence (txf b) ->
  submit_pass sdk msgs b txf2 w1 = (w2, evs, e) ->
  pass_spec sdk b evs e /\ pass_log_ok b evs.
Proof.
  intros Hseq H. unfold submit_pass in H. split_pass H.
  all: split;
    [|split; [reflexivity|split; [reflexivity|split;
       [repeat constructor; exact Hseq | unfold sends; simpl; lia]]]].
  - eapply pass_mempool; [reflexivity | | reflexivity | | reflexivity].
    + now apply Z.eqb_eq in Heqb1.
    + unfold failure_text, rejected; simpl. rewrite Heqb1.
      now rewrite andb_false_r.
  - apply pass_rejected; try reflexivity.
    + unfold rejected. now rewrite Heqb0, Heqb1.
    + unfold failure_text, rejected; simpl. now rewrite Heqb0, Heqb1.
  - apply negb_false_iff in Heqb0.
    apply pass_accepted; try reflexivity.
    + now apply Z.eqb_eq in Heqb0.
    + unfold failure_text, rejected; simpl. now rewrite Heqb0.
  - apply (pass_stage_failure sdk b _ (st := Send)); try reflexivity;
      simpl; intuition discriminate.
  - apply (pass_stage_failure sdk b _ (st := Encode)); try reflexivity;
      simpl; intuition discriminate.
  - apply (pass_stage_failure sdk b _ (st := SignTx)); try reflexivity;
      simpl; intuition discriminate.
  - apply (pass_stage_failure sdk b _ (st := Build)); try reflexivity;
      simpl; intuition discriminate.
Qed.

Lemma pass_ok msgs memo b w w1 evs e :
  pass sdk msgs memo b w = (w1, evs, e) ->
  pass_spec sdk b evs e /\ pass_log_ok b evs.
Proof.
  unfold pass. cbv zeta.
  set (txf1 := if PrimFloat.eqb _ _ then _ else _).
  assert (Hseq : Sequence txf1 = Sequence (txf b))
    by (subst txf1; destruct (PrimFloat.eqb _ _); reflexivity).
  clearbody txf1. intros H.
  destruct (Gas txf1 =? 0).
  - destruct (CalculateGas sdk w txf1 msgs) as [w' [gas|err]].
    + destruct (submit_pass sdk msgs b (WithGas txf1 gas) w')
        as [[w2 evs'] e'] eqn:Hsub.
      inversion H; subst; clear H.
      apply submit_pass_ok in Hsub; [|exact Hseq].
      destruct Hsub as [Hspec (Hr & Hl & Hu & Hs)].
      split.
      * destruct Hspec.
        -- apply pass_stage_failure; assumption.
        -- eapply pass_mempool; eassumption.
        -- apply pass_accepted; assumption.
        -- apply pass_gas_failure; assumption.
        -- apply pass_rejected; assumption.
      * repeat split; simpl; auto.
    + inversion H; subst; clear H. split.
      * apply pass_gas_failure; reflexivity.
      * repeat split; simpl; auto.
  - now apply submit_pass_ok in H.
Qed.

Lemma broadcast_run_of isRetry msgs memo b w :
  run_of sdk b isRetry (broadcast sdk isRetry msgs memo b w).
Proof.
  rewrite broadcast_by_pass.
  destruct (pass sdk msgs memo b w) as [[w1 evs] e] eqn:Hp.
  apply pass_ok in Hp. destruct Hp as [Hspec Hlog].
  destruct e as [b' r | text err]; cbn [after_pass].
  - now apply run_returns.
  - destruct isRetry.
    + now apply run_retry_fails with (text := text).
    + rewrite broadcast_by_pass.
      destruct (pass sdk msgs memo (corrected b text) w1) as [[w2 evs2] e2] eqn:Hp2.
      apply pass_ok in Hp2. destruct Hp2 as [Hspec2 Hlog2].
      replace (locked false _)
        with (mkRun (ending_receiver (corrected b text) e2) w2
                    (EvLock :: evs ++ EvRetry :: evs2 ++ [EvUnlock])
                    (ending_result e2)).
      * now apply run_recurses with (err := err).
      * unfold locked, logged, after_pass.
        destruct e2; simpl; rewrite <- !app_assoc; reflexivity.
Qed.

Lemma first_in_attempt_app A (f : event -> option A) evs rest :
  retries evs = 0%nat ->
  first_in_attempt f (evs ++ rest)
  = match first_in_attempt f evs with
    | Some a => Some a
    | None => first_in_attempt f rest
    end.
Proof.
  induction evs as [|e evs IH]; simpl; intros Hr; [reflexivity|].
  destruct e; try discriminate; destruct (f _); auto.
Qed.

Lemma send_results_app evs1 evs2 :
  send_results (evs1 ++ evs2) = send_results evs1 ++ send_results evs2.
Proof.
  induction evs1 as [|e evs1 IH]; simpl; [reflexivity|].
  destruct e; simpl; rewrite ?IH; reflexivity.
Qed.

Lemma retries_app evs1 evs2 :
  retries (evs1 ++ evs2) = (retries evs1 + retries evs2)%nat.
Proof.
  induction evs1 as [|e evs1 IH]; simpl; [reflexivity|].
  destruct e; simpl; rewrite ?IH; reflexivity.
Qed.

Lemma retried_attempt_after pre evs :
  retries pre = 0%nat -> retried_attempt (pre ++ EvRetry :: evs) = evs.
Proof.
  induction pre as [|e pre IH]; simpl; [reflexivity|].
  destruct e; simpl; auto; discriminate.
Qed.

Lemma retried_attempt_locked evs rest :
  retries evs = 0%nat ->
  retried_attempt (EvLock :: evs ++ EvRetry :: rest) = rest.
Proof. intros H. cbn [retried_attempt]. now apply retried_attempt_after. Qed.

Lemma own_attempt_locked evs rest :
  retries evs = 0%nat ->
  own_attempt (EvLock :: evs ++ EvRetry :: rest) = EvLock :: evs.
Proof.
  intros H. cbn [own_attempt]. f_equal.
  induction evs as [|e evs IH]; simpl; [reflexivity|].
  destruct e; simpl in *; try discriminate; now rewrite IH.
Qed.

(** The observers on the log of a whole run, from those on its passes. *)
Lemma observe_locked A (f : event -> option A) evs rest :
  f EvLock = None ->
  retries evs = 0%nat ->
  first_in_attempt f (EvLock :: evs ++ rest)
  = match first_in_attempt f evs with
    | Some a => Some a
    | None => first_in_attempt f rest
    end.
Proof.
  intros Hf Hr. cbn [first_in_attempt]. rewrite Hf.
  now apply first_in_attempt_app.
Qed.

Lemma stage_failure_locked evs rest :
  retries evs = 0%nat ->
  stage_failure (EvLock :: evs ++ rest)
  = match stage_failure evs with
    | Some a => Some a
    | None => stage_failure rest
    end.
Proof. now apply observe_locked. Qed.

Lemma failure_text_locked evs rest :
  retries evs = 0%nat ->
  failure_text (EvLock :: evs ++ rest)
  = match failure_text evs with
    | Some a => Some a
    | None => failure_text rest
    end.
Proof. now apply observe_locked. Qed.

Lemma attempt_response_locked evs rest :
  retries evs = 0%nat ->
  attempt_response (EvLock :: evs ++ rest)
  = match attempt_response evs with
    | Some a => Some a
    | None => attempt_response rest
    end.
Proof. now apply observe_locked. Qed.

(** Case analysis of a run, with the facts of its passes at hand. *)
Ltac run_of_cases :=
  intros;
  repeat match goal with
         | x := _ |- _ => subst x
         end;
  match goal with
  | |- context [broadcast sdk ?i ?m ?mm ?b ?w] =>
      let Hrun := fresh "Hrun" in
      let r := fresh "r" in
      let Hr := fresh "Hr" in
      pose proof (broadcast_run_of i m mm b w) as Hrun;
      remember (broadcast sdk i m mm b w) as r eqn:Hr;
      clear Hr;
      repeat match goal with
             | H : context [r] |- _ =>
                 lazymatch H with Hrun => fail | _ => revert H end
             end;
      inversion Hrun; subst; clear Hrun
  end;
  repeat match goal with
         | H : pass_log_ok _ _ |- _ => destruct H as (? & ? & ? & ?)
         end;
  repeat match goal with
         | H : pass_spec _ _ _ _ |- _ => inversion H; subst; clear H
         end;
  try match goal with
      | |- context [locked ?i _] => is_var i; destruct i
      end;
  cbn [locked events ret after world ending_receiver ending_result];
  rewrite ?stage_failure_locked, ?failure_text_locked,
    ?attempt_response_locked by assumption;
  repeat match goal with
         | H : stage_failure ?l = _ |- context [stage_failure ?l] => rewrite H
         | H : failure_text ?l = _ |- context [failure_text ?l] => rewrite H
         | H : attempt_response ?l = _ |- context [attempt_response ?l] =>
             rewrite H
         end;
  intros.

Ltac injections :=
  repeat match goal with
         | H : Some _ = Some _ |- _ => inversion H; subst; clear H
         | H : inl _ = inl _ |- _ => inversion H; subst; clear H
         | H : inr _ = inr _ |- _ => inversion H; subst; clear H
         | H : _ :: _ = _ :: _ |- _ => inversion H; subst; clear H
         end.

Ltac count_events :=
  unfold sends in *;
  repeat (progress
            (cbn [retries send_results List.length app] in *;
             rewrite ?retries_app, ?send_results_app, ?length_app,
               ?app_nil_r, ?Nat.add_0_r in * ));
  repeat match goal with
         | H : send_results ?l = _ |- _ => rewrite H in *
         end;
  cbn [List.length app] in *.

Lemma stage_failure_ends_attempt isRetry msgs memo b w st err :
  let r := broadcast sdk isRetry msgs memo b w in
  stage_failure (events r) = Some (st, err) ->
  ret r = inr (Wrapf (stage_description st) (External err))
  /\ retries (events r) = 0%nat
  /\ after r = b.
Proof.
  run_of_cases.
  all: try discriminate.
  all: injections; count_events; repeat split; auto; lia.
Qed.

Lemma mempool_code_ends_attempt isRetry msgs memo b w resp :
  let r := broadcast sdk isRetry msgs memo b w in
  attempt_response (events r) = Some resp ->
  Code resp = ABCICode_ErrTxInMempoolCache ->
  ret r = inr ErrTxInMempoolCache
  /\ retries (events r) = 0%nat
  /\ sends (events r) = 1%nat
  /\ after r = b.
Proof.
  run_of_cases.
  all: try discriminate.
  all: injections; z_bool; try lia.
  all: count_events; repeat split; auto; lia.
Qed.

Lemma first_attempt_sends msgs memo b w :
  let r := broadcast sdk false msgs memo b w in
  (retries (events r) <= 1)%nat
  /\ (sends (events r) <= 2)%nat
  /\ forall r1 r2 rest,
      send_results (events r) = inl r1 :: inl r2 :: rest ->
      rejected r1 = true ->
      rejected r2 = true ->
      rest = []
      /\ sends (events r) = 2%nat
      /\ retries (events r) = 1%nat
      /\ ret r = inr (Newf "failed to broadcast tx" (TxResponse_String sdk r2)).
Proof.
  run_of_cases.
  all: count_events.
  all: split; [lia|]; split; [lia|]; intros r1 r2 rest Hs Hr1 Hr2.
  all: try discriminate.
  all: try match goal with
           | Hle : (List.length (send_results ?l) <= 1)%nat,
             Hs : send_results ?l = _ :: _ :: _ |- _ =>
               rewrite Hs in Hle; simpl in Hle; lia
           end.
  all: injections.
  all: try match goal with
           | Hno : forall resp, ~ In (inl resp) (send_results ?l),
             Hs : send_results ?l = inl ?r :: _ |- _ =>
               exfalso; apply (Hno r); rewrite Hs; now left
           end.
  all: z_bool; try lia.
  all: repeat split; auto; try lia.
Qed.

(** After a failure that the first attempt looks into, the method recurses
    once, and the second pass runs on the corrected receiver. *)
Lemma first_failure_retries msgs memo b w text :
  let r := broadcast sdk false msgs memo b w in
  failure_text (events r) = Some text ->
  retries (events r) = 1%nat
  /\ Forall (uses_sequence (Sequence (txf (corrected b text))))
            (retried_attempt (events r))
  /\ (sends (events r) = sends (own_attempt (events r))
                         + sends (retried_attempt (events r)))%nat
  /\ forall resp,
      ret r = inl resp ->
      after r
      = set_txf (corrected b text)
                (WithSequence (txf (corrected b text))
                   (uint64_add (Sequence (txf (corrected b text))) 1)).
Proof.
  run_of_cases.
  all: try discriminate.
  all: injections.
  all: rewrite retried_attempt_locked, own_attempt_locked by assumption.
  all: count_events.
  all: split; [lia|];
    split; [apply Forall_app; split; [assumption | repeat constructor]|];
    split; [lia|]; intros; try discriminate; reflexivity.
Qed.

(** The lock is taken at the entry that is not a retry and released when
    that entry returns; nothing in between touches it. *)
Lemma call_holds_lock msgs memo b w :
  exists body,
    events (broadcast sdk false msgs memo b w) = EvLock :: body ++ [EvUnlock]
    /\ forallb lock_free body = true.
Proof.
  run_of_cases.
  all: try (eexists; split; [reflexivity | assumption]).
  all: match goal with
       | |- context [?a ++ EvRetry :: ?c ++ [EvUnlock]] =>
           exists (a ++ EvRetry :: c)
       end.
  all: split; [now rewrite <- app_assoc|].
  all: rewrite forallb_app; simpl;
    repeat match goal with
           | H : forallb lock_free _ = true |- _ => rewrite H
           end;
    reflexivity.
Qed.

Lemma retried_attempt_none evs :
  retries evs = 0%nat -> retried_attempt evs = [].
Proof.
  induction evs as [|e evs IH]; simpl; [reflexivity|].
  destruct e; auto; discriminate.
Qed.

(** A response with the mempool-cache code ends the call with the
    sentinel, in whichever attempt it comes. *)
Lemma mempool_code_ends_call msgs memo b w resp :
  let r := broadcast sdk false msgs memo b w in
  In (inl resp) (send_results (events r)) ->
  Code resp = ABCICode_ErrTxInMempoolCache ->
  ret r = inr ErrTxInMempoolCache.
Proof.
  run_of_cases.
  all: count_events.
  all: repeat match goal with
              | H : In _ (_ :: _) |- _ => destruct H as [H|H]
              | H : In _ [] |- _ => destruct H
              end.
  all: try match goal with
           | Hno : forall resp, ~ In (inl resp) (send_results ?l),
             H : In (inl ?r) (send_results ?l) |- _ =>
               exfalso; exact (Hno r H)
           end.
  all: injections; z_bool; try lia; try reflexivity.
Qed.

(** A failed stage of the retried attempt ends the call as well. *)
Lemma retried_stage_failure_ends_call msgs memo b w st err :
  let r := broadcast sdk false msgs memo b w in
  stage_failure (retried_attempt (events r)) = Some (st, err) ->
  ret r = inr (Wrapf (stage_description st) (External err))
  /\ retries (events r) = 1%nat.
Proof.
  run_of_cases.
  all: repeat match goal with
              | H : context [retried_attempt (EvLock :: ?l ++ [EvUnlock])] |- _ =>
                  rewrite (@retried_attempt_none (EvLock :: l ++ [EvUnlock])) in H
                    by (cbn [retries]; rewrite retries_app; simpl; lia)
              | H : context [retried_attempt (EvLock :: _ ++ EvRetry :: _)] |- _ =>
                  rewrite retried_attempt_locked in H by assumption
              end.
  all: try discriminate.
  all: match goal with
       | H : stage_failure (?l ++ [EvUnlock]) = _ |- _ =>
           unfold stage_failure in H;
           rewrite first_in_attempt_app in H by assumption;
           fold stage_failure in H
       end.
  all: repeat match goal with
              | H : stage_failure ?l = _, H' : context [stage_failure ?l] |- _ =>
                  rewrite H in H'
              end.
  all: try discriminate.
  all: injections; count_events; split; [reflexivity | lia].
Qed.

(** A recursive call is always the answer to a failure text. *)
Lemma retry_only_after_failure msgs memo b w :
  let r := broadcast sdk false msgs memo b w in
  retries (events r) <> 0%nat ->
  exists text, failure_text (events r) = Some text.
Proof.
  run_of_cases.
  all: try (count_events; lia).
  all: eexists; reflexivity.
Qed.

(** The public method adds its wrapper to the error and nothing else. *)
Lemma Broadcast_events msgs memo b w :
  events (Broadcast sdk msgs memo b w)
  = events (broadcast sdk false msgs memo b w).
Proof.
  unfold Broadcast.
  now destruct (ret (broadcast sdk false msgs memo b w)).
Qed.

Lemma Broadcast_after msgs memo b w :
  after (Broadcast sdk msgs memo b w)
  = after (broadcast sdk false msgs memo b w).
Proof.
  unfold Broadcast.
  now destruct (ret (broadcast sdk false msgs memo b w)).
Qed.

Lemma Broadcast_ret msgs memo b w :
  ret (Broadcast sdk msgs memo b w)
  = match ret (broadcast sdk false msgs memo b w) with
    | inl out => inl out
    | inr err => inr (Wrapf "failed to broadcast" err)
    end.
Proof.
  unfold Broadcast.
  now destruct (ret (broadcast sdk false msgs memo b w)).
Qed.

Lemma retry_leaves_lock msgs memo b w :
  forallb lock_free (events (broadcast sdk true msgs memo b w)) = true.
Proof.
  run_of_cases; assumption.
Qed.

End Attempts.

(** ** Serialization under the mutex *)

Section Serialization.
Import Sdk Trace Mutex.

Lemma thread_block_same g log s :
  thread g (block g log ++ s) = log ++ thread g s.
Proof.
  induction log as [|e log IH]; simpl; [reflexivity|].
  now rewrite Nat.eqb_refl, IH.
Qed.

Lemma thread_block_other g g' log s :
  g <> g' -> thread g (block g' log ++ s) = thread g s.
Proof.
  intros Hg. induction log as [|e log IH]; simpl; [reflexivity|].
  apply Nat.eqb_neq in Hg. now rewrite Hg.
Qed.

Lemma admits_lock_free locked g e s :
  lock_free e = true -> admits locked ((g, e) :: s) = admits locked s.
Proof. destruct e; simpl; intros H; try discriminate; reflexivity. Qed.

Lemma concat_critical_waiting logs :
  Forall critical logs -> waiting (List.concat logs).
Proof.
  intros H. destruct H as [|log logs (body & -> & _) _]; [now left|].
  right. simpl. eexists. reflexivity.
Qed.

(** While one goroutine holds the mutex, the schedule continues with the
    rest of its call and with nothing else. *)
Lemma holder_runs_alone rem :
  forall g s more,
    admits true s = true ->
    thread g s = rem ++ EvUnlock :: more ->
    forallb lock_free rem = true ->
    (forall g', g' <> g -> waiting (thread g' s)) ->
    exists s',
      s = block g (rem ++ [EvUnlock]) ++ s'
      /\ admits false s' = true.
Proof.
  induction rem as [|r rem IH]; intros g s more Hadm Hthr Hfree Hothers.
  - destruct s as [|[g1 e] s1]; [discriminate|].
    destruct (Nat.eq_dec g1 g) as [->|Hne].
    + simpl in Hthr. rewrite Nat.eqb_refl in Hthr.
      inversion Hthr; subst. exists s1. split; [reflexivity|exact Hadm].
    + specialize (Hothers g1 Hne). simpl in Hothers.
      rewrite Nat.eqb_refl in Hothers.
      destruct Hothers as [H|[rest H]]; [discriminate|].
      inversion H; subst. discriminate.
  - simpl in Hfree. apply andb_true_iff in Hfree. destruct Hfree as [Hr Hfree].
    destruct s as [|[g1 e] s1]; [discriminate|].
    destruct (Nat.eq_dec g1 g) as [->|Hne].
    + simpl in Hthr. rewrite Nat.eqb_refl in Hthr.
      inversion Hthr; subst.
      rewrite admits_lock_free in Hadm by assumption.
      destruct (IH g s1 more Hadm H1 Hfree) as (s' & -> & Hs').
      * intros g' Hg'. specialize (Hothers g' Hg'). simpl in Hothers.
        apply Nat.eqb_neq in Hg'. now rewrite Hg' in Hothers.
      * exists s'. split; [reflexivity|exact Hs'].
    + specialize (Hothers g1 Hne). simpl in Hothers.
      rewrite Nat.eqb_refl in Hothers.
      destruct Hothers as [H|[rest H]]; [discriminate|].
      inversion H; subst. discriminate.
Qed.

Lemma serialized_by_length n :
  forall (s : schedule) (calls : nat -> list (list event)),
    (List.length s <= n)%nat ->
    (forall g, Forall critical (calls g)) ->
    (forall g, thread g s = List.concat (calls g)) ->
    admits false s = true ->
    exists blocks,
      s = serial blocks /\ forall g, calls_of g blocks = calls g.
Proof.
  induction n as [|n IH]; intros s calls Hlen Hcrit Hthr Hadm.
  - destruct s; [|simpl in Hlen; lia].
    exists []. split; [reflexivity|]. intros g.
    specialize (Hthr g). specialize (Hcrit g). simpl in Hthr.
    destruct Hcrit as [|log logs (body & -> & _) _]; [reflexivity|discriminate].
  - destruct s as [|[g e] s1].
    + exists []. split; [reflexivity|]. intros g.
      specialize (Hthr g). specialize (Hcrit g). simpl in Hthr.
      destruct Hcrit as [|log logs (body & -> & _) _]; [reflexivity|discriminate].
    + pose proof (Hthr g) as Hg. simpl in Hg. rewrite Nat.eqb_refl in Hg.
      pose proof (Hcrit g) as Hcg.
      destruct (calls g) as [|log rest] eqn:Hcalls; [discriminate|].
      apply Forall_cons_iff in Hcg.
      destruct Hcg as [(body & -> & Hfree) Hrest].
      simpl in Hg. injection Hg as -> Hg1.
      rewrite <- app_assoc in Hg1. simpl in Hg1.
      simpl in Hadm.
      assert (Hothers : forall g', g' <> g -> waiting (thread g' s1)).
      { intros g' Hg'. specialize (Hthr g'). simpl in Hthr.
        apply Nat.eqb_neq in Hg'. rewrite Hg' in Hthr. rewrite Hthr.
        apply concat_critical_waiting. apply Hcrit. }
      destruct (@holder_runs_alone body g s1 (List.concat rest)
                  Hadm Hg1 Hfree Hothers) as (s' & -> & Hs').
      set (calls' := fun x => if Nat.eqb x g then rest else calls x).
      destruct (IH s' calls') as (blocks & Hser & Hcalls').
      * simpl in Hlen. rewrite length_app in Hlen. lia.
      * intros x. unfold calls'.
        destruct (Nat.eqb x g); [exact Hrest|apply Hcrit].
      * intros x. unfold calls'. destruct (Nat.eqb x g) eqn:Hx.
        -- apply Nat.eqb_eq in Hx. subst x.
           rewrite thread_block_same in Hg1.
           rewrite <- app_assoc in Hg1. simpl in Hg1.
           apply app_inv_head in Hg1. now injection Hg1.
        -- specialize (Hthr x). simpl in Hthr. rewrite Hx in Hthr.
           apply Nat.eqb_neq in Hx.
           rewrite thread_block_other in Hthr by assumption. exact Hthr.
      * exact Hs'.
      * exists ((g, EvLock :: body ++ [EvUnlock]) :: blocks). split.
        -- rewrite Hser. reflexivity.
        -- intros x. unfold calls_of. simpl.
           specialize (Hcalls' x). unfold calls', calls_of in Hcalls'.
           destruct (Nat.eqb x g) eqn:Hx.
           ++ apply Nat.eqb_eq in Hx. subst x. simpl.
              now rewrite Hcalls', Hcalls.
           ++ exact Hcalls'.
Qed.

End Serialization.

(** ** The number in the node's sentence *)

Section ExtractedNumber.
Import Go Pattern Sentence.
Local Open Scope string_scope.
Local Open Scope Z_scope.

Lemma digit_has_value c : digit c = true -> exists d, digit_value c = Some d /\ 0 <= d <= 9.
Proof.
  unfold digit, digit_value. intros H.
  apply andb_true_iff in H. destruct H as [H1 H2].
  apply N.leb_le in H1. apply N.leb_le in H2.
  assert (E1 : (48 <=? Z.of_N (N_of_ascii c)) = true) by (apply Z.leb_le; lia).
  assert (E2 : (Z.of_N (N_of_ascii c) <=? 57) = true) by (apply Z.leb_le; lia).
  rewrite E1, E2. simpl. eexists. split; [reflexivity|lia].
Qed.

Lemma decimal_nonneg s : 0 <= decimal s.
Proof.
  induction s as [|c s IH]; simpl; [lia|].
  destruct (digit_value c) as [d|] eqn:D; [|exact IH].
  apply digit_value_range in D.
  assert (0 <= 10 ^ Z.of_nat (String.length s)) by (apply Z.pow_nonneg; lia).
  nia.
Qed.

Lemma ParseUint_loop_value s :
  forall n,
    all_chars digit s = true ->
    0 <= n <= maxUint64 ->
    fst (ParseUint_loop s n)
    = saturated (n * 10 ^ Z.of_nat (String.length s) + decimal s).
Proof.
  unfold saturated.
  induction s as [|c s IH]; intros n Hall Hn.
  - simpl. rewrite Z.mul_1_r, Z.add_0_r. symmetry. apply Z.min_l. lia.
  - cbn [all_chars] in Hall. apply andb_true_iff in Hall. destruct Hall as [Hc Hall].
    destruct (digit_has_value c Hc) as (d & Hd & Hdr).
    cbn [ParseUint_loop decimal String.length]. rewrite Hd.
    rewrite Nat2Z.inj_succ, Z.pow_succ_r by lia.
    pose proof (decimal_nonneg s) as Hs.
    assert (Hp : 1 <= 10 ^ Z.of_nat (String.length s))
      by (pose proof (Z.pow_pos_nonneg 10 (Z.of_nat (String.length s))); lia).
    pose proof maxUint64_value as M.
    replace (maxUint64 / 10 + 1) with 1844674407370955162 by (rewrite M; reflexivity).
    destruct (1844674407370955162 <=? n) eqn:Hcut.
    + apply Z.leb_le in Hcut. cbn [fst]. symmetry. apply Z.min_r. nia.
    + apply Z.leb_gt in Hcut.
      destruct (maxUint64 <? n * 10 + d) eqn:Hov.
      * apply Z.ltb_lt in Hov. cbn [fst]. symmetry. apply Z.min_r. nia.
      * apply Z.ltb_ge in Hov.
        rewrite IH; [|exact Hall|lia].
        f_equal. ring.
Qed.

Lemma ParseUint_value s :
  is_number s -> fst (ParseUint s) = saturated (decimal s).
Proof.
  intros [Hne Hall]. destruct s as [|c s]; [congruence|].
  unfold ParseUint. rewrite ParseUint_loop_value; auto.
  rewrite maxUint64_value. lia.
Qed.


Lemma digit_is_not_a c : digit c = true -> Ascii.eqb "a" c = false.
Proof.
  intros H. destruct (Ascii.eqb_spec "a"%char c) as [<-|]; [|reflexivity].
  vm_compute in H. discriminate.
Qed.

Lemma occurs_after_digits n rest :
  all_chars digit n = true ->
  occurs expected_literal (n ++ rest) = occurs expected_literal rest.
Proof.
  induction n as [|c n IH]; intros Hall; [reflexivity|].
  cbn [all_chars] in Hall. apply andb_true_iff in Hall. destruct Hall as [Hc Hall].
  change (String c n ++ rest) with (String c (n ++ rest)).
  unfold expected_literal in *. cbn [occurs strip_prefix].
  rewrite (@digit_is_not_a c Hc). now apply IH.
Qed.

(** The words of the sentence start nowhere inside the sentence. *)
Lemma occurs_inside_sentence n got post :
  all_chars digit n = true ->
  all_chars digit got = true ->
  occurs expected_literal post = false ->
  exists rest,
    mismatch_sentence n got ++ post = String "a" rest
    /\ occurs expected_literal rest = false.
Proof.
  intros Hn Hg Hpost. unfold mismatch_sentence.
  eexists. split.
  - repeat (progress (rewrite ?append_assoc; cbn [append])). reflexivity.
  - unfold expected_literal at 1.
    cbn [occurs strip_prefix Ascii.eqb Bool.eqb].
    fold expected_literal. rewrite occurs_after_digits by exact Hn.
    unfold expected_literal at 1.
    cbn [append occurs strip_prefix Ascii.eqb Bool.eqb].
    fold expected_literal. rewrite occurs_after_digits by exact Hg.
    unfold expected_literal at 1.
    cbn [append occurs strip_prefix Ascii.eqb Bool.eqb].
    exact Hpost.
Qed.

Lemma occurs_here lit s : occurs lit s = false -> strip_prefix lit s = None.
Proof. destruct s; simpl; destruct (strip_prefix lit _); congruence. Qed.

Lemma occurs_later lit c s : occurs lit (String c s) = false -> occurs lit s = false.
Proof. cbn [occurs]. destruct (strip_prefix lit (String c s)); congruence. Qed.

Lemma no_words_no_match re' t :
  occurs expected_literal t = false ->
  match_here (Literal expected_literal :: re') t = None.
Proof. intros H. cbn [match_here]. now rewrite (@occurs_here _ _ H). Qed.

Lemma no_words_no_prefix re' t :
  occurs expected_literal t = false ->
  plus_greedy any_char (match_here (Literal expected_literal :: re')) t = None.
Proof.
  induction t as [|c t IH]; intros H; [reflexivity|].
  pose proof (@occurs_later _ _ _ H) as Ht.
  cbn [plus_greedy]. rewrite (IH Ht), (@no_words_no_match re' _ Ht).
  now destruct (any_char c).
Qed.

Lemma no_words_no_prefix_after re' c t :
  occurs expected_literal t = false ->
  plus_greedy any_char (match_here (Literal expected_literal :: re')) (String c t)
  = None.
Proof.
  intros H. cbn [plus_greedy].
  rewrite (@no_words_no_prefix re' _ H), (@no_words_no_match re' _ H).
  now destruct (any_char c).
Qed.

(** A greedy repetition that cannot go on after [pre] takes [pre]. *)
Lemma plus_greedy_stops R class (k : string -> option R) pre rest r :
  pre <> EmptyString ->
  all_chars class pre = true ->
  plus_greedy class k rest = None ->
  k rest = Some r ->
  plus_greedy class k (pre ++ rest) = Some (pre, r).
Proof.
  intros Hne Hall Hstop Hk.
  induction pre as [|c pre IH]; [congruence|].
  cbn [all_chars] in Hall. apply andb_true_iff in Hall. destruct Hall as [Hc Hall].
  change (String c pre ++ rest) with (String c (pre ++ rest)).
  cbn [plus_greedy]. rewrite Hc.
  destruct pre as [|c' pre'].
  - cbn [append]. now rewrite Hstop, Hk.
  - rewrite IH; [reflexivity | discriminate | exact Hall].
Qed.

(** The last [.+] of the pattern takes what is left of the line. *)
Lemma plus_greedy_to_the_end class s :
  begins class s = true ->
  exists t, plus_greedy class (match_here []) s = Some (t, (EmptyString, [])).
Proof.
  induction s as [|c s IH]; intros H; [discriminate|].
  cbn [begins] in H. cbn [plus_greedy]. rewrite H.
  destruct s as [|c' s'].
  - eexists. reflexivity.
  - destruct (class c') eqn:Hc'.
    + destruct IH as [t Ht]; [exact Hc'|]. rewrite Ht. eexists. reflexivity.
    + cbn [plus_greedy]. rewrite Hc'. eexists. reflexivity.
Qed.

Lemma strip_prefix_append lit rest : strip_prefix lit (lit ++ rest) = Some rest.
Proof.
  induction lit as [|a lit IH]; [now destruct rest|].
  cbn [append strip_prefix]. now rewrite Ascii.eqb_refl.
Qed.

Lemma match_here_literal lit re' rest :
  match_here (Literal lit :: re') (lit ++ rest)
  = match match_here re' rest with
    | Some (m, caps) => Some (lit ++ m, caps)
    | None => None
    end.
Proof. cbn [match_here]. now rewrite strip_prefix_append. Qed.

Lemma match_here_repeat class re' pre rest m caps :
  pre <> EmptyString ->
  all_chars class pre = true ->
  plus_greedy class (match_here re') rest = None ->
  match_here re' rest = Some (m, caps) ->
  match_here (OneOrMore class :: re') (pre ++ rest) = Some (pre ++ m, caps)
  /\ match_here (Capture class :: re') (pre ++ rest) = Some (pre ++ m, pre :: caps).
Proof.
  intros Hne Hall Hstop Hk. cbn [match_here].
  now rewrite (@plus_greedy_stops _ class (match_here re') pre rest (m, caps)
                                  Hne Hall Hstop Hk).
Qed.

(** The sentence is matched where it stands. *)
Lemma sentence_matches n got post :
  is_number n -> is_number got ->
  begins any_char post = true ->
  exists m,
    match_here (tl accountSequenceMismatchErrorRegExp)
               (mismatch_sentence n got ++ post)
    = Some (m, [n]).
Proof.
  intros [Hn0 Hn] [Hg0 Hg] Hpost.
  destruct (@plus_greedy_to_the_end any_char post Hpost) as [t Ht].
  assert (A4 : match_here [OneOrMore any_char] post = Some (t ++ "", []))
    by (cbn [match_here] in *; now rewrite Ht).
  assert (A3 : match_here [Literal ":"; OneOrMore any_char] (":" ++ post)
               = Some (":" ++ t ++ "", []))
    by (now rewrite match_here_literal, A4).
  assert (A2 : match_here [OneOrMore digit; Literal ":"; OneOrMore any_char]
                          (got ++ ":" ++ post)
               = Some (got ++ ":" ++ t ++ "", []))
    by (apply match_here_repeat; auto).
  assert (A1 : match_here [Literal ", got "; OneOrMore digit; Literal ":";
                           OneOrMore any_char]
                          (", got " ++ got ++ ":" ++ post)
               = Some (", got " ++ got ++ ":" ++ t ++ "", []))
    by (now rewrite match_here_literal, A2).
  assert (A0 : match_here [Capture digit; Literal ", got "; OneOrMore digit;
                           Literal ":"; OneOrMore any_char]
                          (n ++ ", got " ++ got ++ ":" ++ post)
               = Some (n ++ ", got " ++ got ++ ":" ++ t ++ "", [n]))
    by (apply match_here_repeat; auto).
  unfold mismatch_sentence, accountSequenceMismatchErrorRegExp.
  cbn [tl].
  replace (("account sequence mismatch, expected " ++ n ++ ", got " ++ got ++ ":") ++ post)
    with ("account sequence mismatch, expected " ++ (n ++ (", got " ++ (got ++ (":" ++ post)))))
    by (repeat (progress (rewrite ?append_assoc; cbn [append])); reflexivity).
  rewrite match_here_literal, A0. eexists. reflexivity.
Qed.

(** With something before it on its line, the last sentence of the text is
    the one that is read. *)
Lemma sentence_is_found pre n got post :
  pre <> EmptyString ->
  all_chars any_char pre = true ->
  is_number n -> is_number got ->
  begins any_char post = true ->
  occurs expected_literal post = false ->
  exists m,
    FindStringSubmatch accountSequenceMismatchErrorRegExp
                       (pre ++ mismatch_sentence n got ++ post)
    = [m; n].
Proof.
  intros Hne Hall Hn Hg Hb Hpost.
  destruct (@sentence_matches n got post Hn Hg Hb) as [m Hm].
  destruct (@occurs_inside_sentence n got post (proj2 Hn) (proj2 Hg) Hpost)
    as (rest & Hrest & Hfree).
  exists (pre ++ m).
  apply FindStringSubmatch_hit.
  apply (@match_here_repeat any_char (tl accountSequenceMismatchErrorRegExp)
           pre (mismatch_sentence n got ++ post) m [n]); auto.
  rewrite Hrest.
  exact (@no_words_no_prefix_after (tl (tl accountSequenceMismatchErrorRegExp))
           "a"%char rest Hfree).
Qed.

Lemma getNextSequence_of_match m n s :
  FindStringSubmatch accountSequenceMismatchErrorRegExp s = [m; n] ->
  getNextSequence s = fst (ParseUint n).
Proof.
  intros H. unfold getNextSequence. rewrite H. cbn [List.length Nat.eqb negb nth].
  now destruct (ParseUint n).
Qed.


Lemma sentence_is_found_value pre n got post :
  pre <> EmptyString ->
  all_chars any_char pre = true ->
  is_number n -> is_number got ->
  begins any_char post = true ->
  occurs expected_literal post = false ->
  getNextSequence (pre ++ mismatch_sentence n got ++ post)
  = saturated (decimal n).
Proof.
  intros Hne Hall Hn Hg Hb Hpost.
  destruct (@sentence_is_found pre n got post Hne Hall Hn Hg Hb Hpost) as [m Hm].
  rewrite (@getNextSequence_of_match m n _ Hm).
  now apply ParseUint_value.
Qed.

(** A match of the pattern lies on one line. *)
Lemma match_here_on_one_line s m caps :
  match_here accountSequenceMismatchErrorRegExp s = Some (m, caps) ->
  exists before n got after rest,
    is_number n /\ is_number got
    /\ caps = [n]
    /\ (before <> EmptyString /\ all_chars any_char before = true)
    /\ (after <> EmptyString /\ all_chars any_char after = true)
    /\ m = before ++ mismatch_sentence n got ++ after
    /\ s = m ++ rest.
Proof.
  unfold accountSequenceMismatchErrorRegExp, mismatch_sentence.
  cbn [match_here]. intros H.
  destruct (plus_greedy any_char _ s) as [[t1 [m1 c1]]|] eqn:P1; [|discriminate].
  inversion H; subst m caps; clear H.
  apply plus_greedy_sound in P1. destruct P1 as (s1 & -> & K1 & Hne1 & Hline1).
  destruct (strip_prefix _ s1) as [s2|] eqn:L1; [|discriminate].
  apply strip_prefix_sound in L1; subst s1.
  destruct (plus_greedy digit _ s2) as [[n [m2 c2]]|] eqn:P2; [|discriminate].
  inversion K1; subst m1 c1; clear K1.
  apply plus_greedy_sound in P2. destruct P2 as (s3 & -> & K2 & Hn & Hnd).
  destruct (strip_prefix _ s3) as [s4|] eqn:L2; [|discriminate].
  apply strip_prefix_sound in L2; subst s3.
  destruct (plus_greedy digit _ s4) as [[g [m3 c3]]|] eqn:P3; [|discriminate].
  inversion K2; subst m2 c2; clear K2.
  apply plus_greedy_sound in P3. destruct P3 as (s5 & -> & K3 & Hg & Hgd).
  destruct (strip_prefix _ s5) as [s6|] eqn:L3; [|discriminate].
  apply strip_prefix_sound in L3; subst s5.
  destruct (plus_greedy any_char _ s6) as [[t4 [m4 c4]]|] eqn:P4; [|discriminate].
  inversion K3; subst m3 c3; clear K3.
  apply plus_greedy_sound in P4. destruct P4 as (s7 & -> & K4 & Hne4 & Hline4).
  inversion K4; subst m4 c4; clear K4.
  exists t1, n, g, t4, s7.
  repeat split; auto.
  all: rewrite append_empty_r.
  all: repeat (progress (rewrite ?append_assoc; simpl)); reflexivity.
Qed.

Lemma FindStringSubmatch_found re s x found :
  FindStringSubmatch re s = x :: found ->
  exists skipped rest,
    s = skipped ++ rest /\ match_here re rest = Some (x, found).
Proof.
  induction s as [|c s IH]; cbn [FindStringSubmatch].
  - destruct (match_here re "") as [[m caps]|] eqn:Hm; [|discriminate].
    intros H; inversion H; subst. now exists "", "".
  - destruct (match_here re (String c s)) as [[m caps]|] eqn:Hm.
    + intros H; inversion H; subst. now exists "", (String c s).
    + intros H. destruct (IH H) as (skipped & rest & -> & Hr).
      now exists (String c skipped), rest.
Qed.


Lemma no_match_from c t :
  occurs expected_literal t = false ->
  match_here accountSequenceMismatchErrorRegExp (String c t) = None.
Proof.
  intros H.
  change (match_here accountSequenceMismatchErrorRegExp (String c t))
    with (match plus_greedy any_char
                  (match_here (Literal expected_literal
                                 :: tl (tl accountSequenceMismatchErrorRegExp)))
                  (String c t)
          with
          | Some (t0, (m, caps)) => Some (t0 ++ m, caps)
          | None => None
          end).
  now rewrite no_words_no_prefix_after.
Qed.

(** Where the words of the sentence start at the first character only,
    nothing is found. *)
Lemma no_words_nothing_found t :
  forall c,
    occurs expected_literal t = false ->
    FindStringSubmatch accountSequenceMismatchErrorRegExp (String c t) = [].
Proof.
  induction t as [|c' t IH]; intros c H.
  - cbn [FindStringSubmatch]. now rewrite (@no_match_from c _ H).
  - cbn [FindStringSubmatch]. rewrite (@no_match_from c _ H).
    apply IH. exact (@occurs_later _ _ _ H).
Qed.

Lemma sentence_at_the_start n got post :
  is_number n -> is_number got ->
  occurs expected_literal post = false ->
  getNextSequence (mismatch_sentence n got ++ post) = 0
  /\ getNextSequence (String "010" (mismatch_sentence n got ++ post)) = 0.
Proof.
  intros Hn Hg Hpost.
  destruct (@occurs_inside_sentence n got post (proj2 Hn) (proj2 Hg) Hpost)
    as (rest & Hrest & Hfree).
  assert (Hnone : FindStringSubmatch accountSequenceMismatchErrorRegExp
                    (mismatch_sentence n got ++ post) = [])
    by (rewrite Hrest; now apply no_words_nothing_found).
  split.
  - unfold getNextSequence. now rewrite Hnone.
  - unfold getNextSequence.
    change (FindStringSubmatch accountSequenceMismatchErrorRegExp
              (String "010" (mismatch_sentence n got ++ post)))
      with (FindStringSubmatch accountSequenceMismatchErrorRegExp
              (mismatch_sentence n got ++ post)).
    now rewrite Hnone.
Qed.

End ExtractedNumber.

(** ** The calls of one [Broadcast] *)

Section Calls.
Import Go Sdk Blockchain Trace Passes Pipeline.
Context {W Msg Tx : Type} (sdk : Collaborators W Msg Tx).

Arguments getNextSequence : simpl never.
Arguments uint64_add : simpl never.
Arguments Z.eqb : simpl never.

Ltac cut_pass H :=
  repeat match type of H with
         | context [match ?x with _ => _ end] => destruct x eqn:?
         end;
  inversion H; subst; clear H.

Lemma submit_pass_log msgs b txf2 w1 w2 evs e :
  submit_pass sdk msgs b txf2 w1 = (w2, evs, e) -> submission txf2 evs.
Proof.
  intros H. unfold submit_pass in H. cut_pass H; constructor.
Qed.

Lemma pass_log msgs memo b w w1 evs e :
  pass sdk msgs memo b w = (w1, evs, e) -> attempt (prepared b memo) evs.
Proof.
  unfold pass. cbv zeta. fold (prepared b memo).
  set (f := prepared b memo). clearbody f. intros H.
  destruct (Gas f =? 0) eqn:G.
  - apply Z.eqb_eq in G.
    destruct (CalculateGas sdk w f msgs) as [w' [gas|err]].
    + destruct (submit_pass sdk msgs b (WithGas f gas) w')
        as [[w2 evs'] e'] eqn:Hsub.
      inversion H; subst; clear H.
      apply attempt_estimated; [exact G|]. now apply submit_pass_log in Hsub.
    + inversion H; subst; clear H. now apply attempt_gas_failure.
  - apply Z.eqb_neq in G. apply attempt_fixed_gas; [exact G|].
    now apply submit_pass_log in H.
Qed.

(** A call is one pass, or two passes around the recursive call. *)
Lemma broadcast_passes msgs memo b w :
  let r := broadcast sdk false msgs memo b w in
  (exists w1 evs b' res,
      pass sdk msgs memo b w = (w1, evs, Returns b' res)
      /\ r = mkRun b' w1 (EvLock :: evs ++ [EvUnlock]) res)
  \/ (exists w1 evs text err w2 evs2 e2,
         pass sdk msgs memo b w = (w1, evs, Fails text err)
         /\ pass sdk msgs memo (corrected b text) w1 = (w2, evs2, e2)
         /\ r = mkRun (ending_receiver (corrected b text) e2) w2
                      (EvLock :: evs ++ EvRetry :: evs2 ++ [EvUnlock])
                      (ending_result e2)).
Proof.
  intros r. subst r. rewrite broadcast_by_pass.
  destruct (pass sdk msgs memo b w) as [[w1 evs] e] eqn:Hp.
  destruct e as [b' res | text err]; cbn [after_pass].
  - left. now exists w1, evs, b', res.
  - right. rewrite broadcast_by_pass.
    destruct (pass sdk msgs memo (corrected b text) w1) as [[w2 evs2] e2] eqn:Hp2.
    exists w1, evs, text, err, w2, evs2, e2.
    split; [reflexivity|]. split; [exact Hp2|].
    unfold locked, logged, after_pass.
    destruct e2; simpl; rewrite <- !app_assoc; reflexivity.
Qed.

Lemma pass_fails_text msgs memo b w w1 evs text err :
  pass sdk msgs memo b w = (w1, evs, Fails text err) ->
  failure_text evs = Some text.
Proof.
  intros H. apply pass_ok in H. destruct H as [Hspec _].
  inversion Hspec; subst; assumption.
Qed.

Lemma Broadcast_call_log msgs memo b w :
  call_log b memo (events (Broadcast sdk msgs memo b w)).
Proof.
  rewrite Broadcast_events.
  destruct (broadcast_passes msgs memo b w)
    as [(w1 & evs & b' & res & Hp & ->)
       |(w1 & evs & text & err & w2 & evs2 & e2 & Hp & Hp2 & ->)];
    cbn [events].
  - apply call_once. now apply pass_log in Hp.
  - apply call_twice with (text := text).
    + now apply pass_log in Hp.
    + now apply pass_fails_text in Hp.
    + now apply pass_log in Hp2.
Qed.


Lemma factories_app evs1 evs2 :
  factories (evs1 ++ evs2) = (factories evs1 ++ factories evs2)%list.
Proof.
  induction evs1 as [|e evs1 IH]; simpl; [reflexivity|].
  destruct (factory_of e); simpl; now rewrite IH.
Qed.

Lemma simulations_app evs1 evs2 :
  simulations (evs1 ++ evs2) = (simulations evs1 ++ simulations evs2)%list.
Proof.
  induction evs1 as [|e evs1 IH]; simpl; [reflexivity|].
  destruct e; simpl; now rewrite IH.
Qed.

Lemma estimated_app evs1 evs2 :
  estimated (evs1 ++ evs2) = (estimated evs1 ++ estimated evs2)%list.
Proof.
  induction evs1 as [|e evs1 IH]; simpl; [reflexivity|].
  destruct e as [| | |f [gas|err]| | | |]; simpl; now rewrite IH.
Qed.

Lemma built_app evs1 evs2 :
  built (evs1 ++ evs2) = (built evs1 ++ built evs2)%list.
Proof.
  induction evs1 as [|e evs1 IH]; simpl; [reflexivity|].
  destruct e; simpl; now rewrite IH.
Qed.

(** The receiver that a failure text corrects differs in its sequence
    only. *)
Lemma corrected_frame b text :
  ctx (corrected b text) = ctx b
  /\ txf (corrected b text)
     = WithSequence (txf b) (Sequence (txf (corrected b text))).
Proof.
  unfold corrected. destruct (negb _); cbn; split; try reflexivity.
  now destruct (txf b).
Qed.

Lemma prepared_corrected b text memo :
  prepared (corrected b text) memo
  = WithSequence (prepared b memo) (Sequence (txf (corrected b text))).
Proof.
  destruct (corrected_frame b text) as [_ H]. unfold prepared. rewrite H.
  cbn [WithMemo WithSequence GasAdjustment AccountNumber Sequence Gas Memo Fees].
  now destruct (PrimFloat.eqb _ _).
Qed.

Lemma attempt_factories f evs :
  attempt f evs ->
  Forall (fun f' => WithGas f' (Gas f) = f) (factories evs).
Proof.
  intros H. inversion H as [evs' G S|err G|gas evs' G S]; subst.
  - inversion S; subst; cbn; repeat constructor; now destruct f.
  - cbn. repeat constructor; now destruct f.
  - inversion S; subst; cbn; repeat constructor; now destruct f.
Qed.

Lemma prepared_carries b memo f :
  WithGas f (Gas (prepared b memo)) = prepared b memo ->
  carries b memo f /\ Sequence f = Sequence (txf b).
Proof.
  unfold carries, prepared. intros H.
  destruct f as [num seq gas adj m fees], (txf b) as [num0 seq0 gas0 adj0 m0 fees0].
  cbn in *. destruct (PrimFloat.eqb adj0 0); cbn in H; inversion H; subst; auto.
Qed.

Lemma attempt_fixed_gas_log f evs :
  attempt f evs -> Gas f <> 0 ->
  simulations evs = [] /\ Forall (fun f' => Gas f' = Gas f) (factories evs).
Proof.
  intros H G. inversion H as [evs' G' S|err G'|gas evs' G' S]; subst;
    try contradiction.
  inversion S; subst; cbn; split; repeat constructor.
Qed.

Lemma attempt_estimated_log f evs :
  attempt f evs -> Gas f = 0 ->
  map Gas (built evs) = estimated evs
  /\ List.length (simulations evs) = 1%nat.
Proof.
  intros H G. inversion H as [evs' G' S|err G'|gas evs' G' S]; subst;
    try contradiction.
  - now split.
  - inversion S; subst; cbn; split; reflexivity.
Qed.


Lemma carries_corrected b text memo f :
  carries (corrected b text) memo f -> carries b memo f.
Proof.
  destruct (corrected_frame b text) as [_ H]. unfold carries. rewrite H.
  now cbn [WithSequence GasAdjustment AccountNumber Fees].
Qed.

Lemma attempt_carries b memo evs :
  attempt (prepared b memo) evs ->
  Forall (fun f => carries b memo f /\ Sequence f = Sequence (txf b))
         (factories evs).
Proof.
  intros H. apply attempt_factories in H.
  eapply Forall_impl; [|exact H].
  intros f Hf. now apply prepared_carries.
Qed.

Lemma prepared_gas b memo : Gas (prepared b memo) = Gas (txf b).
Proof. unfold prepared. now destruct (PrimFloat.eqb _ _). Qed.

Lemma corrected_gas b text : Gas (txf (corrected b text)) = Gas (txf b).
Proof. unfold corrected. now destruct (negb _). Qed.

Lemma Broadcast_carries msgs memo b w :
  Forall (carries b memo) (factories (events (Broadcast sdk msgs memo b w))).
Proof.
  destruct (Broadcast_call_log msgs memo b w) as [evs H|evs text evs2 H _ H2].
  - apply attempt_carries in H.
    cbn [factories factory_of]. rewrite factories_app. cbn. rewrite app_nil_r.
    eapply Forall_impl; [|exact H]. now intros f [Hf _].
  - apply attempt_carries in H. apply attempt_carries in H2.
    cbn [factories factory_of]. rewrite factories_app. cbn [factories factory_of].
    rewrite factories_app. cbn. rewrite app_nil_r.
    apply Forall_app. split.
    + eapply Forall_impl; [|exact H]. now intros f [Hf _].
    + eapply Forall_impl; [|exact H2]. intros f [Hf _].
      now apply carries_corrected in Hf.
Qed.

Lemma Broadcast_fixed_gas msgs memo b w :
  Gas (txf b) <> 0 ->
  simulations (events (Broadcast sdk msgs memo b w)) = []
  /\ Forall (fun f => Gas f = Gas (txf b))
            (factories (events (Broadcast sdk msgs memo b w))).
Proof.
  intros G.
  destruct (Broadcast_call_log msgs memo b w) as [evs H|evs text evs2 H _ H2].
  - apply attempt_fixed_gas_log in H; [|now rewrite prepared_gas].
    destruct H as [Hs Hf]. rewrite prepared_gas in Hf.
    cbn [simulations factories factory_of].
    rewrite simulations_app, factories_app, Hs. cbn. rewrite app_nil_r.
    now split.
  - apply attempt_fixed_gas_log in H; [|now rewrite prepared_gas].
    apply attempt_fixed_gas_log in H2;
      [|now rewrite prepared_gas, corrected_gas].
    destruct H as [Hs Hf]. destruct H2 as [Hs2 Hf2].
    rewrite prepared_gas in Hf. rewrite prepared_gas, corrected_gas in Hf2.
    cbn [simulations factories factory_of].
    rewrite simulations_app, factories_app, Hs.
    cbn [simulations factories factory_of].
    rewrite simulations_app, factories_app, Hs2. cbn. rewrite app_nil_r.
    split; [reflexivity|]. now apply Forall_app.
Qed.

Lemma Broadcast_estimated_gas msgs memo b w :
  Gas (txf b) = 0 ->
  let evs := events (Broadcast sdk msgs memo b w) in
  map Gas (built evs) = estimated evs
  /\ List.length (simulations evs) = S (retries evs).
Proof.
  intros G evs. subst evs.
  destruct (Broadcast_call_log msgs memo b w) as [evs H|evs text evs2 H _ H2].
  - assert (Hr : retries evs = 0%nat).
    { inversion H as [evs' G' S|err G'|gas evs' G' S]; subst;
        try inversion S; subst; reflexivity. }
    apply attempt_estimated_log in H; [|now rewrite prepared_gas].
    destruct H as [Hb Hs].
    cbn [built estimated simulations retries].
    rewrite built_app, estimated_app, simulations_app, retries_app, Hr.
    cbn. rewrite !app_nil_r. now split.
  - assert (Hr : retries evs = 0%nat).
    { inversion H as [evs' G' S|err G'|gas evs' G' S]; subst;
        try inversion S; subst; reflexivity. }
    assert (Hr2 : retries evs2 = 0%nat).
    { inversion H2 as [evs' G' S|err G'|gas evs' G' S]; subst;
        try inversion S; subst; reflexivity. }
    apply attempt_estimated_log in H; [|now rewrite prepared_gas].
    apply attempt_estimated_log in H2;
      [|now rewrite prepared_gas, corrected_gas].
    destruct H as [Hb Hs]. destruct H2 as [Hb2 Hs2].
    cbn [built estimated simulations retries].
    rewrite built_app, estimated_app, simulations_app, retries_app, Hr.
    cbn [built estimated simulations retries].
    rewrite built_app, estimated_app, simulations_app, retries_app, Hr2.
    cbn. rewrite !app_nil_r, !map_app, !length_app, Hb, Hb2, Hs, Hs2.
    now split.
Qed.


Lemma cons_eq_cons A (x y : A) l l' : x :: l = y :: l' -> x = y /\ l = l'.
Proof. intros H. now inversion H. Qed.

Lemma sent_in_order_nil : sent_in_order [].
Proof. intros [|e l] ? ? ? H; discriminate. Qed.

Lemma sent_in_order_cons e evs :
  (forall txBytes r, e <> EvBroadcastTx txBytes r) ->
  sent_in_order evs -> sent_in_order (e :: evs).
Proof.
  intros He H [|e' before] txBytes r rest Heq; cbn in Heq.
  - inversion Heq; subst. now elim (He txBytes r).
  - inversion Heq; subst.
    destruct (H before txBytes r rest eq_refl) as (earlier & f & ->).
    now exists (e' :: earlier), f.
Qed.

Lemma sent_in_order_app evs1 evs2 :
  sent_in_order evs1 -> sent_in_order evs2 -> sent_in_order (evs1 ++ evs2).
Proof.
  intros H1 H2 before txBytes r rest Heq.
  apply app_eq_app in Heq. destruct Heq as [l [[-> Heq]|[-> Heq]]].
  - destruct l as [|e l]; cbn in Heq.
    + symmetry in Heq.
      destruct (H2 [] txBytes r rest Heq) as (earlier & f & Hnil).
      now destruct earlier.
    + inversion Heq; subst.
      exact (H1 before txBytes r l eq_refl).
  - destruct (H2 l txBytes r rest Heq) as (earlier & f & ->).
    exists (evs1 ++ earlier)%list, f. now rewrite app_assoc.
Qed.

Lemma sent_in_order_submission f evs :
  submission f evs -> sent_in_order evs.
Proof.
  intros S. inversion S; subst.
  1-3: repeat (apply sent_in_order_cons; [discriminate|]);
    apply sent_in_order_nil.
  intros before txBytes' r' rest Heq.
  do 3 (destruct before as [|? before]; [discriminate|];
        apply cons_eq_cons in Heq; destruct Heq as [<- Heq]).
  destruct before as [|? before].
  - now exists [], f.
  - apply cons_eq_cons in Heq. destruct Heq as [_ Heq]. now destruct before.
Qed.

Lemma sent_in_order_attempt f evs : attempt f evs -> sent_in_order evs.
Proof.
  intros H. inversion H as [evs' G S|err G|gas evs' G S]; subst.
  - now apply sent_in_order_submission in S.
  - apply sent_in_order_cons; [discriminate | apply sent_in_order_nil].
  - apply sent_in_order_cons; [discriminate|].
    now apply sent_in_order_submission in S.
Qed.

Lemma Broadcast_sent_in_order msgs memo b w :
  sent_in_order (events (Broadcast sdk msgs memo b w)).
Proof.
  destruct (Broadcast_call_log msgs memo b w) as [evs H|evs text evs2 H _ H2].
  - apply sent_in_order_cons; [discriminate|].
    apply sent_in_order_app; [now apply sent_in_order_attempt in H|].
    apply sent_in_order_cons; [discriminate | apply sent_in_order_nil].
  - apply sent_in_order_cons; [discriminate|].
    apply sent_in_order_app; [now apply sent_in_order_attempt in H|].
    apply sent_in_order_cons; [discriminate|].
    apply sent_in_order_app; [now apply sent_in_order_attempt in H2|].
    apply sent_in_order_cons; [discriminate | apply sent_in_order_nil].
Qed.


Lemma differs_refl b : differs_in_sequence_only b b.
Proof. split; [reflexivity | now destruct (txf b)]. Qed.

Lemma differs_trans b1 b2 b3 :
  differs_in_sequence_only b1 b2 -> differs_in_sequence_only b2 b3 ->
  differs_in_sequence_only b1 b3.
Proof.
  intros [C1 T1] [C2 T2]. split; [congruence|].
  rewrite T2 at 1. rewrite T1. reflexivity.
Qed.

Lemma differs_set b s :
  differs_in_sequence_only b (set_txf b (WithSequence (txf b) s)).
Proof. split; reflexivity. Qed.

Lemma differs_corrected b text : differs_in_sequence_only b (corrected b text).
Proof. exact (corrected_frame b text). Qed.

Ltac call_cases :=
  intros;
  repeat match goal with
         | x := _ |- _ => subst x
         end;
  match goal with
  | |- context [broadcast sdk ?i ?m ?mm ?b ?w] =>
      let Hrun := fresh "Hrun" in
      let r := fresh "r" in
      let Hr := fresh "Hr" in
      pose proof (broadcast_run_of sdk i m mm b w) as Hrun;
      remember (broadcast sdk i m mm b w) as r eqn:Hr;
      clear Hr;
      repeat match goal with
             | H : context [r] |- _ =>
                 lazymatch H with Hrun => fail | _ => revert H end
             end;
      inversion Hrun; subst; clear Hrun
  end;
  repeat match goal with
         | H : pass_log_ok _ _ |- _ => destruct H as (? & ? & ? & ?)
         end;
  repeat match goal with
         | H : pass_spec _ _ _ _ |- _ => inversion H; subst; clear H
         end;
  try match goal with
      | |- context [locked ?i _] => is_var i; destruct i
      end;
  cbn [locked events ret after world ending_receiver ending_result];
  rewrite ?stage_failure_locked, ?failure_text_locked,
    ?attempt_response_locked by assumption;
  repeat match goal with
         | H : stage_failure ?l = _ |- context [stage_failure ?l] => rewrite H
         | H : failure_text ?l = _ |- context [failure_text ?l] => rewrite H
         | H : attempt_response ?l = _ |- context [attempt_response ?l] =>
             rewrite H
         end;
  intros.

Ltac same_values :=
  repeat match goal with
         | H : Some _ = Some _ |- _ => inversion H; subst; clear H
         | H : inl _ = inl _ |- _ => inversion H; subst; clear H
         | H : inr _ = inr _ |- _ => inversion H; subst; clear H
         | H : _ :: _ = _ :: _ |- _ => inversion H; subst; clear H
         end.

Ltac sent_so_far :=
  cbn [send_results app];
  rewrite ?send_results_app;
  cbn [send_results app];
  rewrite ?send_results_app;
  cbn [send_results app];
  repeat match goal with
         | H : send_results ?l = _ |- _ => rewrite H
         end;
  cbn [app]; rewrite ?app_nil_r.

Lemma broadcast_frame isRetry msgs memo b w :
  differs_in_sequence_only b (after (broadcast sdk isRetry msgs memo b w)).
Proof.
  call_cases.
  all: try apply differs_refl; try apply differs_set;
    try apply differs_corrected.
  all: eapply differs_trans; [apply differs_corrected | apply differs_set].
Qed.

Lemma broadcast_success msgs memo b w resp :
  let r := broadcast sdk false msgs memo b w in
  ret r = inl resp ->
  Code resp = 0
  /\ exists earlier,
      send_results (events r) = (earlier ++ [inl resp])%list
      /\ Forall (fun x => exists r1, x = inl r1 /\ rejected r1 = true) earlier.
Proof.
  call_cases.
  all: try discriminate.
  all: same_values.
  all: split; [assumption|]; sent_so_far.
  - now exists [].
  - now exists [].
  - eexists [_]. split; [reflexivity|]. repeat constructor. eauto.
Qed.

Lemma broadcast_sentinel msgs memo b w err :
  let r := broadcast sdk false msgs memo b w in
  ret r = inr err ->
  Is_mempool err = true ->
  exists earlier resp,
    send_results (events r) = (earlier ++ [inl resp])%list
    /\ Code resp = ABCICode_ErrTxInMempoolCache.
Proof.
  call_cases.
  all: try discriminate.
  all: same_values.
  all: try discriminate.
  all: sent_so_far.
  all: try (now eexists [], _).
  all: try (eexists [_], _; split; [reflexivity|assumption]).
Qed.


Lemma own_attempt_all evs : retries evs = 0%nat -> own_attempt evs = evs.
Proof.
  induction evs as [|e evs IH]; simpl; [reflexivity|].
  destruct e; simpl; intros H; try discriminate; now rewrite IH.
Qed.

Lemma first_attempt_uses msgs memo b w :
  Forall (uses_sequence (Sequence (txf b)))
         (own_attempt (events (broadcast sdk false msgs memo b w))).
Proof.
  call_cases.
  all: try (rewrite own_attempt_locked by assumption;
            constructor; [exact I | assumption]).
  all: rewrite own_attempt_all
    by (cbn [retries]; rewrite retries_app; cbn [retries]; lia).
  all: constructor; [exact I|]; apply Forall_app; split;
    [assumption | repeat constructor].
Qed.

Lemma Broadcast_each_frame calls :
  forall b w,
    differs_in_sequence_only
      b (receiver_after b (Broadcast_each sdk calls b w)).
Proof.
  induction calls as [|[msgs memo] calls IH]; intros b w.
  - apply differs_refl.
  - cbn [Broadcast_each]. unfold receiver_after. cbn [fold_left].
    fold (receiver_after (after (Broadcast sdk msgs memo b w))
            (Broadcast_each sdk calls (after (Broadcast sdk msgs memo b w))
                            (world (Broadcast sdk msgs memo b w)))).
    eapply differs_trans; [|apply IH].
    rewrite Broadcast_after. apply broadcast_frame.
Qed.

End Calls.

(** ** Construction and status *)

Section StartupFacts.
Import Go Sdk Blockchain.
Context {W Msg Tx Keyring Info Client Coins : Type}.
Context (cs : Startup.Collaborators W Keyring Info Client Coins).
Context (sdk : Sdk.Collaborators W Msg Tx).
Local Open Scope string_scope.
Local Open Scope Z_scope.

(** The broadcaster as it is before [refreshSequence] in [New]. *)
Lemma New_cases cfg w w' res :
  Startup.New cs sdk cfg w = (w', res) ->
  (exists text,
      res = inr (Wrapf "failed to create keyring" (External text))
      \/ res = inr (Wrapf "failed to get account" (External text))
      \/ res = inr (Wrapf "failed to create client" (External text)))
  \/ exists w1 kr w2 acc w3 c,
      Startup.keyring_New cs w (Startup.KeyringBackend cfg)
                          (Startup.KeyringRootDir cfg)
                          (Startup.KeyringPromptInput cfg) = (w1, inl kr)
      /\ Startup.Key cs w1 kr (Startup.From cfg) = (w2, inl acc)
      /\ Startup.NewClientFromNode cs w2 (Startup.NodeURI cfg) = (w3, inl c)
      /\ let ctx := mkContext (Startup.GetName cs acc) (Startup.GetAddress cs acc) in
         let b0 :=
           mkBroadcaster ctx
             (mkFactory (AccountNumber (Startup.NewFactoryCLI cs ctx))
                        (Sequence (Startup.NewFactoryCLI cs ctx))
                        (Startup.Gas cfg) (Startup.GasAdjust cfg)
                        (Memo (Startup.NewFactoryCLI cs ctx))
                        (Startup.Coins_String cs (Startup.Fees cfg))) in
         let r := refreshSequence sdk b0 w3 in
         w' = world r
         /\ res = match ret r with
                  | Some err => inr (Wrapf "failed to refresh sequence" err)
                  | None => inl (after r)
                  end.
Proof.
  unfold Startup.New. intros H.
  destruct (Startup.keyring_New cs w _ _ _) as [w1 [kr|err]] eqn:H1;
    [|left; exists err; inversion H; auto].
  destruct (Startup.Key cs w1 kr _) as [w2 [acc|err]] eqn:H2;
    [|left; exists err; inversion H; auto].
  destruct (Startup.NewClientFromNode cs w2 _) as [w3 [c|err]] eqn:H3;
    [|left; exists err; inversion H; auto].
  right. exists w1, kr, w2, acc, w3, c.
  split; [reflexivity|]. split; [exact H2|]. split; [exact H3|].
  cbv zeta in *. unfold Startup.WithFees, WithGas, WithGasAdjustment in H.
  cbn [AccountNumber Sequence Gas GasAdjustment Memo Fees] in H.
  match type of H with
  | context [ret ?r] => remember r as run eqn:Hrun
  end.
  clear Hrun. destruct (ret run); inversion H; split; reflexivity.
Qed.

Lemma New_success cfg w w' b :
  Startup.New cs sdk cfg w = (w', inl b) ->
  exists w1 kr w2 acc w3 w4 n s,
    Startup.Key cs w1 kr (Startup.From cfg) = (w2, inl acc)
    /\ EnsureExists sdk w3 (Startup.GetAddress cs acc) = (w4, None)
    /\ GetAccountNumberSequence sdk w4 (Startup.GetAddress cs acc)
       = (w', inl (n, s))
    /\ b = mkBroadcaster
             (mkContext (Startup.GetName cs acc) (Startup.GetAddress cs acc))
             (mkFactory n s (Startup.Gas cfg) (Startup.GasAdjust cfg)
                (Memo (Startup.NewFactoryCLI cs
                         (mkContext (Startup.GetName cs acc)
                                    (Startup.GetAddress cs acc))))
                (Startup.Coins_String cs (Startup.Fees cfg))).
Proof.
  intros H. apply New_cases in H.
  destruct H as [[text [H|[H|H]]]|H]; try discriminate.
  destruct H as (w1 & kr & w2 & acc & w3 & c & _ & Hkey & _ & H).
  cbv zeta in H. destruct H as [-> H].
  unfold refreshSequence, Blockchain.From in *.
  cbn [ctx txf FromAddress] in *.
  destruct (EnsureExists sdk w3 _) as [w4 [err|]] eqn:He;
    cbn [ret world after] in *; [discriminate|].
  destruct (GetAccountNumberSequence sdk w4 _) as [w5 [[n s]|err]] eqn:Hq;
    cbn [ret world after] in *; [|discriminate].
  inversion H; subst; clear H.
  exists w1, kr, w2, acc, w3, w4, n, s.
  repeat split; auto.
Qed.



Lemma uint64_of_int64 h :
  Startup.is_int64 h -> uint64_wrap h = if h <? 0 then h + 2 ^ 64 else h.
Proof.
  unfold Startup.is_int64, uint64_wrap. intros H.
  destruct (h <? 0) eqn:N.
  - apply Z.ltb_lt in N.
    rewrite <- (Z_mod_plus_full h 1 (2 ^ 64)). apply Z.mod_small. lia.
  - apply Z.ltb_ge in N. apply Z.mod_small. lia.
Qed.

Lemma GetHeight_converts b w w1 c w2 h :
  Startup.GetNode cs w (ctx b) = (w1, inl c) ->
  Startup.ABCIInfo cs w1 c = (w2, inl h) ->
  Startup.is_int64 h ->
  Startup.GetHeight cs b w = (w2, (if h <? 0 then h + 2 ^ 64 else h, None)).
Proof.
  intros Hn Hi Hh. unfold Startup.GetHeight. rewrite Hn, Hi.
  now rewrite uint64_of_int64.
Qed.


End StartupFacts.

(** ** The earlier revision: refresh and second entry *)

Section LegacyRetry.
Import Go Sdk LegacyLog.
Context {W Msg : Type} (sdk : Legacy.Collaborators W Msg).

Arguments uint64_add : simpl never.
Arguments Z.eqb : simpl never.

Ltac cut_call H :=
  repeat match type of H with
         | context [match ?x with _ => _ end] => destruct x eqn:?
         end;
  inversion H; subst; clear H.

Ltac code_tests :=
  repeat match goal with
         | H : negb _ = true |- _ => apply negb_true_iff in H
         | H : negb _ = false |- _ => apply negb_false_iff in H
         | H : (_ =? _) = true |- _ => apply Z.eqb_eq in H
         | H : (_ =? _) = false |- _ => apply Z.eqb_neq in H
         end.

Lemma broadcast_entry msgs memo b w :
  let r := Legacy.broadcast sdk msgs memo b w in
  entry sdk b memo (Legacy.events r) (Legacy.after r) (Legacy.ret r).
Proof.
  intros r. subst r.
  destruct (Legacy.broadcast sdk msgs memo b w) as [b' w' evs res] eqn:H.
  unfold Legacy.broadcast in H. cbv zeta in H. fold (builder b memo) in H.
  cut_call H; cbn [Legacy.events Legacy.after Legacy.ret]; code_tests.
  - apply entry_answered. now apply answer_mempool.
  - apply entry_answered. now apply answer_unauthorized.
  - apply entry_answered. apply answer_rejected; congruence.
  - apply entry_answered. now apply answer_accepted.
  - apply entry_transport.
  - apply entry_sign.
  - apply entry_gas.
  - apply entry_prepare.
Qed.

Lemma entry_invalid_sequence b memo evs b' err :
  entry sdk b memo evs b' (inr err) ->
  Is_invalid_sequence err = true ->
  err = errInvalidSequence /\ b' = b.
Proof.
  intros H. inversion H as [| | | |bld txBytes resp b1 res1 A]; subst;
    try discriminate.
  inversion A; subst; try discriminate. auto.
Qed.

Lemma Broadcast_call msgs memo b w :
  let r := Legacy.Broadcast sdk msgs memo b w in
  call sdk b memo (Legacy.events r) (Legacy.after r) (Legacy.ret r).
Proof.
  intros r. subst r. unfold Legacy.Broadcast. cbv zeta.
  pose proof (broadcast_entry msgs memo b w) as E1. cbv zeta in E1.
  destruct (Legacy.broadcast sdk msgs memo b w) as [b1 w1 evs1 res1].
  cbn [Legacy.events Legacy.after Legacy.ret Legacy.world] in *.
  destruct res1 as [out|err].
  - cbn [Legacy.events Legacy.after Legacy.ret].
    apply (@legacy_once _ _ sdk b memo evs1 b1 (inl out)); [exact E1|discriminate].
  - destruct (Is_invalid_sequence err) eqn:I.
    + destruct (entry_invalid_sequence E1 I) as [-> ->].
      unfold Legacy.refreshSequence. cbv zeta.
      change (Legacy.fromAddress (Legacy.set_num_seq b 0 0))
        with (Legacy.fromAddress b).
      destruct (Legacy.GetAccountNumberSequence sdk w1 (Legacy.fromAddress b))
        as [w2 [[n s] [text|]]];
        cbn [Legacy.events Legacy.after Legacy.ret Legacy.world].
      * change (Legacy.set_num_seq (Legacy.set_num_seq b 0 0) n s)
          with (Legacy.set_num_seq b n s).
        now apply legacy_refresh_fails.
      * change (Legacy.set_num_seq (Legacy.set_num_seq b 0 0) n s)
          with (Legacy.set_num_seq b n s).
        pose proof (broadcast_entry msgs memo (Legacy.set_num_seq b n s) w2) as E2.
        cbv zeta in E2.
        destruct (Legacy.broadcast sdk msgs memo (Legacy.set_num_seq b n s) w2)
          as [b2 w3 evs2 res2].
        cbn [Legacy.events Legacy.after Legacy.ret Legacy.world] in *.
        replace (evs1 ++ [Legacy.EvRefresh None] ++ evs2)%list
          with (evs1 ++ Legacy.EvRefresh None :: evs2)%list by reflexivity.
        destruct res2 as [out|err2];
          cbn [Legacy.events Legacy.after Legacy.ret Legacy.world].
        -- now apply (@legacy_twice _ _ sdk b memo evs1 n s evs2 b2 (inl out)).
        -- now apply (@legacy_twice _ _ sdk b memo evs1 n s evs2 b2 (inr err2)).
    + apply (@legacy_once _ _ sdk b memo evs1 b1 (inr err)); [exact E1|].
      intros H. inversion H; subst. discriminate.
Qed.


(** Case analysis of a call, entry by entry. *)
Ltac call_shapes :=
  intros;
  repeat match goal with
         | x := _ |- _ => subst x
         end;
  match goal with
  | |- context [Legacy.Broadcast sdk ?m ?mm ?b ?w] =>
      let Hc := fresh "Hcall" in
      let r := fresh "r" in
      let Hr := fresh "Hr" in
      pose proof (Broadcast_call m mm b w) as Hc; cbv zeta in Hc;
      remember (Legacy.Broadcast sdk m mm b w) as r eqn:Hr;
      clear Hr;
      repeat match goal with
             | H : context [r] |- _ =>
                 lazymatch H with Hc => fail | _ => revert H end
             end;
      destruct r as [? ? ? ?];
      cbn [Legacy.events Legacy.after Legacy.ret Legacy.world] in *;
      inversion Hc; subst; clear Hc
  end;
  repeat match goal with
         | H : entry _ _ _ _ _ _ |- _ => inversion H; subst; clear H
         end;
  repeat match goal with
         | H : answer _ _ _ _ _ |- _ => inversion H; subst; clear H
         end;
  unfold ABCICode_ErrTxInMempoolCache, ABCICode_ErrUnauthorized in *;
  cbn [wrapped app Legacy.calls refreshes builders send_results
       Legacy.attempt_response Legacy.stage_failure];
  intros.

Lemma Broadcast_counts msgs memo b w :
  let evs := Legacy.events (Legacy.Broadcast sdk msgs memo b w) in
  (Legacy.calls evs = 1%nat \/ Legacy.calls evs = 2%nat)
  /\ (List.length (refreshes evs) <= 1)%nat
  /\ (refreshes evs = [None] <-> Legacy.calls evs = 2%nat)
  /\ (refreshes evs <> []
      <-> exists resp,
          Legacy.attempt_response evs = Some resp
          /\ Code resp = ABCICode_ErrUnauthorized).
Proof.
  call_shapes.
  all: unfold ABCICode_ErrUnauthorized.
  all: repeat split; auto; try (simpl; lia); try discriminate; try congruence.
  all: try (intros (resp0 & Hresp & Hcode); inversion Hresp; subst; congruence).
  all: try (intros _; eexists; split; [reflexivity|assumption]).
Qed.


Lemma Broadcast_legacy_frame msgs memo b w :
  let r := Legacy.Broadcast sdk msgs memo b w in
  Legacy.after r
  = Legacy.set_num_seq b (Legacy.num (Legacy.after r)) (Legacy.seq (Legacy.after r)).
Proof.
  call_shapes.
  all: try reflexivity.
  all: match goal with
       | |- ?x = _ => is_var x; destruct x; reflexivity
       end.
Qed.

Lemma Broadcast_builders msgs memo b w :
  let evs := Legacy.events (Legacy.Broadcast sdk msgs memo b w) in
  (exists rest, builders evs = builder b memo :: rest)
  /\ Forall (fun bld =>
               bld = builder (Legacy.set_num_seq b (Legacy.bldAccountNumber bld)
                                                 (Legacy.bldSequence bld))
                             memo)
            (builders evs).
Proof.
  call_shapes.
  all: split; [eexists; reflexivity|].
  all: repeat constructor.
Qed.

Lemma Broadcast_invalid_sequence msgs memo b w err :
  let r := Legacy.Broadcast sdk msgs memo b w in
  Legacy.ret r = inr err ->
  Is_invalid_sequence err = true ->
  err = Wrapf "failed to broadcast" errInvalidSequence
  /\ Legacy.calls (Legacy.events r) = 2%nat
  /\ refreshes (Legacy.events r) = [None]
  /\ exists first second,
      send_results (Legacy.events r) = [inl first; inl second]
      /\ Code first = ABCICode_ErrUnauthorized
      /\ Code second = ABCICode_ErrUnauthorized.
Proof.
  call_shapes.
  all: try discriminate.
  all: try congruence.
  all: match goal with
       | H : inr _ = inr _ |- _ => inversion H; subst; clear H
       end.
  all: try discriminate.
  repeat split. eexists _, _. repeat split; assumption.
Qed.

Lemma Broadcast_legacy_success msgs memo b w resp :
  let r := Legacy.Broadcast sdk msgs memo b w in
  Legacy.ret r = inl resp ->
  Code resp = 0
  /\ (send_results (Legacy.events r) = [inl resp]
      \/ exists first,
          send_results (Legacy.events r) = [inl first; inl resp]
          /\ Code first = ABCICode_ErrUnauthorized).
Proof.
  call_shapes.
  all: try discriminate.
  all: match goal with
       | H : inl _ = inl _ |- _ => inversion H; subst; clear H
       end.
  - split; [assumption|]. now left.
  - split; [assumption|]. right. eexists. split; [reflexivity|assumption].
Qed.

(** The refresh after a rejected sequence, with the answer of the account
    query at hand. *)
Lemma Broadcast_refreshes msgs memo b w resp w2 n s failed :
  let r1 := Legacy.broadcast sdk msgs memo b w in
  Legacy.attempt_response (Legacy.events r1) = Some resp ->
  Code resp = ABCICode_ErrUnauthorized ->
  Legacy.GetAccountNumberSequence sdk (Legacy.world r1) (Legacy.fromAddress b)
  = (w2, (n, s, failed)) ->
  Legacy.Broadcast sdk msgs memo b w
  = match failed with
    | Some text =>
        Legacy.mkRun (Legacy.set_num_seq b n s) w2
          (Legacy.events r1 ++ [Legacy.EvRefresh (Some text)])
          (inr (Wrapf "failed to refresh sequence" (External text)))
    | None =>
        let r2 := Legacy.broadcast sdk msgs memo (Legacy.set_num_seq b n s) w2 in
        Legacy.mkRun (Legacy.after r2) (Legacy.world r2)
          (Legacy.events r1 ++ Legacy.EvRefresh None :: Legacy.events r2)
          (wrapped (Legacy.ret r2))
    end.
Proof.
  intros r1 Hresp Hcode Hq. subst r1. unfold Legacy.Broadcast. cbv zeta.
  pose proof (broadcast_entry msgs memo b w) as E1. cbv zeta in E1.
  destruct (Legacy.broadcast sdk msgs memo b w) as [b1 w1 evs1 res1].
  cbn [Legacy.events Legacy.after Legacy.ret Legacy.world] in *.
  assert (res1 = inr errInvalidSequence /\ b1 = b) as [-> ->].
  { unfold ABCICode_ErrUnauthorized, ABCICode_ErrTxInMempoolCache in *.
    inversion E1 as [| | | |bld txBytes resp' b' res' A]; subst;
      cbn [Legacy.attempt_response] in Hresp; try discriminate.
    inversion Hresp; subst.
    inversion A; subst; unfold ABCICode_ErrUnauthorized,
      ABCICode_ErrTxInMempoolCache in *; try congruence; auto. }
  cbn [Is_invalid_sequence]. unfold Legacy.refreshSequence. cbv zeta.
  change (Legacy.fromAddress (Legacy.set_num_seq b 0 0))
    with (Legacy.fromAddress b).
  rewrite Hq.
  change (Legacy.set_num_seq (Legacy.set_num_seq b 0 0) n s)
    with (Legacy.set_num_seq b n s).
  destruct failed as [text|];
    cbn [Legacy.events Legacy.after Legacy.ret Legacy.world]; [reflexivity|].
  destruct (Legacy.broadcast sdk msgs memo (Legacy.set_num_seq b n s) w2)
    as [b2 w3 evs2 [out|err2]];
    cbn [Legacy.events Legacy.after Legacy.ret Legacy.world wrapped];
    reflexivity.
Qed.


Lemma legacy_retry_success msgs memo b w n s resp :
  let r2 := Legacy.broadcast sdk msgs memo (Legacy.set_num_seq b n s) w in
  Legacy.ret r2 = inl resp ->
  Legacy.num (Legacy.after r2) = n
  /\ Legacy.seq (Legacy.after r2) = uint64_add s 1
  /\ builders (Legacy.events r2) = [builder (Legacy.set_num_seq b n s) memo].
Proof.
  intros r2 Hret. subst r2.
  pose proof (broadcast_entry msgs memo (Legacy.set_num_seq b n s) w) as E.
  cbv zeta in E. rewrite Hret in E.
  inversion E as [| | | |bld txBytes resp' b' res' A]; subst.
  inversion A; subst. repeat split.
Qed.

End LegacyRetry.

Section LegacyStartupFacts.
Import Go Sdk.
Context {W Msg Keybase Info Client : Type}.
Context (cs : LegacyStartup.Collaborators W Keybase Info Client).
Context (sdk : Legacy.Collaborators W Msg).
Local Open Scope string_scope.
Local Open Scope Z_scope.

Lemma legacy_New_cases cfg w w' res :
  LegacyStartup.New cs sdk cfg w = (w', res) ->
  (exists text,
      res = inr (Wrapf "failed to create keyring" (External text))
      \/ res = inr (Wrapf "failed to get account" (External text)))
  \/ exists w1 kb w2 acc n s failed,
      LegacyStartup.Get cs w1 kb (LegacyStartup.From cfg) = (w2, inl acc)
      /\ Legacy.GetAccountNumberSequence sdk w2 (LegacyStartup.GetAddress cs acc)
         = (w', (n, s, failed))
      /\ res = match failed with
               | Some text =>
                   inr (Wrapf "failed to refresh sequence" (External text))
               | None =>
                   inl (Legacy.mkBroadcaster
                          (LegacyStartup.GetName cs acc)
                          (LegacyStartup.GetAddress cs acc)
                          (LegacyStartup.GenesisKeyPass cfg)
                          (LegacyStartup.ChainID cfg) n s
                          (LegacyStartup.Fees cfg) (LegacyStartup.Gas cfg)
                          (LegacyStartup.GasAdjust cfg))
               end.
Proof.
  unfold LegacyStartup.New. intros H.
  destruct (LegacyStartup.NewKeyring cs w _ _ _) as [w1 [kb|err]] eqn:H1;
    [|left; exists err; inversion H; auto].
  destruct (LegacyStartup.Get cs w1 kb _) as [w2 [acc|err]] eqn:H2;
    [|left; exists err; inversion H; auto].
  right. cbv zeta in H. unfold Legacy.refreshSequence in H. cbv zeta in H.
  cbn [Legacy.fromAddress Legacy.set_num_seq] in H.
  destruct (Legacy.GetAccountNumberSequence sdk w2 _)
    as [w3 [[n s] failed]] eqn:Hq.
  cbn [Legacy.ret Legacy.world Legacy.after] in H.
  exists w1, kb, w2, acc, n, s, failed.
  split; [exact H2|].
  destruct failed as [text|]; inversion H; subst; split; auto.
Qed.

Lemma legacy_GetHeight_converts b w w1 c w2 h :
  LegacyStartup.GetNode cs w b = (w1, inl c) ->
  LegacyStartup.ABCIInfo cs w1 c = (w2, inl h) ->
  - 2 ^ 63 <= h < 2 ^ 63 ->
  LegacyStartup.GetHeight cs b w
  = (w2, (if h <? 0 then h + 2 ^ 64 else h, None)).
Proof.
  intros Hn Hi Hh. unfold LegacyStartup.GetHeight. rewrite Hn, Hi.
  do 3 f_equal. unfold uint64_wrap.
  destruct (h <? 0) eqn:N.
  - apply Z.ltb_lt in N.
    rewrite <- (Z_mod_plus_full h 1 (2 ^ 64)). apply Z.mod_small. lia.
  - apply Z.ltb_ge in N. apply Z.mod_small. lia.
Qed.


End LegacyStartupFacts.

(** ** What a call returns and leaves *)

Section Outcomes.
Import Go Sdk Blockchain Trace Passes Pipeline Steady.
Context {W Msg Tx : Type} (sdk : Collaborators W Msg Tx).

Arguments getNextSequence : simpl never.
Arguments uint64_add : simpl never.
Arguments Z.eqb : simpl never.

Ltac cut_submit H :=
  repeat match type of H with
         | context [match ?x with _ => _ end] => destruct x eqn:?
         end;
  inversion H; subst; clear H.

Lemma submit_pass_submits msgs b f w1 w2 evs e txBytes res :
  submit_pass sdk msgs b f w1 = (w2, evs, e) ->
  In (EvBroadcastTx txBytes res) evs ->
  submitted_from sdk msgs (FromName (ctx b)) f txBytes res.
Proof.
  intros H Hin. unfold submit_pass in H. cut_submit H.
  all: cbn [In] in Hin.
  all: repeat match goal with
              | H : _ \/ _ |- _ => destruct H as [H|H]
              | H : False |- _ => destruct H
              end.
  all: try discriminate.
  all: match goal with
       | H : EvBroadcastTx _ _ = EvBroadcastTx _ _ |- _ =>
           inversion H; subst; clear H
       end.
  all: unfold submitted_from; do 7 eexists; repeat split; eassumption.
Qed.

Lemma pass_submits msgs memo b w w1 evs e txBytes res :
  pass sdk msgs memo b w = (w1, evs, e) ->
  In (EvBroadcastTx txBytes res) evs ->
  exists f,
    WithGas f (Gas (prepared b memo)) = prepared b memo
    /\ submitted_from sdk msgs (FromName (ctx b)) f txBytes res.
Proof.
  unfold pass. cbv zeta. fold (prepared b memo).
  set (f := prepared b memo). clearbody f. intros H Hin.
  destruct (Gas f =? 0).
  - destruct (CalculateGas sdk w f msgs) as [w' [gas|err]].
    + destruct (submit_pass sdk msgs b (WithGas f gas) w')
        as [[w2 evs'] e'] eqn:Hsub.
      inversion H; subst; clear H.
      destruct Hin as [Hin|Hin]; [discriminate|].
      exists (WithGas f gas). split; [now destruct f|].
      eapply submit_pass_submits; eassumption.
    + inversion H; subst; clear H.
      destruct Hin as [Hin|[]]; discriminate.
  - exists f. split; [now destruct f|].
    eapply submit_pass_submits; eassumption.
Qed.

(** A call seen as its passes, with what is known of each pass. *)
Lemma broadcast_views msgs memo b w :
  let r := broadcast sdk false msgs memo b w in
  (exists w1 evs b' res,
      pass sdk msgs memo b w = (w1, evs, Returns b' res)
      /\ r = mkRun b' w1 (EvLock :: evs ++ [EvUnlock]) res
      /\ pass_spec sdk b evs (Returns b' res)
      /\ pass_log_ok b evs
      /\ attempt (prepared b memo) evs)
  \/ (exists w1 evs text err w2 evs2 e2,
         pass sdk msgs memo b w = (w1, evs, Fails text err)
         /\ pass sdk msgs memo (corrected b text) w1 = (w2, evs2, e2)
         /\ r = mkRun (ending_receiver (corrected b text) e2) w2
                      (EvLock :: evs ++ EvRetry :: evs2 ++ [EvUnlock])
                      (ending_result e2)
         /\ (pass_spec sdk b evs (Fails text err)
             /\ pass_log_ok b evs
             /\ attempt (prepared b memo) evs
             /\ failure_text evs = Some text)
         /\ pass_spec sdk (corrected b text) evs2 e2
         /\ pass_log_ok (corrected b text) evs2
         /\ attempt (prepared (corrected b text) memo) evs2).
Proof.
  intros r. subst r.
  destruct (broadcast_passes sdk msgs memo b w)
    as [(w1 & evs & b' & res & Hp & Hr)
       |(w1 & evs & text & err & w2 & evs2 & e2 & Hp & Hp2 & Hr)].
  - left. exists w1, evs, b', res.
    destruct (pass_ok sdk _ _ _ _ Hp) as [Hs Hl].
    repeat split; auto; try apply Hl. eapply pass_log; eassumption.
  - right. exists w1, evs, text, err, w2, evs2, e2.
    destruct (pass_ok sdk _ _ _ _ Hp) as [Hs Hl].
    destruct (pass_ok sdk _ _ _ _ Hp2) as [Hs2 Hl2].
    repeat split; auto; try apply Hl; try apply Hl2.
    + eapply pass_log; eassumption.
    + eapply pass_fails_text; eassumption.
    + eapply pass_log; eassumption.
Qed.


Lemma attempt_sequences f evs :
  attempt f evs ->
  factories evs <> []
  /\ Forall (fun f' => Sequence f' = Sequence f) (factories evs).
Proof.
  intros H. split.
  - inversion H as [evs' G S|err G|gas evs' G S]; subst;
      try inversion S; subst; discriminate.
  - apply attempt_factories in H. eapply Forall_impl; [|exact H].
    intros f' <-. reflexivity.
Qed.

Lemma prepared_sequence b memo : Sequence (prepared b memo) = Sequence (txf b).
Proof. unfold prepared. now destruct (PrimFloat.eqb _ _). Qed.

Lemma corrected_sequence b text :
  Sequence (txf (corrected b text))
  = sequence_after_text (Sequence (txf b)) text.
Proof.
  unfold corrected, sequence_after_text.
  now destruct (getNextSequence text =? 0).
Qed.

Lemma one_sequence_last A (g : A -> Z) l first rest earlier last :
  one_sequence (map g l) = true ->
  l = first :: rest ->
  l = (earlier ++ [last])%list ->
  g last = g first.
Proof.
  intros H -> Hl.
  assert (Hin : In last (first :: rest))
    by (rewrite Hl; apply in_or_app; right; now left).
  destruct Hin as [->|Hin]; [reflexivity|].
  cbn in H. rewrite forallb_forall in H.
  symmetry. apply Z.eqb_eq. apply H. now apply in_map.
Qed.

Lemma factories_locked evs rest :
  factories (EvLock :: evs ++ rest) = (factories evs ++ factories rest)%list.
Proof. cbn [factories factory_of]. apply factories_app. Qed.

(** The sequence that a successful call leaves: one more than the sequence
    of the last factory it handed out. *)
Lemma success_sequence msgs memo b w resp :
  let r := broadcast sdk false msgs memo b w in
  ret r = inl resp ->
  exists earlier last first rest,
    factories (events r) = (earlier ++ [last])%list
    /\ factories (events r) = first :: rest
    /\ Sequence first = Sequence (txf b)
    /\ Sequence (txf (after r)) = uint64_add (Sequence last) 1
    /\ Sequence last
       = match failure_text (events r) with
         | Some text => sequence_after_text (Sequence (txf b)) text
         | None => Sequence (txf b)
         end.
Proof.
  intros r. subst r.
  destruct (broadcast_views msgs memo b w)
    as [(w1 & evs & b' & res & _ & -> & Hs & Hl & Ha)
       |(w1 & evs & text & err & w2 & evs2 & e2 & _ & _ & -> & H1 & Hs2 & Hl2 & Ha2)];
    cbn [ret events after]; intros Hret.
  - subst res. destruct Hl as (Hr & _).
    inversion Hs; subst.
    destruct (attempt_sequences Ha) as [Hne Hall].
    rewrite prepared_sequence in Hall.
    destruct (exists_last Hne) as (earlier & last & Heq).
    destruct (factories evs) as [|first rest] eqn:Hf; [congruence|].
    exists earlier, last, first, rest.
    rewrite factories_locked. cbn [factories factory_of]. rewrite app_nil_r.
    rewrite Hf.
    rewrite failure_text_locked by exact Hr.
    match goal with H : failure_text evs = None |- _ => rewrite H end.
    cbn [failure_text first_in_attempt].
    assert (Hlast : Sequence last = Sequence (txf b)).
    { rewrite Forall_forall in Hall. apply Hall. rewrite Heq.
      apply in_or_app. right. now left. }
    repeat split; auto.
    + rewrite Forall_forall in Hall. apply Hall. now left.
    + cbn. now rewrite Hlast.
  - destruct H1 as (Hs & Hl & Ha & Htext).
    destruct Hl as (Hr & _).
    destruct e2 as [b2 res2|text2 err2]; cbn [ending_result] in Hret;
      [|discriminate].
    subst res2. cbn [ending_receiver].
    inversion Hs2; subst.
    destruct (attempt_sequences Ha) as [Hne Hall].
    destruct (attempt_sequences Ha2) as [Hne2 Hall2].
    rewrite prepared_sequence in Hall, Hall2.
    destruct (exists_last Hne2) as (earlier2 & last & Heq2).
    destruct (factories evs) as [|first rest] eqn:Hf; [congruence|].
    exists (first :: rest ++ earlier2)%list, last, first,
      (rest ++ factories evs2)%list.
    rewrite factories_locked. cbn [factories factory_of].
    rewrite factories_app. cbn [factories factory_of]. rewrite app_nil_r.
    rewrite Hf.
    rewrite failure_text_locked by exact Hr. rewrite Htext.
    assert (Hlast : Sequence last = Sequence (txf (corrected b text))).
    { rewrite Forall_forall in Hall2. apply Hall2. rewrite Heq2.
      apply in_or_app. right. now left. }
    repeat split.
    + rewrite Heq2. cbn. now rewrite <- app_assoc.
    + rewrite Forall_forall in Hall. apply Hall. now left.
    + cbn. now rewrite Hlast.
    + now rewrite Hlast, corrected_sequence.
Qed.

Lemma steady_success_advances msgs memo b w :
  steady_success (Broadcast sdk msgs memo b w) = true ->
  Sequence (txf (after (Broadcast sdk msgs memo b w)))
  = uint64_add (Sequence (txf b)) 1.
Proof.
  unfold steady_success.
  rewrite Broadcast_ret, Broadcast_events, Broadcast_after.
  destruct (ret (broadcast sdk false msgs memo b w)) as [resp|err] eqn:Hret;
    [|discriminate].
  intros Hone.
  destruct (@success_sequence msgs memo b w resp Hret)
    as (earlier & last & first & rest & Hl & Hf & Hfirst & Hafter & _).
  rewrite Hafter. f_equal.
  rewrite (@one_sequence_last _ Sequence _ _ _ _ _ Hone Hf Hl). exact Hfirst.
Qed.

Lemma first_try_is_steady msgs memo b w :
  first_try (Broadcast sdk msgs memo b w) = true ->
  steady_success (Broadcast sdk msgs memo b w) = true.
Proof.
  unfold first_try, steady_success.
  rewrite Broadcast_ret, Broadcast_events.
  destruct (ret (broadcast sdk false msgs memo b w)) as [resp|err] eqn:Hret;
    [|discriminate].
  intros Hr. apply Nat.eqb_eq in Hr.
  destruct (broadcast_views msgs memo b w)
    as [(w1 & evs & b' & res & _ & Heq & Hs & Hl & Ha)
       |(w1 & evs & text & err & w2 & evs2 & e2 & _ & _ & Heq & H1 & Hs2 & Hl2 & Ha2)];
    cbv zeta in Heq; rewrite Heq in *; cbn [events] in *.
  - destruct (attempt_sequences Ha) as [Hne Hall].
    rewrite factories_locked. cbn [factories factory_of]. rewrite app_nil_r.
    destruct (factories evs) as [|first rest]; [reflexivity|].
    cbn. rewrite forallb_forall. intros x Hx.
    apply in_map_iff in Hx. destruct Hx as (f' & <- & Hin).
    rewrite Forall_forall in Hall. apply Z.eqb_eq.
    rewrite (Hall first) by now left.
    rewrite (Hall f') by now right. reflexivity.
  - exfalso. cbn [retries] in Hr. rewrite retries_app in Hr.
    cbn [retries] in Hr. lia.
Qed.

Lemma one_sequence_all A (g : A -> Z) s l :
  Forall (fun x => g x = s) l -> one_sequence (map g l) = true.
Proof.
  intros H. destruct l as [|first rest]; [reflexivity|].
  cbn. rewrite forallb_forall. intros x Hx.
  apply in_map_iff in Hx. destruct Hx as (f' & <- & Hin).
  rewrite Forall_forall in H. apply Z.eqb_eq.
  rewrite (H first) by now left. rewrite (H f') by now right. reflexivity.
Qed.

(** A successful call is steady exactly when no failure text changed the
    sequence. *)
Lemma steady_success_iff msgs memo b w :
  let r := Broadcast sdk msgs memo b w in
  steady_success r = true
  <-> exists resp,
      ret r = inl resp
      /\ match failure_text (events r) with
         | Some text =>
             sequence_after_text (Sequence (txf b)) text = Sequence (txf b)
         | None => True
         end.
Proof.
  intros r. subst r. unfold steady_success.
  rewrite Broadcast_ret, Broadcast_events.
  destruct (ret (broadcast sdk false msgs memo b w)) as [resp|err] eqn:Hret.
  - split.
    + intros Hone. exists resp. split; [reflexivity|].
      destruct (@success_sequence msgs memo b w resp Hret)
        as (earlier & last & first & rest & Hl & Hf & Hfirst & _ & Hlast).
      rewrite (@one_sequence_last _ Sequence _ _ _ _ _ Hone Hf Hl), Hfirst
        in Hlast.
      destruct (failure_text _); [now symmetry | exact I].
    + intros (resp' & _ & Hsame).
      apply one_sequence_all with (s := Sequence (txf b)).
      revert Hret Hsame.
      destruct (broadcast_views msgs memo b w)
        as [(w1 & evs & b' & res & _ & -> & Hs & Hl & Ha)
           |(w1 & evs & text & err & w2 & evs2 & e2 & _ & _ & -> & H1 & Hs2 & Hl2 & Ha2)];
        cbn [ret events after]; intros Hret Hsame.
      * destruct (attempt_sequences Ha) as [_ Hall].
        rewrite prepared_sequence in Hall.
        rewrite factories_locked. cbn [factories factory_of].
        now rewrite app_nil_r.
      * destruct H1 as (Hs & Hl & Ha & Htext1). destruct Hl as (Hr & _).
        rewrite failure_text_locked in Hsame by exact Hr.
        rewrite Htext1 in Hsame.
        destruct (attempt_sequences Ha) as [_ Hall].
        destruct (attempt_sequences Ha2) as [_ Hall2].
        rewrite prepared_sequence in Hall, Hall2.
        rewrite corrected_sequence, Hsame in Hall2.
        rewrite factories_locked. cbn [factories factory_of].
        rewrite factories_app. cbn [factories factory_of]. rewrite app_nil_r.
        now apply Forall_app.
  - split; [discriminate|]. intros (resp' & H & _). discriminate.
Qed.

Lemma steady_count calls :
  forall b w,
    forallb steady_success (Broadcast_each sdk calls b w) = true ->
    uint64_wrap
      (Sequence (txf (receiver_after b (Broadcast_each sdk calls b w))))
    = uint64_wrap (Sequence (txf b) + Z.of_nat (List.length calls))
    /\ (calls <> [] ->
        is_uint64
          (Sequence (txf (receiver_after b (Broadcast_each sdk calls b w))))).
Proof.
  induction calls as [|[msgs memo] calls IH]; intros b w Hall.
  - split; [|congruence]. simpl. now rewrite Z.add_0_r.
  - cbn [Broadcast_each forallb] in Hall.
    apply andb_true_iff in Hall. destruct Hall as [Hfirst Hall].
    pose proof (@steady_success_advances msgs memo b w Hfirst) as Hseq.
    cbn [Broadcast_each]. unfold receiver_after. cbn [fold_left].
    fold (receiver_after (after (Broadcast sdk msgs memo b w))
            (Broadcast_each sdk calls (after (Broadcast sdk msgs memo b w))
                            (world (Broadcast sdk msgs memo b w)))).
    destruct (IH _ _ Hall) as [Hcount Hrange].
    rewrite Hseq in Hcount.
    split.
    + rewrite Hcount. rewrite uint64_add_wrap. f_equal.
      change (List.length ((msgs, memo) :: calls)) with (S (List.length calls)).
      lia.
    + intros _. destruct calls as [|c calls'].
      * cbn [Broadcast_each receiver_after fold_left].
        rewrite Hseq. apply uint64_add_range.
      * apply Hrange. discriminate.
Qed.


Lemma attempt_sent f evs r :
  attempt f evs ->
  send_results evs = [r] ->
  exists earlier txBytes, evs = (earlier ++ [EvBroadcastTx txBytes r])%list.
Proof.
  intros H Hs.
  inversion H as [evs' G S|err G|gas evs' G S]; subst;
    try inversion S; subst; cbn in Hs; try discriminate.
  - inversion Hs; subst. now eexists [_; _; _], _.
  - inversion Hs; subst. now eexists [_; _; _; _], _.
Qed.

Lemma failure_text_unlock evs :
  retries evs = 0%nat ->
  failure_text (evs ++ [EvUnlock]) = failure_text evs.
Proof.
  intros Hr. unfold failure_text at 1.
  rewrite first_in_attempt_app by exact Hr.
  fold failure_text. now destruct (failure_text evs).
Qed.

Lemma attempt_response_unlock evs :
  retries evs = 0%nat ->
  attempt_response (evs ++ [EvUnlock]) = attempt_response evs.
Proof.
  intros Hr. unfold attempt_response at 1.
  rewrite first_in_attempt_app by exact Hr.
  fold attempt_response. now destruct (attempt_response evs).
Qed.

(** After a failure text the method really tries again: the retried
    attempt is an attempt with the factory of the corrected receiver, what
    it submits is built and signed with such a factory, and a response that
    the call returns is the answer to its submission. *)
Lemma retried_attempt_runs msgs memo b w text :
  let r := broadcast sdk false msgs memo b w in
  failure_text (events r) = Some text ->
  retries (events r) = 1%nat
  /\ exists evs2,
      retried_attempt (events r) = (evs2 ++ [EvUnlock])%list
      /\ attempt (prepared (corrected b text) memo) evs2
      /\ (forall txBytes res,
             In (EvBroadcastTx txBytes res) evs2 ->
             exists f,
               Sequence f = Sequence (txf (corrected b text))
               /\ Memo f = memo
               /\ submitted_from sdk msgs (FromName (ctx b)) f txBytes res)
      /\ (forall resp,
             ret r = inl resp ->
             exists earlier txBytes,
               evs2 = (earlier ++ [EvBroadcastTx txBytes (inl resp)])%list).
Proof.
  intros r. subst r.
  destruct (broadcast_views msgs memo b w)
    as [(w1 & evs & b' & res & _ & -> & Hs & Hl & Ha)
       |(w1 & evs & text' & err & w2 & evs2 & e2 & _ & Hp2 & -> & H1 & Hs2 & Hl2 & Ha2)];
    cbn [ret events after]; intros Htext.
  - exfalso. destruct Hl as (Hr & _).
    rewrite failure_text_locked in Htext by exact Hr.
    inversion Hs; subst;
      match goal with H : failure_text evs = None |- _ => rewrite H in Htext end;
      discriminate.
  - destruct H1 as (Hs & Hl & Ha & Htext1).
    destruct Hl as (Hr & _). destruct Hl2 as (Hr2 & _).
    rewrite failure_text_locked in Htext by exact Hr.
    rewrite Htext1 in Htext. inversion Htext; subst text'.
    split.
    { cbn [retries]. rewrite retries_app. cbn [retries].
      rewrite retries_app. cbn [retries]. lia. }
    exists evs2. rewrite retried_attempt_locked by exact Hr.
    split; [reflexivity|]. split; [exact Ha2|]. split.
    + intros txBytes res Hin.
      destruct (@pass_submits _ _ _ _ _ _ _ _ _ Hp2 Hin) as (f & Hf & Hsub).
      exists f.
      assert (Hfields : Sequence f = Sequence (txf (corrected b text))
                        /\ Memo f = memo).
      { destruct (@prepared_carries (corrected b text) memo f Hf)
          as [(Hm & _) Hseq]. split; assumption. }
      destruct Hfields as [Hseq Hm].
      repeat split; auto.
      destruct (corrected_frame b text) as [Hctx _].
      now rewrite Hctx in Hsub.
    + intros resp Hret.
      destruct e2 as [b2 res2|text2 err2]; cbn [ending_result] in Hret;
        [|discriminate].
      subst res2. inversion Hs2; subst.
      eapply attempt_sent; eassumption.
Qed.


(** The error of a failure text is what the call returns exactly when the
    failure is that of the retried attempt. *)
Lemma retried_failure_is_returned msgs memo b w :
  let r := broadcast sdk false msgs memo b w in
  (forall text2,
      failure_text (retried_attempt (events r)) = Some text2 ->
      retries (events r) = 1%nat
      /\ (ret r = inr (Wrapf "failed to calculate gas" (External text2))
          \/ exists resp2,
              attempt_response (retried_attempt (events r)) = Some resp2
              /\ rejected resp2 = true
              /\ RawLog resp2 = text2
              /\ ret r = inr (Newf "failed to broadcast tx"
                                   (TxResponse_String sdk resp2))))
  /\ (forall e,
         ret r = inr e ->
         (exists inner, e = Wrapf "failed to calculate gas" inner)
         \/ (exists shown, e = Newf "failed to broadcast tx" shown) ->
         retries (events r) = 1%nat
         /\ exists text2,
             failure_text (retried_attempt (events r)) = Some text2).
Proof.
  intros r. subst r.
  destruct (broadcast_views msgs memo b w)
    as [(w1 & evs & b' & res & _ & -> & Hs & Hl & Ha)
       |(w1 & evs & text & err & w2 & evs2 & e2 & _ & Hp2 & -> & H1 & Hs2 & Hl2 & Ha2)];
    cbn [ret events after].
  - destruct Hl as (Hr & _).
    rewrite (@retried_attempt_none (EvLock :: evs ++ [EvUnlock]))
      by (cbn [retries]; rewrite retries_app; cbn [retries]; lia).
    split; [intros text2 H; discriminate|].
    intros e Hret Hkind. exfalso. subst res.
    inversion Hs; subst;
      destruct Hkind as [[inner Hk]|[shown Hk]]; try discriminate.
    inversion Hk.
    match goal with st : stage |- _ => destruct st end; discriminate.
  - destruct H1 as (Hs & Hl & Ha & Htext1).
    destruct Hl as (Hr & _). destruct Hl2 as (Hr2 & _).
    rewrite retried_attempt_locked by exact Hr.
    rewrite failure_text_unlock, attempt_response_unlock by exact Hr2.
    assert (Hone : retries (EvLock :: evs ++ EvRetry :: evs2 ++ [EvUnlock]) = 1%nat).
    { cbn [retries]. rewrite retries_app. cbn [retries].
      rewrite retries_app. cbn [retries]. lia. }
    split.
    + intros text2 Htext2. split; [exact Hone|].
      inversion Hs2; subst; cbn [ending_result];
        match goal with
        | H : failure_text evs2 = _ |- _ => rewrite H in Htext2
        end;
        try discriminate; inversion Htext2; subst.
      * now left.
      * right. eexists. repeat split; eauto.
    + intros e Hret Hkind. split; [exact Hone|].
      inversion Hs2; subst; cbn [ending_result] in Hret;
        inversion Hret; subst;
        destruct Hkind as [[inner Hk]|[shown Hk]]; try discriminate;
        try (inversion Hk;
             match goal with st : stage |- _ => destruct st end; discriminate);
        eexists; eassumption.
Qed.

(** What a call that returns an error leaves in the receiver. *)
Lemma failed_call_receiver msgs memo b w err :
  let r := broadcast sdk false msgs memo b w in
  ret r = inr err ->
  after r
  = match failure_text (events r) with
    | Some text => corrected b text
    | None => b
    end.
Proof.
  intros r. subst r.
  destruct (broadcast_views msgs memo b w)
    as [(w1 & evs & b' & res & _ & -> & Hs & Hl & Ha)
       |(w1 & evs & text & err' & w2 & evs2 & e2 & _ & Hp2 & -> & H1 & Hs2 & Hl2 & Ha2)];
    cbn [ret events after]; intros Hret.
  - destruct Hl as (Hr & _).
    rewrite failure_text_locked by exact Hr.
    inversion Hs; subst; try discriminate;
      match goal with H : failure_text evs = None |- _ => rewrite H end;
      reflexivity.
  - destruct H1 as (Hs & Hl & Ha & Htext1).
    destruct Hl as (Hr & _).
    rewrite failure_text_locked by exact Hr. rewrite Htext1.
    inversion Hs2; subst; cbn [ending_result ending_receiver] in *;
      try discriminate; reflexivity.
Qed.

End Outcomes.

Section LegacyOutcomes.
Import Go Sdk LegacyLog Steady.
Context {W Msg : Type} (sdk : Legacy.Collaborators W Msg).

Arguments uint64_add : simpl never.
Arguments Z.eqb : simpl never.

(** Case analysis of a call of the earlier revision, entry by entry. *)
Ltac legacy_shapes :=
  intros;
  repeat match goal with
         | x := _ |- _ => subst x
         end;
  match goal with
  | |- context [Legacy.Broadcast sdk ?m ?mm ?b ?w] =>
      let Hc := fresh "Hcall" in
      let r := fresh "r" in
      let Hr := fresh "Hr" in
      pose proof (Broadcast_call sdk m mm b w) as Hc; cbv zeta in Hc;
      remember (Legacy.Broadcast sdk m mm b w) as r eqn:Hr;
      clear Hr;
      repeat match goal with
             | H : context [r] |- _ =>
                 lazymatch H with Hc => fail | _ => revert H end
             end;
      destruct r as [? ? ? ?];
      cbn [Legacy.events Legacy.after Legacy.ret Legacy.world] in *;
      inversion Hc; subst; clear Hc
  end;
  repeat match goal with
         | H : entry _ _ _ _ _ _ |- _ => inversion H; subst; clear H
         end;
  repeat match goal with
         | H : answer _ _ _ _ _ |- _ => inversion H; subst; clear H
         end;
  unfold ABCICode_ErrTxInMempoolCache, ABCICode_ErrUnauthorized in *;
  cbn [wrapped app Legacy.calls refreshes builders send_results
       Legacy.attempt_response Legacy.stage_failure];
  intros.

Lemma legacy_success_sequence msgs memo b w resp :
  let r := Legacy.Broadcast sdk msgs memo b w in
  Legacy.ret r = inl resp ->
  exists earlier last rest,
    builders (Legacy.events r) = (earlier ++ [last])%list
    /\ builders (Legacy.events r) = builder b memo :: rest
    /\ Legacy.seq (Legacy.after r) = uint64_add (Legacy.bldSequence last) 1
    /\ Legacy.num (Legacy.after r) = Legacy.bldAccountNumber last.
Proof.
  legacy_shapes.
  all: try discriminate.
  - eexists [], _, []. repeat split.
  - eexists [_], _, [_]. repeat split.
Qed.

Lemma legacy_steady_advances msgs memo b w :
  legacy_steady_success (Legacy.Broadcast sdk msgs memo b w) = true ->
  Legacy.seq (Legacy.after (Legacy.Broadcast sdk msgs memo b w))
  = uint64_add (Legacy.seq b) 1.
Proof.
  unfold legacy_steady_success.
  destruct (Legacy.ret (Legacy.Broadcast sdk msgs memo b w))
    as [resp|err] eqn:Hret; [|discriminate].
  intros Hone.
  destruct (@legacy_success_sequence msgs memo b w resp Hret)
    as (earlier & last & rest & Hl & Hf & Hafter & _).
  rewrite Hafter. f_equal.
  now rewrite (@one_sequence_last _ Legacy.bldSequence _ _ _ _ _ Hone Hf Hl).
Qed.

Lemma legacy_first_try_is_steady msgs memo b w :
  Legacy.first_try (Legacy.Broadcast sdk msgs memo b w) = true ->
  legacy_steady_success (Legacy.Broadcast sdk msgs memo b w) = true.
Proof.
  unfold Legacy.first_try, legacy_steady_success.
  legacy_shapes.
  all: try discriminate.
  all: try reflexivity.
  all: match goal with
       | H : context [Legacy.calls (_ ++ _)] |- _ =>
           rewrite legacy_calls_app in H; cbn in H; discriminate
       | H : (_ =? _)%nat = true |- _ => cbn in H; discriminate
       end.
Qed.

Lemma legacy_steady_count calls :
  forall b w,
    forallb legacy_steady_success (Legacy.Broadcast_each sdk calls b w) = true ->
    uint64_wrap
      (Legacy.seq
         (Legacy.receiver_after b (Legacy.Broadcast_each sdk calls b w)))
    = uint64_wrap (Legacy.seq b + Z.of_nat (List.length calls))
    /\ (calls <> [] ->
        is_uint64
          (Legacy.seq
             (Legacy.receiver_after b (Legacy.Broadcast_each sdk calls b w)))).
Proof.
  induction calls as [|[msgs memo] calls IH]; intros b w Hall.
  - split; [|congruence]. simpl. now rewrite Z.add_0_r.
  - cbn [Legacy.Broadcast_each forallb] in Hall.
    apply andb_true_iff in Hall. destruct Hall as [Hfirst Hall].
    pose proof (@legacy_steady_advances msgs memo b w Hfirst) as Hseq.
    cbn [Legacy.Broadcast_each]. unfold Legacy.receiver_after. cbn [fold_left].
    fold (Legacy.receiver_after (Legacy.after (Legacy.Broadcast sdk msgs memo b w))
            (Legacy.Broadcast_each sdk calls
               (Legacy.after (Legacy.Broadcast sdk msgs memo b w))
               (Legacy.world (Legacy.Broadcast sdk msgs memo b w)))).
    destruct (IH _ _ Hall) as [Hcount Hrange].
    rewrite Hseq in Hcount.
    split.
    + rewrite Hcount. rewrite uint64_add_wrap. f_equal.
      change (List.length ((msgs, memo) :: calls)) with (S (List.length calls)).
      lia.
    + intros _. destruct calls as [|c calls'].
      * cbn [Legacy.Broadcast_each Legacy.receiver_after fold_left].
        rewrite Hseq. apply uint64_add_range.
      * apply Hrange. discriminate.
Qed.

End LegacyOutcomes.

(** ** The properties of the specification *)

Import Go Pattern Sdk Trace.
Local Open Scope string_scope.
Local Open Scope Z_scope.

(** C10: [BroadcastMsg(msg, memo)] returns exactly what [Broadcast] returns
    for the one-element list [msg] and the same memo, in both revisions of
    the package. *)
Theorem BroadcastMsg_is_Broadcast_singleton :
  (forall (W Msg Tx : Type) (sdk : Collaborators W Msg Tx)
          (msg : Msg) (memo : string) (b : Blockchain.broadcaster) (w : W),
      Blockchain.BroadcastMsg sdk msg memo b w
      = Blockchain.Broadcast sdk [msg] memo b w)
  /\ (forall (W Msg : Type) (sdk : Legacy.Collaborators W Msg)
             (msg : Msg) (memo : string) (b : Legacy.Broadcaster) (w : W),
         Legacy.BroadcastMsg sdk msg memo b w
         = Legacy.Broadcast sdk [msg] memo b w).
Proof. split; reflexivity. Qed.

(** C8: [refreshSequence] fails, with the receiver untouched, when the
    check that the account exists fails; when the account exists and the
    node answers the account query, the account number and the sequence of
    the receiver become the two numbers of the answer, whatever they were
    (a query that fails instead is reported and writes nothing).  In the
    earlier revision the two numbers of the query are stored in any case
    and the error of the query is returned as it is. *)
Theorem refreshSequence_overwrites :
  (forall (W Msg Tx : Type) (sdk : Collaborators W Msg Tx)
          (b : Blockchain.broadcaster) (w : W),
      (forall w1 err,
          EnsureExists sdk w (Blockchain.From b) = (w1, Some err) ->
          let r := Blockchain.refreshSequence sdk b w in
          Blockchain.ret r = Some (Wrapf "failed to EnsureExists" (External err))
          /\ Blockchain.after r = b)
      /\ (forall w1 w2 num seq,
             EnsureExists sdk w (Blockchain.From b) = (w1, None) ->
             GetAccountNumberSequence sdk w1 (Blockchain.From b)
             = (w2, inl (num, seq)) ->
             let r := Blockchain.refreshSequence sdk b w in
             Blockchain.ret r = None
             /\ AccountNumber (Blockchain.txf (Blockchain.after r)) = num
             /\ Sequence (Blockchain.txf (Blockchain.after r)) = seq
             /\ Blockchain.after r
                = Blockchain.set_txf b
                    (WithSequence (WithAccountNumber (Blockchain.txf b) num) seq))
      /\ (forall w1 w2 err,
             EnsureExists sdk w (Blockchain.From b) = (w1, None) ->
             GetAccountNumberSequence sdk w1 (Blockchain.From b)
             = (w2, inr err) ->
             let r := Blockchain.refreshSequence sdk b w in
             Blockchain.ret r
             = Some (Wrapf "failed to get GetAccountNumberSequence" (External err))
             /\ Blockchain.after r = b))
  /\ (forall (W Msg : Type) (sdk : Legacy.Collaborators W Msg)
             (b : Legacy.Broadcaster) (w w1 : W) (n s : Z) (err : option string),
         Legacy.GetAccountNumberSequence sdk w (Legacy.fromAddress b)
         = (w1, (n, s, err)) ->
         let r := Legacy.refreshSequence sdk b w in
         Legacy.num (Legacy.after r) = n
         /\ Legacy.seq (Legacy.after r) = s
         /\ Legacy.ret r = option_map External err).
Proof.
  split.
  - intros W Msg Tx sdk b w. split; [|split].
    + intros w1 err He r. subst r. unfold Blockchain.refreshSequence.
      rewrite He. split; reflexivity.
    + intros w1 w2 num seq He Hq r. subst r. unfold Blockchain.refreshSequence.
      rewrite He, Hq. repeat split; reflexivity.
    + intros w1 w2 err He Hq r. subst r. unfold Blockchain.refreshSequence.
      rewrite He, Hq. split; reflexivity.
  - intros W Msg sdk b w w1 n s err Hq r. subst r.
    unfold Legacy.refreshSequence. cbv zeta.
    change (Legacy.fromAddress (Legacy.set_num_seq b 0 0))
      with (Legacy.fromAddress b).
    rewrite Hq. destruct err; repeat split; reflexivity.
Qed.

(** C6: an attempt whose submission is answered with the mempool-cache
    code returns the sentinel [ErrTxInMempoolCache] itself, does not recurse,
    has sent once, and leaves the receiver as it was.  The public method
    returns the sentinel under its own wrapper, so that [errors.Is] finds
    it, in whichever attempt of the call the code comes.  The same holds in
    the earlier revision, where the public method enters [broadcast]
    once. *)
Theorem mempool_code_returns_sentinel :
  (forall (W Msg Tx : Type) (sdk : Collaborators W Msg Tx)
          (isRetry : bool) (msgs : list Msg) (memo : string)
          (b : Blockchain.broadcaster) (w : W) (resp : TxResponse),
      let r := Blockchain.broadcast sdk isRetry msgs memo b w in
      attempt_response (Blockchain.events r) = Some resp ->
      Code resp = ABCICode_ErrTxInMempoolCache ->
      Blockchain.ret r = inr ErrTxInMempoolCache
      /\ retries (Blockchain.events r) = 0%nat
      /\ sends (Blockchain.events r) = 1%nat
      /\ Blockchain.after r = b)
  /\ (forall (W Msg Tx : Type) (sdk : Collaborators W Msg Tx)
             (msgs : list Msg) (memo : string)
             (b : Blockchain.broadcaster) (w : W) (resp : TxResponse),
         let r := Blockchain.Broadcast sdk msgs memo b w in
         attempt_response (Blockchain.events r) = Some resp ->
         Code resp = ABCICode_ErrTxInMempoolCache ->
         Blockchain.ret r = inr (Wrapf "failed to broadcast" ErrTxInMempoolCache)
         /\ retries (Blockchain.events r) = 0%nat
         /\ sends (Blockchain.events r) = 1%nat
         /\ Blockchain.after r = b)
  /\ (forall (W Msg Tx : Type) (sdk : Collaborators W Msg Tx)
             (msgs : list Msg) (memo : string)
             (b : Blockchain.broadcaster) (w : W) (resp : TxResponse),
         let r := Blockchain.Broadcast sdk msgs memo b w in
         In (inl resp) (send_results (Blockchain.events r)) ->
         Code resp = ABCICode_ErrTxInMempoolCache ->
         exists err, Blockchain.ret r = inr err /\ Is_mempool err = true)
  /\ (forall (W Msg : Type) (sdk : Legacy.Collaborators W Msg)
             (msgs : list Msg) (memo : string)
             (b : Legacy.Broadcaster) (w : W) (resp : TxResponse),
         let r := Legacy.Broadcast sdk msgs memo b w in
         Legacy.attempt_response (Legacy.events r) = Some resp ->
         Code resp = ABCICode_ErrTxInMempoolCache ->
         (exists err, Legacy.ret r = inr err /\ Is_mempool err = true)
         /\ Legacy.calls (Legacy.events r) = 1%nat
         /\ Legacy.after r = b).
Proof.
  split; [|split; [|split]].
  - intros W Msg Tx sdk isRetry msgs memo b w resp r Hresp Hcode.
    exact (@mempool_code_ends_attempt W Msg Tx sdk isRetry msgs memo b w resp
             Hresp Hcode).
  - intros W Msg Tx sdk msgs memo b w resp r Hresp Hcode. subst r.
    rewrite Broadcast_events in *. rewrite Broadcast_after, Broadcast_ret.
    destruct (@mempool_code_ends_attempt W Msg Tx sdk false msgs memo b w resp
                Hresp Hcode) as (Hret & Hr & Hs & Ha).
    rewrite Hret. repeat split; auto.
  - intros W Msg Tx sdk msgs memo b w resp r Hin Hcode. subst r.
    rewrite Broadcast_events in Hin. rewrite Broadcast_ret.
    rewrite (@mempool_code_ends_call W Msg Tx sdk msgs memo b w resp Hin Hcode).
    eexists; split; reflexivity.
  - intros W Msg sdk msgs memo b w resp r Hresp Hcode.
    destruct (@legacy_mempool_code_no_retry W Msg sdk msgs memo b w resp
                Hresp Hcode) as (Hret & Hc & Ha).
    subst r. rewrite Hret. repeat split; auto. eexists; split; reflexivity.
Qed.

(** C7: an attempt in which building, signing or encoding the transaction
    fails, or in which the submission fails in the transport, returns the
    error of the collaborator wrapped with the description of that stage,
    does not recurse, and leaves the receiver as it was; the public method
    returns that error under its own wrapper, also when the stage fails in
    the retried attempt, after which there is no further retry.  In the
    earlier revision the same holds for building-and-signing and for the
    transport. *)
Theorem local_failures_are_final :
  (forall (W Msg Tx : Type) (sdk : Collaborators W Msg Tx)
          (isRetry : bool) (msgs : list Msg) (memo : string)
          (b : Blockchain.broadcaster) (w : W) (st : stage) (err : string),
      let r := Blockchain.broadcast sdk isRetry msgs memo b w in
      stage_failure (Blockchain.events r) = Some (st, err) ->
      Blockchain.ret r = inr (Wrapf (stage_description st) (External err))
      /\ retries (Blockchain.events r) = 0%nat
      /\ Blockchain.after r = b)
  /\ (forall (W Msg Tx : Type) (sdk : Collaborators W Msg Tx)
             (msgs : list Msg) (memo : string)
             (b : Blockchain.broadcaster) (w : W) (st : stage) (err : string),
         let r := Blockchain.Broadcast sdk msgs memo b w in
         stage_failure (Blockchain.events r) = Some (st, err) ->
         Blockchain.ret r
         = inr (Wrapf "failed to broadcast"
                      (Wrapf (stage_description st) (External err)))
         /\ retries (Blockchain.events r) = 0%nat
         /\ Blockchain.after r = b)
  /\ (forall (W Msg Tx : Type) (sdk : Collaborators W Msg Tx)
             (msgs : list Msg) (memo : string)
             (b : Blockchain.broadcaster) (w : W) (st : stage) (err : string),
         let r := Blockchain.Broadcast sdk msgs memo b w in
         stage_failure (retried_attempt (Blockchain.events r)) = Some (st, err) ->
         Blockchain.ret r
         = inr (Wrapf "failed to broadcast"
                      (Wrapf (stage_description st) (External err)))
         /\ retries (Blockchain.events r) = 1%nat)
  /\ (forall (W Msg : Type) (sdk : Legacy.Collaborators W Msg)
             (msgs : list Msg) (memo : string)
             (b : Legacy.Broadcaster) (w : W)
             (st : Legacy.stage) (err : string),
         let r := Legacy.Broadcast sdk msgs memo b w in
         Legacy.stage_failure (Legacy.events r) = Some (st, err) ->
         Legacy.ret r
         = inr (Wrapf "failed to broadcast"
                      (Wrapf (Legacy.stage_description st) (External err)))
         /\ Legacy.calls (Legacy.events r) = 1%nat
         /\ Legacy.after r = b).
Proof.
  split; [|split; [|split]].
  - intros W Msg Tx sdk isRetry msgs memo b w st err r Hst.
    exact (@stage_failure_ends_attempt W Msg Tx sdk isRetry msgs memo b w st err
             Hst).
  - intros W Msg Tx sdk msgs memo b w st err r Hst. subst r.
    rewrite Broadcast_events in *. rewrite Broadcast_after, Broadcast_ret.
    destruct (@stage_failure_ends_attempt W Msg Tx sdk false msgs memo b w st err
                Hst) as (Hret & Hr & Ha).
    rewrite Hret. repeat split; auto.
  - intros W Msg Tx sdk msgs memo b w st err r Hst. subst r.
    rewrite Broadcast_events in *. rewrite Broadcast_ret.
    destruct (@retried_stage_failure_ends_call W Msg Tx sdk msgs memo b w st err
                Hst) as (Hret & Hr).
    rewrite Hret. split; auto.
  - intros W Msg sdk msgs memo b w st err r Hst.
    exact (@legacy_stage_failure_no_retry W Msg sdk msgs memo b w st err Hst).
Qed.

(** C2: an external [Broadcast] call recurses at most once and submits at
    most twice; when the node rejects both the first submission and the
    submission of the retry (a response code that is neither 0 nor the
    mempool-cache code), the call has submitted exactly twice, has recursed
    exactly once, and returns the error made from the second response. *)
Theorem at_most_one_retry :
  forall (W Msg Tx : Type) (sdk : Collaborators W Msg Tx)
         (msgs : list Msg) (memo : string)
         (b : Blockchain.broadcaster) (w : W),
    let r := Blockchain.Broadcast sdk msgs memo b w in
    (retries (Blockchain.events r) <= 1)%nat
    /\ (sends (Blockchain.events r) <= 2)%nat
    /\ forall r1 r2 rest,
        send_results (Blockchain.events r) = inl r1 :: inl r2 :: rest ->
        rejected r1 = true ->
        rejected r2 = true ->
        rest = []
        /\ sends (Blockchain.events r) = 2%nat
        /\ retries (Blockchain.events r) = 1%nat
        /\ Blockchain.ret r
           = inr (Wrapf "failed to broadcast"
                        (Newf "failed to broadcast tx" (TxResponse_String sdk r2))).
Proof.
  intros W Msg Tx sdk msgs memo b w r. subst r.
  rewrite Broadcast_events, Broadcast_ret.
  destruct (first_attempt_sends sdk msgs memo b w) as (Hr & Hs & Hboth).
  split; [exact Hr|]. split; [exact Hs|].
  intros r1 r2 rest Hres Hr1 Hr2.
  destruct (Hboth r1 r2 rest Hres Hr1 Hr2) as (-> & H2 & H1 & Hret).
  rewrite Hret. repeat split; auto.
Qed.

(** C3: when the first attempt of a call ends in a failure whose text (the
    error of the gas simulation, or the raw log of a rejected response)
    gives the sequence [s > 0], the call recurses once and the retried
    attempt is run: its log is that of an attempt with the factory of the
    call carrying sequence [s] (the gas simulation when the gas limit is 0,
    then building, signing, encoding and submitting, each after the success
    of the one before), so that every factory it hands to the gas
    simulation, to the builder and to the signer carries [s].  Whatever the
    retried attempt submits is the encoding of the transaction that was
    built from the messages of the call with a factory carrying [s] and the
    memo of the call, and signed with that factory.  When the call returns
    a response, that response is the answer of the node to the submission
    of the retried attempt, and the sequence of the receiver is [s + 1] in
    [uint64] arithmetic, which is the integer [s + 1] unless [s] is the
    largest [uint64]. *)
Theorem retry_uses_extracted_sequence :
  forall (W Msg Tx : Type) (sdk : Collaborators W Msg Tx)
         (msgs : list Msg) (memo : string)
         (b : Blockchain.broadcaster) (w : W) (text : string) (s : Z),
    let r := Blockchain.Broadcast sdk msgs memo b w in
    failure_text (Blockchain.events r) = Some text ->
    getNextSequence text = s ->
    0 < s ->
    retries (Blockchain.events r) = 1%nat
    /\ Forall (uses_sequence s) (retried_attempt (Blockchain.events r))
    /\ (exists evs2,
           retried_attempt (Blockchain.events r) = (evs2 ++ [EvUnlock])%list
           /\ Pipeline.attempt (WithSequence (Pipeline.prepared b memo) s) evs2)
    /\ (forall txBytes res,
           In (EvBroadcastTx txBytes res) (retried_attempt (Blockchain.events r)) ->
           exists f,
             Sequence f = s
             /\ Memo f = memo
             /\ Steady.submitted_from sdk msgs
                  (Blockchain.FromName (Blockchain.ctx b)) f txBytes res)
    /\ forall resp,
        Blockchain.ret r = inl resp ->
        (exists earlier txBytes,
            retried_attempt (Blockchain.events r)
            = (earlier ++ [EvBroadcastTx txBytes (inl resp); EvUnlock])%list)
        /\ Sequence (Blockchain.txf (Blockchain.after r)) = uint64_add s 1
        /\ (s < maxUint64 ->
            Sequence (Blockchain.txf (Blockchain.after r)) = s + 1).
Proof.
  intros W Msg Tx sdk msgs memo b w text s r Htext Hs Hpos. subst r.
  rewrite Broadcast_events in *. rewrite Broadcast_after, Broadcast_ret.
  destruct (@first_failure_retries W Msg Tx sdk msgs memo b w text Htext)
    as (Hr & Huses & _ & Hafter).
  destruct (@retried_attempt_runs W Msg Tx sdk msgs memo b w text Htext)
    as (_ & evs2 & Hlog & Hatt & Hsub & Hresp).
  assert (Hb1 : Sequence (Blockchain.txf (Passes.corrected b text)) = s).
  { unfold Passes.corrected. rewrite Hs.
    destruct (s =? 0) eqn:E; [apply Z.eqb_eq in E; lia | reflexivity]. }
  rewrite Hb1 in *.
  split; [exact Hr|]. split; [exact Huses|]. split; [|split].
  - exists evs2. split; [exact Hlog|].
    rewrite prepared_corrected, Hb1 in Hatt. exact Hatt.
  - intros txBytes res Hin. rewrite Hlog in Hin.
    apply in_app_or in Hin. destruct Hin as [Hin|[Hin|[]]]; [|discriminate].
    exact (Hsub txBytes res Hin).
  - intros resp Hret.
    destruct (Blockchain.ret (Blockchain.broadcast sdk false msgs memo b w))
      as [resp'|] eqn:Hb; [|discriminate].
    inversion Hret; subst resp'.
    split; [|split].
    + destruct (Hresp resp eq_refl) as (earlier & txBytes & ->).
      exists earlier, txBytes. rewrite Hlog. now rewrite <- app_assoc.
    + rewrite (Hafter resp eq_refl).
      cbn [Blockchain.set_txf Blockchain.txf Sequence WithSequence].
      reflexivity.
    + intros Hmax. rewrite (Hafter resp eq_refl).
      cbn [Blockchain.set_txf Blockchain.txf Sequence WithSequence].
      unfold uint64_add. apply uint64_wrap_small.
      unfold is_uint64. lia.
Qed.

(** C5, as the code has it: a first attempt that ends in a failure text
    (the error of the gas simulation, or the raw log of a rejected
    response) is followed by exactly one retry whatever the extraction
    gives, and the retry is run: its log is that of an attempt with the
    factory of the call carrying the sequence the receiver already had when
    the extraction gives 0, the extracted sequence otherwise.  A retry
    happens after such a failure only.  The error of such a failure is
    returned when, and only when, the failure is that of the retried
    attempt: if the retried attempt ends in a failure text the call returns
    the error made of it, under the wrapper of the public method, and a
    call that returns a failed gas simulation or a rejected response has
    retried and returns the failure of its retried attempt; the failure of
    the first attempt is never what the call returns. *)
Theorem first_failure_always_retries :
  forall (W Msg Tx : Type) (sdk : Collaborators W Msg Tx)
         (msgs : list Msg) (memo : string)
         (b : Blockchain.broadcaster) (w : W),
    let r := Blockchain.Broadcast sdk msgs memo b w in
    (forall text,
        failure_text (Blockchain.events r) = Some text ->
        retries (Blockchain.events r) = 1%nat
        /\ Forall (uses_sequence
                     (if getNextSequence text =? 0
                      then Sequence (Blockchain.txf b)
                      else getNextSequence text))
                  (retried_attempt (Blockchain.events r))
        /\ exists evs2,
            retried_attempt (Blockchain.events r) = (evs2 ++ [EvUnlock])%list
            /\ Pipeline.attempt
                 (WithSequence (Pipeline.prepared b memo)
                    (if getNextSequence text =? 0
                     then Sequence (Blockchain.txf b)
                     else getNextSequence text))
                 evs2)
    /\ (retries (Blockchain.events r) <> 0%nat ->
        exists text, failure_text (Blockchain.events r) = Some text)
    /\ (forall text2,
           failure_text (retried_attempt (Blockchain.events r)) = Some text2 ->
           retries (Blockchain.events r) = 1%nat
           /\ (Blockchain.ret r
               = inr (Wrapf "failed to broadcast"
                        (Wrapf "failed to calculate gas" (External text2)))
               \/ exists resp2,
                   attempt_response (retried_attempt (Blockchain.events r))
                   = Some resp2
                   /\ rejected resp2 = true
                   /\ RawLog resp2 = text2
                   /\ Blockchain.ret r
                      = inr (Wrapf "failed to broadcast"
                               (Newf "failed to broadcast tx"
                                     (TxResponse_String sdk resp2)))))
    /\ (forall e,
           Blockchain.ret r = inr (Wrapf "failed to broadcast" e) ->
           (exists inner, e = Wrapf "failed to calculate gas" inner)
           \/ (exists shown, e = Newf "failed to broadcast tx" shown) ->
           retries (Blockchain.events r) = 1%nat
           /\ exists text2,
               failure_text (retried_attempt (Blockchain.events r))
               = Some text2).
Proof.
  intros W Msg Tx sdk msgs memo b w r. subst r.
  rewrite Broadcast_events, Broadcast_ret.
  destruct (@retried_failure_is_returned W Msg Tx sdk msgs memo b w)
    as [Hreturned Honly].
  split; [|split; [|split]].
  - intros text Htext.
    destruct (@first_failure_retries W Msg Tx sdk msgs memo b w text Htext)
      as (Hr & Huses & _).
    destruct (@retried_attempt_runs W Msg Tx sdk msgs memo b w text Htext)
      as (_ & evs2 & Hlog & Hatt & _).
    rewrite prepared_corrected in Hatt.
    unfold Passes.corrected in Huses, Hatt.
    split; [exact Hr|]. split.
    + destruct (getNextSequence text =? 0); exact Huses.
    + exists evs2. split; [exact Hlog|].
      destruct (getNextSequence text =? 0); exact Hatt.
  - apply retry_only_after_failure.
  - intros text2 Htext2.
    destruct (Hreturned text2 Htext2) as [Hr [Hret|(resp2 & Ha & Hrej & Hraw & Hret)]].
    + split; [exact Hr|]. left. now rewrite Hret.
    + split; [exact Hr|]. right. exists resp2. rewrite Hret. repeat split; auto.
  - intros e Hret Hkind.
    destruct (Blockchain.ret (Blockchain.broadcast sdk false msgs memo b w))
      as [out|err] eqn:Hb; [discriminate|].
    inversion Hret; subst err.
    exact (Honly e eq_refl Hkind).
Qed.

(** C1, as the code has it: when each of [N] calls made one after the
    other on one instance returns a response and keeps its sequence (every
    factory of the call carries one sequence: there is no retry, or the
    retry ran with the sequence the call started with), the sequence of the
    receiver after the calls is the sequence before the first call plus [N]
    in [uint64] arithmetic, hence the integer sum when that fits in a
    [uint64].  Every call that returns a response leaves the sequence of
    its last attempt plus 1: the sequence before the call plus 1 when no
    attempt failed or the failure text gave 0, the number read from the
    failure text plus 1 otherwise.  A successful call keeps its sequence
    exactly when its failure text, if any, leaves the sequence as it was; a
    success at the first attempt does.  In the earlier revision the same
    count holds when every builder of each call carries one sequence, a
    call that returns a response leaves the account number of its last
    builder and the sequence of that builder plus 1, and a success after a
    single entry keeps its sequence. *)
Theorem sequence_counts_steady_successes :
  (forall (W Msg Tx : Type) (sdk : Collaborators W Msg Tx)
          (calls : list (list Msg * string))
          (b : Blockchain.broadcaster) (w : W),
      let runs := Blockchain.Broadcast_each sdk calls b w in
      is_uint64 (Sequence (Blockchain.txf b)) ->
      forallb Steady.steady_success runs = true ->
      Sequence (Blockchain.txf (Blockchain.receiver_after b runs))
      = uint64_wrap (Sequence (Blockchain.txf b) + Z.of_nat (List.length calls))
      /\ (Sequence (Blockchain.txf b) + Z.of_nat (List.length calls) <= maxUint64 ->
          Sequence (Blockchain.txf (Blockchain.receiver_after b runs))
          = Sequence (Blockchain.txf b) + Z.of_nat (List.length calls)))
  /\ (forall (W Msg Tx : Type) (sdk : Collaborators W Msg Tx)
             (msgs : list Msg) (memo : string)
             (b : Blockchain.broadcaster) (w : W) (resp : TxResponse),
         let r := Blockchain.Broadcast sdk msgs memo b w in
         Blockchain.ret r = inl resp ->
         Sequence (Blockchain.txf (Blockchain.after r))
         = uint64_add
             match failure_text (Blockchain.events r) with
             | Some text =>
                 if getNextSequence text =? 0
                 then Sequence (Blockchain.txf b)
                 else getNextSequence text
             | None => Sequence (Blockchain.txf b)
             end 1)
  /\ (forall (W Msg Tx : Type) (sdk : Collaborators W Msg Tx)
             (msgs : list Msg) (memo : string)
             (b : Blockchain.broadcaster) (w : W),
         let r := Blockchain.Broadcast sdk msgs memo b w in
         (Steady.steady_success r = true
          <-> exists resp,
              Blockchain.ret r = inl resp
              /\ match failure_text (Blockchain.events r) with
                 | Some text =>
                     (if getNextSequence text =? 0
                      then Sequence (Blockchain.txf b)
                      else getNextSequence text)
                     = Sequence (Blockchain.txf b)
                 | None => True
                 end)
         /\ (Blockchain.first_try r = true -> Steady.steady_success r = true))
  /\ (forall (W Msg : Type) (sdk : Legacy.Collaborators W Msg)
             (calls : list (list Msg * string))
             (b : Legacy.Broadcaster) (w : W),
         let runs := Legacy.Broadcast_each sdk calls b w in
         is_uint64 (Legacy.seq b) ->
         forallb Steady.legacy_steady_success runs = true ->
         Legacy.seq (Legacy.receiver_after b runs)
         = uint64_wrap (Legacy.seq b + Z.of_nat (List.length calls))
         /\ (Legacy.seq b + Z.of_nat (List.length calls) <= maxUint64 ->
             Legacy.seq (Legacy.receiver_after b runs)
             = Legacy.seq b + Z.of_nat (List.length calls)))
  /\ (forall (W Msg : Type) (sdk : Legacy.Collaborators W Msg)
             (msgs : list Msg) (memo : string)
             (b : Legacy.Broadcaster) (w : W),
         let r := Legacy.Broadcast sdk msgs memo b w in
         (forall resp,
             Legacy.ret r = inl resp ->
             exists earlier last rest,
               LegacyLog.builders (Legacy.events r) = (earlier ++ [last])%list
               /\ LegacyLog.builders (Legacy.events r)
                  = LegacyLog.builder b memo :: rest
               /\ Legacy.seq (Legacy.after r)
                  = uint64_add (Legacy.bldSequence last) 1
               /\ Legacy.num (Legacy.after r) = Legacy.bldAccountNumber last)
         /\ (Legacy.first_try r = true ->
             Steady.legacy_steady_success r = true)).
Proof.
  split; [|split; [|split; [|split]]].
  - intros W Msg Tx sdk calls b w runs Hb Hall. subst runs.
    destruct (@steady_count W Msg Tx sdk calls b w Hall) as [Hcount Hrange].
    assert (Hin : is_uint64
                    (Sequence (Blockchain.txf
                       (Blockchain.receiver_after b
                          (Blockchain.Broadcast_each sdk calls b w))))).
    { destruct calls as [|c calls]; [exact Hb | apply Hrange; discriminate]. }
    rewrite (uint64_wrap_small Hin) in Hcount.
    split; [exact Hcount|].
    intros Hfit. rewrite Hcount. apply uint64_wrap_small.
    unfold is_uint64 in *. lia.
  - intros W Msg Tx sdk msgs memo b w resp r Hret. subst r.
    rewrite Broadcast_ret in Hret. rewrite Broadcast_events, Broadcast_after.
    destruct (Blockchain.ret (Blockchain.broadcast sdk false msgs memo b w))
      as [out|err] eqn:Hb; [|discriminate].
    destruct (@success_sequence W Msg Tx sdk msgs memo b w out Hb)
      as (earlier & last & first & rest & _ & _ & _ & Hafter & Hlast).
    rewrite Hafter, Hlast. reflexivity.
  - intros W Msg Tx sdk msgs memo b w r. subst r. split.
    + exact (@steady_success_iff W Msg Tx sdk msgs memo b w).
    + exact (@first_try_is_steady W Msg Tx sdk msgs memo b w).
  - intros W Msg sdk calls b w runs Hb Hall. subst runs.
    destruct (@legacy_steady_count W Msg sdk calls b w Hall) as [Hcount Hrange].
    assert (Hin : is_uint64
                    (Legacy.seq
                       (Legacy.receiver_after b
                          (Legacy.Broadcast_each sdk calls b w)))).
    { destruct calls as [|c calls]; [exact Hb | apply Hrange; discriminate]. }
    rewrite (uint64_wrap_small Hin) in Hcount.
    split; [exact Hcount|].
    intros Hfit. rewrite Hcount. apply uint64_wrap_small.
    unfold is_uint64 in *. lia.
  - intros W Msg sdk msgs memo b w r. subst r. split.
    + intros resp Hret.
      exact (@legacy_success_sequence W Msg sdk msgs memo b w resp Hret).
    + exact (@legacy_first_try_is_steady W Msg sdk msgs memo b w).
Qed.

(** C1 fails as stated: with gas estimation on, a call whose first gas
    simulation reports the expected sequence 7 retries with 7 and succeeds;
    the only response of the node has code 0, the call returns it, and the
    sequence goes from 3 to 8. *)
Lemma success_after_correction_skips_ahead :
  let b := Scripted.account 0 3 in
  let w :=
    Scripted.node
      [inr "rpc error: account sequence mismatch, expected 7, got 3: incorrect account sequence";
       inl 200000]
      [inl Scripted.accepted] in
  let r := Blockchain.Broadcast Scripted.sdk ["send"] "" b w in
  Blockchain.ret r = inl Scripted.accepted
  /\ send_results (Blockchain.events r) = [inl Scripted.accepted]
  /\ Code Scripted.accepted = 0
  /\ Sequence (Blockchain.txf b) = 3
  /\ Sequence (Blockchain.txf (Blockchain.after r)) = 8
  /\ Sequence (Blockchain.txf (Blockchain.after r))
     <> Sequence (Blockchain.txf b) + 1.
Proof.
  vm_compute. repeat split; discriminate.
Qed.

(** C5 fails as stated: a first submission refused with code 5 and a raw
    log that names no sequence (extraction gives 0) is followed by a retry;
    the retry is accepted and the call returns its response, not the error
    of the first attempt. *)
Lemma retry_without_extracted_sequence :
  let b := Scripted.account 100 3 in
  let w :=
    Scripted.node []
      [inl (Scripted.refused 5 "insufficient funds"); inl Scripted.accepted] in
  let r := Blockchain.Broadcast Scripted.sdk ["send"] "" b w in
  failure_text (Blockchain.events r) = Some "insufficient funds"
  /\ getNextSequence "insufficient funds" = 0
  /\ retries (Blockchain.events r) = 1%nat
  /\ sends (Blockchain.events r) = 2%nat
  /\ Blockchain.ret r = inl Scripted.accepted.
Proof.
  vm_compute. repeat split.
Qed.

(** C4, as the code has it: the sentence of the claim is found, and 42
    extracted, when at least one character other than a line feed precedes
    it on its line; a text that contains no sentence of this form gives 0. *)
Theorem getNextSequence_extraction :
  (forall pre : string,
      pre <> EmptyString ->
      all_chars any_char pre = true ->
      getNextSequence
        (pre ++ "account sequence mismatch, expected 42, got 40: ...")
      = 42)
  /\ (forall m : string,
         ~ contains_mismatch_sentence m -> getNextSequence m = 0).
Proof.
  split.
  - intros pre Hne Hall.
    change (getNextSequence (pre ++ sample_sentence) = 42).
    unfold getNextSequence.
    rewrite (@FindStringSubmatch_hit accountSequenceMismatchErrorRegExp
               (pre ++ sample_sentence) (pre ++ sample_sentence) ["42"]).
    + reflexivity.
    + unfold accountSequenceMismatchErrorRegExp at 1. cbn [match_here].
      change (match_here _) with
        (match_here (tl accountSequenceMismatchErrorRegExp)).
      now rewrite greedy_prefix_stops_at_sample.
  - intros m Hno. unfold getNextSequence.
    destruct (FindStringSubmatch accountSequenceMismatchErrorRegExp m)
      as [|x found] eqn:Hfind; [reflexivity|].
    exfalso. apply Hno.
    apply (FindStringSubmatch_sound m Hfind). discriminate.
Qed.

(** C4 fails as stated: on the exact text of the claim, where nothing
    precedes the sentence, the pattern does not match and the result is 0. *)
Lemma bare_sentence_is_not_matched :
  getNextSequence "account sequence mismatch, expected 42, got 40: ..." = 0
  /\ getNextSequence "account sequence mismatch, expected 42, got 40: ..." <> 42.
Proof.
  vm_compute. split; [reflexivity | discriminate].
Qed.

(** C9: a [Broadcast] call takes the lock as its first step, releases it as
    its last, and leaves it alone in between; the recursive call of the
    retry does not touch it.  Hence, whatever the goroutines and their
    calls, a schedule that the mutex admits is a sequence of whole calls:
    no step of one call falls between two steps of another. *)
Theorem broadcasts_are_serialized :
  forall (W Msg Tx : Type) (sdk : Collaborators W Msg Tx),
    (forall msgs memo b w,
        Mutex.critical (Blockchain.events (Blockchain.Broadcast sdk msgs memo b w)))
    /\ (forall msgs memo b w,
           forallb lock_free
                   (Blockchain.events (Blockchain.broadcast sdk true msgs memo b w))
           = true)
    /\ (forall (calls : nat -> list (list event)) (s : Mutex.schedule),
           (forall g,
               Forall (fun log =>
                         exists msgs memo b w,
                           log = Blockchain.events
                                   (Blockchain.Broadcast sdk msgs memo b w))
                      (calls g)) ->
           (forall g, Mutex.thread g s = List.concat (calls g)) ->
           Mutex.admits false s = true ->
           exists blocks,
             s = Mutex.serial blocks
             /\ forall g, Mutex.calls_of g blocks = calls g).
Proof.
  intros W Msg Tx sdk.
  assert (Hcrit : forall msgs memo b w,
             Mutex.critical
               (Blockchain.events (Blockchain.Broadcast sdk msgs memo b w))).
  { intros msgs memo b w. rewrite Broadcast_events.
    apply call_holds_lock. }
  split; [exact Hcrit|]. split; [apply retry_leaves_lock|].
  intros calls s Hcalls Hthr Hadm.
  apply (@serialized_by_length (List.length s) s calls); auto.
  intros g. specialize (Hcalls g).
  induction Hcalls as [|log logs (msgs & memo & b & w & ->) _ IH];
    constructor; auto.
Qed.

(** ** The theorems at work on the scripted node *)

Lemma sequence_counts_steady_successes_witness :
  Sequence (Blockchain.txf
    (Blockchain.receiver_after (Scripted.account 0 3)
       (Blockchain.Broadcast_each Scripted.sdk
          [(["send"], ""); (["vote"], "")] (Scripted.account 0 3)
          (Scripted.node [inr "boom"; inl 200000; inl 200000]
             [inl Scripted.accepted; inl Scripted.accepted]))))
  = 3 + 2
  /\ Sequence (Blockchain.txf
       (Blockchain.after
          (Blockchain.Broadcast Scripted.sdk ["send"] "" (Scripted.account 0 3)
             (Scripted.node
                [inr "rpc error: account sequence mismatch, expected 7, got 3: incorrect account sequence";
                 inl 200000]
                [inl Scripted.accepted]))))
     = 8
  /\ Steady.steady_success
       (Blockchain.Broadcast Scripted.sdk ["send"] "" (Scripted.account 100 3)
          (Scripted.node [] [inl Scripted.accepted]))
     = true
  /\ Legacy.seq
       (Legacy.receiver_after (Scripted.legacy_account 3)
          (Legacy.Broadcast_each Scripted.legacy_sdk
             [(["send"], ""); (["vote"], "")] (Scripted.legacy_account 3)
             (Scripted.legacy_node [inl Scripted.accepted; inl Scripted.accepted])))
     = 3 + 2
  /\ Steady.legacy_steady_success
       (Legacy.Broadcast Scripted.legacy_sdk ["send"] ""
          (Scripted.legacy_account 3)
          (Scripted.legacy_node [inl Scripted.accepted]))
     = true.
Proof.
  split; [|split; [|split; [|split]]].
  - apply (proj1 sequence_counts_steady_successes
             Scripted.Node string Scripted.Tx Scripted.sdk
             [(["send"], ""); (["vote"], "")] (Scripted.account 0 3)
             (Scripted.node [inr "boom"; inl 200000; inl 200000]
                [inl Scripted.accepted; inl Scripted.accepted])).
    + vm_compute. split; discriminate.
    + vm_compute. reflexivity.
    + vm_compute. discriminate.
  - etransitivity.
    + apply (proj1 (proj2 sequence_counts_steady_successes)
               Scripted.Node string Scripted.Tx Scripted.sdk ["send"] ""
               (Scripted.account 0 3)
               (Scripted.node
                  [inr "rpc error: account sequence mismatch, expected 7, got 3: incorrect account sequence";
                   inl 200000]
                  [inl Scripted.accepted])
               Scripted.accepted).
      vm_compute. reflexivity.
    + vm_compute. reflexivity.
  - apply (proj2 (proj1 (proj2 (proj2 sequence_counts_steady_successes))
                    Scripted.Node string Scripted.Tx Scripted.sdk ["send"] ""
                    (Scripted.account 100 3)
                    (Scripted.node [] [inl Scripted.accepted]))).
    vm_compute. reflexivity.
  - apply (proj1 (proj2 (proj2 (proj2 sequence_counts_steady_successes)))
             Scripted.LegacyNode string Scripted.legacy_sdk
             [(["send"], ""); (["vote"], "")] (Scripted.legacy_account 3)
             (Scripted.legacy_node [inl Scripted.accepted; inl Scripted.accepted])).
    + vm_compute. split; discriminate.
    + vm_compute. reflexivity.
    + vm_compute. discriminate.
  - apply (proj2 (proj2 (proj2 (proj2 (proj2 sequence_counts_steady_successes)))
                    Scripted.LegacyNode string Scripted.legacy_sdk ["send"] ""
                    (Scripted.legacy_account 3)
                    (Scripted.legacy_node [inl Scripted.accepted]))).
    vm_compute. reflexivity.
Defined.

Lemma at_most_one_retry_witness :
  let r :=
    Blockchain.Broadcast Scripted.sdk ["send"] "" (Scripted.account 100 3)
      (Scripted.node []
         [inl (Scripted.refused 32 "x account sequence mismatch, expected 7, got 3: y");
          inl (Scripted.refused 32 "x account sequence mismatch, expected 9, got 7: y")]) in
  sends (Blockchain.events r) = 2%nat
  /\ retries (Blockchain.events r) = 1%nat
  /\ Blockchain.ret r
     = inr (Wrapf "failed to broadcast"
              (Newf "failed to broadcast tx"
                 "x account sequence mismatch, expected 9, got 7: y")).
Proof.
  intros r.
  destruct (at_most_one_retry Scripted.sdk ["send"] ""
              (Scripted.account 100 3)
              (Scripted.node []
                 [inl (Scripted.refused 32 "x account sequence mismatch, expected 7, got 3: y");
                  inl (Scripted.refused 32 "x account sequence mismatch, expected 9, got 7: y")]))
    as (_ & _ & Hboth).
  destruct (Hboth
              (Scripted.refused 32 "x account sequence mismatch, expected 7, got 3: y")
              (Scripted.refused 32 "x account sequence mismatch, expected 9, got 7: y")
              [])
    as (_ & H2 & H1 & Hret).
  - vm_compute. reflexivity.
  - vm_compute. reflexivity.
  - vm_compute. reflexivity.
  - repeat split; assumption.
Defined.

Lemma retry_uses_extracted_sequence_witness :
  let r :=
    Blockchain.Broadcast Scripted.sdk ["send"] "" (Scripted.account 100 3)
      (Scripted.node []
         [inl (Scripted.refused 32 "x account sequence mismatch, expected 7, got 3: y");
          inl Scripted.accepted]) in
  Forall (uses_sequence 7) (retried_attempt (Blockchain.events r))
  /\ (exists evs2,
         retried_attempt (Blockchain.events r) = (evs2 ++ [EvUnlock])%list
         /\ Pipeline.attempt
              (WithSequence (Pipeline.prepared (Scripted.account 100 3) "") 7)
              evs2)
  /\ (exists f,
         Sequence f = 7
         /\ Memo f = ""
         /\ Steady.submitted_from Scripted.sdk ["send"] "alice" f
              [Byte.x07] (inl Scripted.accepted))
  /\ (exists earlier txBytes,
         retried_attempt (Blockchain.events r)
         = (earlier ++ [EvBroadcastTx txBytes (inl Scripted.accepted); EvUnlock])%list)
  /\ Sequence (Blockchain.txf (Blockchain.after r)) = 7 + 1.
Proof.
  intros r.
  destruct (@retry_uses_extracted_sequence
              Scripted.Node string Scripted.Tx Scripted.sdk ["send"] ""
              (Scripted.account 100 3)
              (Scripted.node []
                 [inl (Scripted.refused 32 "x account sequence mismatch, expected 7, got 3: y");
                  inl Scripted.accepted])
              "x account sequence mismatch, expected 7, got 3: y" 7)
    as (_ & Huses & Hruns & Hsub & Hafter).
  - vm_compute. reflexivity.
  - vm_compute. reflexivity.
  - lia.
  - split; [exact Huses|]. split; [exact Hruns|]. split.
    + apply (Hsub [Byte.x07] (inl Scripted.accepted)).
      vm_compute. tauto.
    + destruct (Hafter Scripted.accepted) as (Hlast & _ & Hexact).
      * vm_compute. reflexivity.
      * split; [exact Hlast|]. apply Hexact. vm_compute. reflexivity.
Defined.

Lemma getNextSequence_extraction_witness :
  getNextSequence
    ("rpc error: code = InvalidArgument desc = "
       ++ "account sequence mismatch, expected 42, got 40: ...") = 42
  /\ getNextSequence "insufficient funds" = 0.
Proof.
  split.
  - apply (proj1 getNextSequence_extraction).
    + discriminate.
    + vm_compute. reflexivity.
  - apply (proj2 getNextSequence_extraction).
    intros H. apply mismatch_sentence_needs_room in H.
    vm_compute in H. lia.
Defined.

Lemma first_failure_always_retries_witness :
  let r :=
    Blockchain.Broadcast Scripted.sdk ["send"] "" (Scripted.account 100 3)
      (Scripted.node []
         [inl (Scripted.refused 5 "insufficient funds");
          inl (Scripted.refused 5 "insufficient fee")]) in
  (retries (Blockchain.events r) = 1%nat
   /\ Forall (uses_sequence 3) (retried_attempt (Blockchain.events r))
   /\ exists evs2,
       retried_attempt (Blockchain.events r) = (evs2 ++ [EvUnlock])%list
       /\ Pipeline.attempt
            (WithSequence (Pipeline.prepared (Scripted.account 100 3) "") 3)
            evs2)
  /\ (exists text, failure_text (Blockchain.events r) = Some text)
  /\ (Blockchain.ret r
      = inr (Wrapf "failed to broadcast"
               (Wrapf "failed to calculate gas" (External "insufficient fee")))
      \/ exists resp2,
          attempt_response (retried_attempt (Blockchain.events r)) = Some resp2
          /\ rejected resp2 = true
          /\ RawLog resp2 = "insufficient fee"
          /\ Blockchain.ret r
             = inr (Wrapf "failed to broadcast"
                      (Newf "failed to broadcast tx"
                            (TxResponse_String Scripted.sdk resp2))))
  /\ exists text2,
      failure_text (retried_attempt (Blockchain.events r)) = Some text2.
Proof.
  intros r.
  destruct (@first_failure_always_retries
              Scripted.Node string Scripted.Tx Scripted.sdk ["send"] ""
              (Scripted.account 100 3)
              (Scripted.node []
                 [inl (Scripted.refused 5 "insufficient funds");
                  inl (Scripted.refused 5 "insufficient fee")]))
    as (Hretry & Honly & Hreturned & Hfrom).
  split; [|split; [|split]].
  - apply (Hretry "insufficient funds"). vm_compute. reflexivity.
  - apply Honly. vm_compute. discriminate.
  - apply (Hreturned "insufficient fee"). vm_compute. reflexivity.
  - apply (Hfrom (Newf "failed to broadcast tx" "insufficient fee")).
    + vm_compute. reflexivity.
    + right. eexists. reflexivity.
Defined.

Lemma mempool_code_returns_sentinel_witness :
  (let r :=
     Blockchain.broadcast Scripted.sdk false ["send"] "" (Scripted.account 100 3)
       (Scripted.node [] [inl (Scripted.refused 19 "tx already in mempool")]) in
   Blockchain.ret r = inr ErrTxInMempoolCache
   /\ retries (Blockchain.events r) = 0%nat
   /\ sends (Blockchain.events r) = 1%nat
   /\ Blockchain.after r = Scripted.account 100 3)
  /\ (let r :=
        Blockchain.Broadcast Scripted.sdk ["send"] "" (Scripted.account 100 3)
          (Scripted.node [] [inl (Scripted.refused 19 "tx already in mempool")]) in
      Blockchain.ret r = inr (Wrapf "failed to broadcast" ErrTxInMempoolCache)
      /\ retries (Blockchain.events r) = 0%nat
      /\ sends (Blockchain.events r) = 1%nat
      /\ Blockchain.after r = Scripted.account 100 3)
  /\ (let r :=
        Blockchain.Broadcast Scripted.sdk ["send"] "" (Scripted.account 100 3)
          (Scripted.node []
             [inl (Scripted.refused 32 "x account sequence mismatch, expected 7, got 3: y");
              inl (Scripted.refused 19 "tx already in mempool")]) in
      exists err, Blockchain.ret r = inr err /\ Is_mempool err = true)
  /\ (let r :=
        Legacy.Broadcast Scripted.legacy_sdk ["send"] "" (Scripted.legacy_account 3)
          (Scripted.legacy_node [inl (Scripted.refused 19 "tx already in mempool")]) in
      (exists err, Legacy.ret r = inr err /\ Is_mempool err = true)
      /\ Legacy.calls (Legacy.events r) = 1%nat
      /\ Legacy.after r = Scripted.legacy_account 3).
Proof.
  destruct mempool_code_returns_sentinel as (Hattempt & Hcall & Hany & Hlegacy).
  split; [|split; [|split]].
  - apply (Hattempt _ _ _ Scripted.sdk false ["send"] "" (Scripted.account 100 3)
             (Scripted.node [] [inl (Scripted.refused 19 "tx already in mempool")])
             (Scripted.refused 19 "tx already in mempool"));
      vm_compute; reflexivity.
  - apply (Hcall _ _ _ Scripted.sdk ["send"] "" (Scripted.account 100 3)
             (Scripted.node [] [inl (Scripted.refused 19 "tx already in mempool")])
             (Scripted.refused 19 "tx already in mempool"));
      vm_compute; reflexivity.
  - apply (Hany _ _ _ Scripted.sdk ["send"] "" (Scripted.account 100 3)
             (Scripted.node []
                [inl (Scripted.refused 32 "x account sequence mismatch, expected 7, got 3: y");
                 inl (Scripted.refused 19 "tx already in mempool")])
             (Scripted.refused 19 "tx already in mempool")).
    + vm_compute. right. left. reflexivity.
    + vm_compute. reflexivity.
  - apply (Hlegacy _ _ Scripted.legacy_sdk ["send"] "" (Scripted.legacy_account 3)
             (Scripted.legacy_node [inl (Scripted.refused 19 "tx already in mempool")])
             (Scripted.refused 19 "tx already in mempool"));
      vm_compute; reflexivity.
Defined.

Lemma local_failures_are_final_witness :
  (let r :=
     Blockchain.broadcast Scripted.sdk true ["send"] "" (Scripted.account 100 3)
       (Scripted.mkNode [] [None] [Some "key not found"] [] [] [] []) in
   Blockchain.ret r = inr (Wrapf "failed to sign tx" (External "key not found"))
   /\ retries (Blockchain.events r) = 0%nat
   /\ Blockchain.after r = Scripted.account 100 3)
  /\ (let r :=
        Blockchain.Broadcast Scripted.sdk ["send"] "" (Scripted.account 100 3)
          (Scripted.node [] [inr "connection refused"]) in
      Blockchain.ret r
      = inr (Wrapf "failed to broadcast"
               (Wrapf "failed to broadcast tx" (External "connection refused")))
      /\ retries (Blockchain.events r) = 0%nat
      /\ Blockchain.after r = Scripted.account 100 3)
  /\ (let r :=
        Blockchain.Broadcast Scripted.sdk ["send"] "" (Scripted.account 100 3)
          (Scripted.mkNode [] [None; Some "invalid message"] [] []
             [inl (Scripted.refused 5 "insufficient funds")] [] []) in
      Blockchain.ret r
      = inr (Wrapf "failed to broadcast"
               (Wrapf "failed to build tx" (External "invalid message")))
      /\ retries (Blockchain.events r) = 1%nat)
  /\ (let r :=
        Legacy.Broadcast Scripted.legacy_sdk ["send"] "" (Scripted.legacy_account 3)
          (Scripted.mkLegacyNode [] [Some "key not found"] [] []) in
      Legacy.ret r
      = inr (Wrapf "failed to broadcast"
               (Wrapf "failed to build and sign tx" (External "key not found")))
      /\ Legacy.calls (Legacy.events r) = 1%nat
      /\ Legacy.after r = Scripted.legacy_account 3).
Proof.
  destruct local_failures_are_final as (Hattempt & Hcall & Hretried & Hlegacy).
  split; [|split; [|split]].
  - apply (Hattempt _ _ _ Scripted.sdk true ["send"] "" (Scripted.account 100 3)
             (Scripted.mkNode [] [None] [Some "key not found"] [] [] [] [])
             SignTx "key not found").
    vm_compute. reflexivity.
  - apply (Hcall _ _ _ Scripted.sdk ["send"] "" (Scripted.account 100 3)
             (Scripted.node [] [inr "connection refused"])
             Send "connection refused").
    vm_compute. reflexivity.
  - apply (Hretried _ _ _ Scripted.sdk ["send"] "" (Scripted.account 100 3)
             (Scripted.mkNode [] [None; Some "invalid message"] [] []
                [inl (Scripted.refused 5 "insufficient funds")] [] [])
             Build "invalid message").
    vm_compute. reflexivity.
  - apply (Hlegacy _ _ Scripted.legacy_sdk ["send"] "" (Scripted.legacy_account 3)
             (Scripted.mkLegacyNode [] [Some "key not found"] [] [])
             Legacy.BuildAndSignTx "key not found").
    vm_compute. reflexivity.
Defined.

Lemma refreshSequence_overwrites_witness :
  (let r :=
     Blockchain.refreshSequence Scripted.sdk (Scripted.account 100 3)
       (Scripted.mkNode [] [] [] [] []
          [Some "account decentr1alice does not exist"] []) in
   Blockchain.ret r
   = Some (Wrapf "failed to EnsureExists"
             (External "account decentr1alice does not exist"))
   /\ Blockchain.after r = Scripted.account 100 3)
  /\ (let r :=
        Blockchain.refreshSequence Scripted.sdk (Scripted.account 100 3)
          (Scripted.mkNode [] [] [] [] [] [None] [inl (17, 42)]) in
      Blockchain.ret r = None
      /\ AccountNumber (Blockchain.txf (Blockchain.after r)) = 17
      /\ Sequence (Blockchain.txf (Blockchain.after r)) = 42)
  /\ (let r :=
        Blockchain.refreshSequence Scripted.sdk (Scripted.account 100 3)
          (Scripted.mkNode [] [] [] [] [] [None] [inr "connection refused"]) in
      Blockchain.ret r
      = Some (Wrapf "failed to get GetAccountNumberSequence"
                (External "connection refused"))
      /\ Blockchain.after r = Scripted.account 100 3)
  /\ (let r :=
        Legacy.refreshSequence Scripted.legacy_sdk (Scripted.legacy_account 3)
          (Scripted.mkLegacyNode [] [] [] [(17, 42, None)]) in
      Legacy.num (Legacy.after r) = 17
      /\ Legacy.seq (Legacy.after r) = 42
      /\ Legacy.ret r = None).
Proof.
  destruct refreshSequence_overwrites as (Hcurrent & Hlegacy).
  split; [|split; [|split]].
  - destruct (Hcurrent _ _ _ Scripted.sdk (Scripted.account 100 3)
                (Scripted.mkNode [] [] [] [] []
                   [Some "account decentr1alice does not exist"] []))
      as (Hmissing & _ & _).
    apply (Hmissing (Scripted.mkNode [] [] [] [] [] [] [])).
    vm_compute. reflexivity.
  - destruct (Hcurrent _ _ _ Scripted.sdk (Scripted.account 100 3)
                (Scripted.mkNode [] [] [] [] [] [None] [inl (17, 42)]))
      as (_ & Hfound & _).
    destruct (Hfound (Scripted.mkNode [] [] [] [] [] [] [inl (17, 42)])
                (Scripted.mkNode [] [] [] [] [] [] []) 17 42)
      as (Hret & Hnum & Hseq & _).
    + vm_compute. reflexivity.
    + vm_compute. reflexivity.
    + repeat split; assumption.
  - destruct (Hcurrent _ _ _ Scripted.sdk (Scripted.account 100 3)
                (Scripted.mkNode [] [] [] [] [] [None] [inr "connection refused"]))
      as (_ & _ & Hfailed).
    apply (Hfailed (Scripted.mkNode [] [] [] [] [] [] [inr "connection refused"])
             (Scripted.mkNode [] [] [] [] [] [] [])).
    + vm_compute. reflexivity.
    + vm_compute. reflexivity.
  - apply (Hlegacy _ _ Scripted.legacy_sdk (Scripted.legacy_account 3)
             (Scripted.mkLegacyNode [] [] [] [(17, 42, None)])
             (Scripted.mkLegacyNode [] [] [] []) 17 42 None).
    vm_compute. reflexivity.
Defined.

(** Two goroutines, one call each, the second scheduled after the first. *)
Lemma broadcasts_are_serialized_witness :
  let log0 :=
    Blockchain.events
      (Blockchain.Broadcast Scripted.sdk ["send"] "" (Scripted.account 100 3)
         (Scripted.node [] [inl Scripted.accepted])) in
  let log1 :=
    Blockchain.events
      (Blockchain.Broadcast Scripted.sdk ["vote"] "" (Scripted.account 100 4)
         (Scripted.node [] [inl Scripted.accepted])) in
  let calls := fun g : nat =>
    match g with
    | O => [log0]
    | S O => [log1]
    | _ => []
    end in
  exists blocks,
    (Mutex.block 0 log0 ++ Mutex.block 1 log1)%list = Mutex.serial blocks
    /\ forall g, Mutex.calls_of g blocks = calls g.
Proof.
  intros log0 log1 calls.
  apply (proj2 (proj2 (broadcasts_are_serialized Scripted.sdk)) calls).
  - intros [|[|g]]; repeat constructor.
    + exists ["send"], "", (Scripted.account 100 3),
        (Scripted.node [] [inl Scripted.accepted]). reflexivity.
    + exists ["vote"], "", (Scripted.account 100 4),
        (Scripted.node [] [inl Scripted.accepted]). reflexivity.
  - intros [|[|g]]; vm_compute; reflexivity.
  - vm_compute. reflexivity.
Defined.

(** ** Further properties of the code *)

Import Sentence Pipeline.

(** X1: a text in which the sentence of the node, with the numbers [n] and
    [got], follows at least one character on the first line, and is followed
    on that line by a text that does not repeat the words of the sentence,
    gives the number that [n] writes, cut at the largest [uint64].  What
    stands before the sentence on the line may hold earlier sentences: the
    last one is read. *)
Theorem getNextSequence_reads_the_sentence :
  forall pre n got post : string,
    pre <> EmptyString ->
    all_chars any_char pre = true ->
    is_number n ->
    is_number got ->
    begins any_char post = true ->
    occurs expected_literal post = false ->
    getNextSequence (pre ++ mismatch_sentence n got ++ post)
    = saturated (decimal n).
Proof.
  intros pre n got post Hne Hall Hn Hg Hb Hpost.
  destruct (@sentence_is_found pre n got post Hne Hall Hn Hg Hb Hpost) as [m Hm].
  rewrite (@getNextSequence_of_match m n _ Hm).
  now apply ParseUint_value.
Qed.

(** X2: a result other than 0 is read from a sentence of the text: the text
    is some [skipped] characters, then on one line a non-empty [before], the
    sentence with two numbers and a non-empty [after]; the result is the
    number that the first of them writes, cut at the largest [uint64], and
    that number is not 0. *)
Theorem getNextSequence_nonzero_is_read :
  forall m : string,
    getNextSequence m <> 0 ->
    exists skipped before n got after rest,
      m = skipped ++ before ++ mismatch_sentence n got ++ after ++ rest
      /\ (before <> EmptyString /\ all_chars any_char before = true)
      /\ (after <> EmptyString /\ all_chars any_char after = true)
      /\ is_number n /\ is_number got
      /\ getNextSequence m = saturated (decimal n)
      /\ 0 < decimal n.
Proof.
  intros m Hnz.
  destruct (FindStringSubmatch accountSequenceMismatchErrorRegExp m)
    as [|x found] eqn:Hfind.
  { exfalso. apply Hnz. unfold getNextSequence. now rewrite Hfind. }
  destruct (@FindStringSubmatch_found _ _ _ _ Hfind) as (skipped & s & -> & Hm).
  destruct (@match_here_on_one_line _ _ _ Hm)
    as (before & n & got & after & rest & Hn & Hg & -> & Hb & Ha & -> & ->).
  assert (Hval : getNextSequence
                   (skipped ++ (before ++ mismatch_sentence n got ++ after) ++ rest)
                 = saturated (decimal n)).
  { rewrite (@getNextSequence_of_match _ _ _ Hfind). now apply ParseUint_value. }
  exists skipped, before, n, got, after, rest.
  repeat split; try apply Hb; try apply Ha; try apply Hn; try apply Hg.
  - now rewrite !append_assoc.
  - exact Hval.
  - rewrite Hval in Hnz. unfold saturated in Hnz.
    pose proof (decimal_nonneg n). rewrite maxUint64_value in Hnz. lia.
Qed.

(** X3: when the first attempt of a call fails with a text in which the
    sentence of the node stands as in X1, every factory of the retried
    attempt carries the number written in the sentence, cut at the largest
    [uint64]; when that number is 0 the retried attempt runs with the
    sequence the receiver had. *)
Theorem retry_runs_with_the_written_number :
  forall (W Msg Tx : Type) (sdk : Collaborators W Msg Tx)
         (msgs : list Msg) (memo : string)
         (b : Blockchain.broadcaster) (w : W) (pre n got post : string),
    let r := Blockchain.Broadcast sdk msgs memo b w in
    pre <> EmptyString ->
    all_chars any_char pre = true ->
    is_number n ->
    is_number got ->
    begins any_char post = true ->
    occurs expected_literal post = false ->
    failure_text (Blockchain.events r)
    = Some (pre ++ mismatch_sentence n got ++ post) ->
    Forall (uses_sequence
              (if decimal n =? 0 then Sequence (Blockchain.txf b)
               else saturated (decimal n)))
           (retried_attempt (Blockchain.events r)).
Proof.
  intros W Msg Tx sdk msgs memo b w pre n got post r
         Hne Hall Hn Hg Hb Hpost Htext. subst r.
  rewrite Broadcast_events in *.
  destruct (@first_failure_retries W Msg Tx sdk msgs memo b w _ Htext)
    as (_ & Huses & _).
  unfold Passes.corrected in Huses.
  rewrite (@sentence_is_found_value pre n got post Hne Hall Hn Hg Hb Hpost)
    in Huses.
  assert (Hsat : (saturated (decimal n) =? 0) = (decimal n =? 0)).
  { unfold saturated. pose proof (decimal_nonneg n).
    rewrite maxUint64_value.
    destruct (decimal n =? 0) eqn:E.
    - apply Z.eqb_eq in E. rewrite E. reflexivity.
    - apply Z.eqb_neq in E. apply Z.eqb_neq. lia. }
  rewrite Hsat in Huses.
  destruct (decimal n =? 0); exact Huses.
Qed.

(** X4: the log of a call of [Broadcast] is the lock, one attempt and the
    unlock, or the lock, a first attempt that ends in a failure text, the
    recursive call with the attempt of the corrected receiver, and the
    unlock.  An attempt is the gas simulation when the gas of the factory is
    0, and then building, signing, encoding and submitting, each stage only
    after the one before it succeeded. *)
Theorem Broadcast_follows_the_pipeline :
  forall (W Msg Tx : Type) (sdk : Collaborators W Msg Tx)
         (msgs : list Msg) (memo : string)
         (b : Blockchain.broadcaster) (w : W),
    call_log b memo (Blockchain.events (Blockchain.Broadcast sdk msgs memo b w)).
Proof.
  intros W Msg Tx sdk msgs memo b w.
  exact (@Broadcast_call_log W Msg Tx sdk msgs memo b w).
Qed.

(** X5: every factory that a call hands to the gas simulation, to the
    builder or to the signer, in the first attempt and in the retried one,
    carries the memo of the call, the account number and the fees of the
    receiver, and the gas adjustment of the receiver, or 1 when that is
    0. *)
Theorem factories_carry_the_call :
  forall (W Msg Tx : Type) (sdk : Collaborators W Msg Tx)
         (msgs : list Msg) (memo : string)
         (b : Blockchain.broadcaster) (w : W),
    Forall (fun f =>
              Memo f = memo
              /\ AccountNumber f = AccountNumber (Blockchain.txf b)
              /\ Fees f = Fees (Blockchain.txf b)
              /\ GasAdjustment f
                 = if PrimFloat.eqb (GasAdjustment (Blockchain.txf b)) 0%float
                   then 1%float else GasAdjustment (Blockchain.txf b))
           (factories (Blockchain.events (Blockchain.Broadcast sdk msgs memo b w))).
Proof.
  intros W Msg Tx sdk msgs memo b w.
  exact (@Broadcast_carries W Msg Tx sdk msgs memo b w).
Qed.

(** X6: a receiver whose factory has a gas limit other than 0 never runs
    the gas simulation, and builds and signs with that limit, in the retried
    attempt as well. *)
Theorem fixed_gas_is_never_simulated :
  forall (W Msg Tx : Type) (sdk : Collaborators W Msg Tx)
         (msgs : list Msg) (memo : string)
         (b : Blockchain.broadcaster) (w : W),
    Gas (Blockchain.txf b) <> 0 ->
    let evs := Blockchain.events (Blockchain.Broadcast sdk msgs memo b w) in
    simulations evs = []
    /\ Forall (fun f => Gas f = Gas (Blockchain.txf b)) (factories evs).
Proof.
  intros W Msg Tx sdk msgs memo b w G evs. subst evs.
  exact (@Broadcast_fixed_gas W Msg Tx sdk msgs memo b w G).
Qed.

(** X7: a receiver whose factory has the gas limit 0 runs the gas
    simulation once in each attempt, and every transaction that is built is
    built with the gas that the simulation before it estimated: the
    estimates of the log are the gas limits given to the builder, in
    order. *)
Theorem estimated_gas_reaches_the_builder :
  forall (W Msg Tx : Type) (sdk : Collaborators W Msg Tx)
         (msgs : list Msg) (memo : string)
         (b : Blockchain.broadcaster) (w : W),
    Gas (Blockchain.txf b) = 0 ->
    let evs := Blockchain.events (Blockchain.Broadcast sdk msgs memo b w) in
    map Gas (built evs) = estimated evs
    /\ List.length (simulations evs) = S (retries evs).
Proof.
  intros W Msg Tx sdk msgs memo b w G evs. subst evs.
  exact (@Broadcast_estimated_gas W Msg Tx sdk msgs memo b w G).
Qed.

(** X8: whatever is submitted to the node comes right after a successful
    build, a successful signature with the same factory and a successful
    encoding: no submission without them. *)
Theorem nothing_is_sent_out_of_order :
  forall (W Msg Tx : Type) (sdk : Collaborators W Msg Tx)
         (msgs : list Msg) (memo : string)
         (b : Blockchain.broadcaster) (w : W)
         (before : list event) (txBytes : list Byte.byte)
         (r : TxResponse + string) (rest : list event),
    Blockchain.events (Blockchain.Broadcast sdk msgs memo b w)
    = (before ++ EvBroadcastTx txBytes r :: rest)%list ->
    exists earlier f,
      before
      = (earlier ++ [EvBuildUnsignedTx f None; EvSign f None; EvEncode None])%list.
Proof.
  intros W Msg Tx sdk msgs memo b w before txBytes r rest H.
  exact (@Broadcast_sent_in_order W Msg Tx sdk msgs memo b w before txBytes r rest H).
Qed.

(** X9: calls of [Broadcast], one or many in a row, change nothing of the
    receiver but the sequence of its factory: the context, the account
    number, the gas limit, the gas adjustment, the memo and the fees stay as
    they were; the memo of a call and the gas it estimated are not kept. *)
Theorem Broadcast_changes_the_sequence_only :
  forall (W Msg Tx : Type) (sdk : Collaborators W Msg Tx)
         (calls : list (list Msg * string))
         (b : Blockchain.broadcaster) (w : W),
    let b' := Blockchain.receiver_after b (Blockchain.Broadcast_each sdk calls b w) in
    Blockchain.ctx b' = Blockchain.ctx b
    /\ Blockchain.txf b'
       = WithSequence (Blockchain.txf b) (Sequence (Blockchain.txf b')).
Proof.
  intros W Msg Tx sdk calls b w b'. subst b'.
  exact (@Broadcast_each_frame W Msg Tx sdk calls b w).
Qed.

(** X10: the response that [Broadcast] returns has code 0 and is the last
    answer of the node in the call; an answer before it, if there is one, is
    a response that the node rejected. *)
Theorem Broadcast_returns_an_accepted_response :
  forall (W Msg Tx : Type) (sdk : Collaborators W Msg Tx)
         (msgs : list Msg) (memo : string)
         (b : Blockchain.broadcaster) (w : W) (resp : TxResponse),
    let r := Blockchain.Broadcast sdk msgs memo b w in
    Blockchain.ret r = inl resp ->
    Code resp = 0
    /\ exists earlier,
        send_results (Blockchain.events r) = (earlier ++ [inl resp])%list
        /\ Forall (fun x => exists r1, x = inl r1 /\ rejected r1 = true) earlier.
Proof.
  intros W Msg Tx sdk msgs memo b w resp r Hret. subst r.
  rewrite Broadcast_events. rewrite Broadcast_ret in Hret.
  destruct (Blockchain.ret (Blockchain.broadcast sdk false msgs memo b w))
    as [out|err] eqn:Hb; [|discriminate].
  inversion Hret; subst.
  exact (@broadcast_success W Msg Tx sdk msgs memo b w resp Hb).
Qed.

(** X11: a call of [Broadcast] that returns an error never advances the
    sequence, and what it leaves in the receiver is decided by the failure
    text of its first attempt: with no failure text the receiver is as it
    was; with a failure text the stored sequence is the number read from
    the text, or the old sequence when that number is 0, whatever the
    retried attempt did.  A correction made after the first attempt is thus
    kept when the retried attempt fails. *)
Theorem failed_Broadcast_keeps_or_corrects :
  forall (W Msg Tx : Type) (sdk : Collaborators W Msg Tx)
         (msgs : list Msg) (memo : string)
         (b : Blockchain.broadcaster) (w : W) (err : error),
    let r := Blockchain.Broadcast sdk msgs memo b w in
    Blockchain.ret r = inr err ->
    Blockchain.after r
    = match failure_text (Blockchain.events r) with
      | Some text =>
          if getNextSequence text =? 0 then b
          else Blockchain.set_txf b
                 (WithSequence (Blockchain.txf b) (getNextSequence text))
      | None => b
      end.
Proof.
  intros W Msg Tx sdk msgs memo b w err r Hret. subst r.
  rewrite Broadcast_events, Broadcast_after. rewrite Broadcast_ret in Hret.
  destruct (Blockchain.ret (Blockchain.broadcast sdk false msgs memo b w))
    as [out|err'] eqn:Hb; [discriminate|].
  rewrite (@failed_call_receiver W Msg Tx sdk msgs memo b w err' Hb).
  destruct (failure_text _) as [text|]; [|reflexivity].
  unfold Passes.corrected. now destruct (getNextSequence text =? 0).
Qed.

(** X12: an error of [Broadcast] in which [errors.Is] finds
    [ErrTxInMempoolCache] comes from the mempool-cache code only: the last
    answer of the node in the call is a response with that code. *)
Theorem sentinel_only_for_the_mempool_code :
  forall (W Msg Tx : Type) (sdk : Collaborators W Msg Tx)
         (msgs : list Msg) (memo : string)
         (b : Blockchain.broadcaster) (w : W) (err : error),
    let r := Blockchain.Broadcast sdk msgs memo b w in
    Blockchain.ret r = inr err ->
    Is_mempool err = true ->
    exists earlier resp,
      send_results (Blockchain.events r) = (earlier ++ [inl resp])%list
      /\ Code resp = ABCICode_ErrTxInMempoolCache.
Proof.
  intros W Msg Tx sdk msgs memo b w err r Hret His. subst r.
  rewrite Broadcast_events. rewrite Broadcast_ret in Hret.
  destruct (Blockchain.ret (Blockchain.broadcast sdk false msgs memo b w))
    as [out|err'] eqn:Hb; [discriminate|].
  inversion Hret; subst. cbn [Is_mempool] in His.
  exact (@broadcast_sentinel W Msg Tx sdk msgs memo b w err' Hb His).
Qed.

(** X13: a broadcaster that [New] returns is made of the key of the
    configured name, of the gas limit, the gas adjustment and the fees of
    the configuration, and of the account number and the sequence that the
    node reported for the address of the key, after the check that the
    account exists; nothing else of the factory of the SDK is read but its
    memo.  In the earlier revision the broadcaster has the key, the
    configuration and the two numbers of the account query. *)
Theorem New_starts_from_config_and_node :
  (forall (W Msg Tx Keyring Info Client Coins : Type)
          (cs : Startup.Collaborators W Keyring Info Client Coins)
          (sdk : Collaborators W Msg Tx)
          (cfg : Startup.Config Coins) (w w' : W) (b : Blockchain.broadcaster),
      Startup.New cs sdk cfg w = (w', inl b) ->
      exists w1 kr w2 acc w3 w4 n s,
        Startup.Key cs w1 kr (Startup.From cfg) = (w2, inl acc)
        /\ EnsureExists sdk w3 (Startup.GetAddress cs acc) = (w4, None)
        /\ GetAccountNumberSequence sdk w4 (Startup.GetAddress cs acc)
           = (w', inl (n, s))
        /\ b = Blockchain.mkBroadcaster
                 (Blockchain.mkContext (Startup.GetName cs acc)
                                       (Startup.GetAddress cs acc))
                 (mkFactory n s (Startup.Gas cfg) (Startup.GasAdjust cfg)
                    (Memo (Startup.NewFactoryCLI cs
                             (Blockchain.mkContext (Startup.GetName cs acc)
                                                   (Startup.GetAddress cs acc))))
                    (Startup.Coins_String cs (Startup.Fees cfg))))
  /\ (forall (W Msg Keybase Info Client : Type)
             (cs : LegacyStartup.Collaborators W Keybase Info Client)
             (sdk : Legacy.Collaborators W Msg)
             (cfg : LegacyStartup.Config) (w w' : W) (b : Legacy.Broadcaster),
         LegacyStartup.New cs sdk cfg w = (w', inl b) ->
         exists w1 kb w2 acc n s,
           LegacyStartup.Get cs w1 kb (LegacyStartup.From cfg) = (w2, inl acc)
           /\ Legacy.GetAccountNumberSequence sdk w2
                (LegacyStartup.GetAddress cs acc)
              = (w', (n, s, None))
           /\ b = Legacy.mkBroadcaster
                    (LegacyStartup.GetName cs acc)
                    (LegacyStartup.GetAddress cs acc)
                    (LegacyStartup.GenesisKeyPass cfg)
                    (LegacyStartup.ChainID cfg) n s
                    (LegacyStartup.Fees cfg) (LegacyStartup.Gas cfg)
                    (LegacyStartup.GasAdjust cfg)).
Proof.
  split.
  - intros W Msg Tx Keyring Info Client Coins cs sdk cfg w w' b H.
    exact (@New_success W Msg Tx Keyring Info Client Coins cs sdk cfg w w' b H).
  - intros W Msg Keybase Info Client cs sdk cfg w w' b H.
    apply legacy_New_cases in H.
    destruct H as [[text [H|H]]|H]; try discriminate.
    destruct H as (w1 & kb & w2 & acc & n & s & failed & Hget & Hq & Hres).
    destruct failed as [text|]; [discriminate|].
    inversion Hres; subst.
    now exists w1, kb, w2, acc, n, s.
Qed.


(** X15: the first call of [Broadcast] on a broadcaster that [New] returned
    hands out factories with the account number that the node reported to
    [New], the memo of the call, the fees of the configuration and its gas
    adjustment, or 1 when that is 0; its first attempt runs with the
    sequence that the node reported to [New]. *)
Theorem first_Broadcast_after_New :
  forall (W Msg Tx Keyring Info Client Coins : Type)
         (cs : Startup.Collaborators W Keyring Info Client Coins)
         (sdk : Collaborators W Msg Tx)
         (cfg : Startup.Config Coins) (w w' : W) (b : Blockchain.broadcaster)
         (msgs : list Msg) (memo : string),
    Startup.New cs sdk cfg w = (w', inl b) ->
    exists w4 n s,
      GetAccountNumberSequence sdk w4 (Blockchain.From b) = (w', inl (n, s))
      /\ let r := Blockchain.Broadcast sdk msgs memo b w' in
         Forall (fun f =>
                   AccountNumber f = n
                   /\ Memo f = memo
                   /\ Fees f = Startup.Coins_String cs (Startup.Fees cfg)
                   /\ GasAdjustment f
                      = if PrimFloat.eqb (Startup.GasAdjust cfg) 0%float
                        then 1%float else Startup.GasAdjust cfg)
                (factories (Blockchain.events r))
         /\ Forall (uses_sequence s) (own_attempt (Blockchain.events r)).
Proof.
  intros W Msg Tx Keyring Info Client Coins cs sdk cfg w w' b msgs memo H.
  destruct (@New_success W Msg Tx Keyring Info Client Coins cs sdk cfg w w' b H)
    as (w1 & kr & w2 & acc & w3 & w4 & n & s & _ & _ & Hq & Hb).
  exists w4, n, s. split; [now rewrite Hb|]. cbv zeta. split.
  - pose proof (@Broadcast_carries W Msg Tx sdk msgs memo b w') as Hc.
    eapply Forall_impl; [|exact Hc].
    intros f (Hm & Hn & Hf & Ha). rewrite Hb in Hn, Hf, Ha.
    cbn in Hn, Hf, Ha. auto.
  - rewrite Broadcast_events.
    pose proof (@first_attempt_uses W Msg Tx sdk msgs memo b w') as Hu.
    rewrite Hb in Hu at 1. exact Hu.
Qed.

(** X16: [GetHeight] returns the last block height of the node converted
    from [int64] to [uint64]: the height itself when it is not negative, the
    height plus 2^64 when it is. *)
Theorem GetHeight_converts_the_height :
  (forall (W Keyring Info Client Coins : Type)
          (cs : Startup.Collaborators W Keyring Info Client Coins)
          (b : Blockchain.broadcaster) (w w1 w2 : W) (c : Client) (h : Z),
      Startup.GetNode cs w (Blockchain.ctx b) = (w1, inl c) ->
      Startup.ABCIInfo cs w1 c = (w2, inl h) ->
      - 2 ^ 63 <= h < 2 ^ 63 ->
      Startup.GetHeight cs b w
      = (w2, (if h <? 0 then h + 2 ^ 64 else h, None)))
  /\ (forall (W Keybase Info Client : Type)
             (cs : LegacyStartup.Collaborators W Keybase Info Client)
             (b : Legacy.Broadcaster) (w w1 w2 : W) (c : Client) (h : Z),
         LegacyStartup.GetNode cs w b = (w1, inl c) ->
         LegacyStartup.ABCIInfo cs w1 c = (w2, inl h) ->
         - 2 ^ 63 <= h < 2 ^ 63 ->
         LegacyStartup.GetHeight cs b w
         = (w2, (if h <? 0 then h + 2 ^ 64 else h, None))).
Proof.
  split.
  - intros W Keyring Info Client Coins cs b w w1 w2 c h Hn Hi Hh.
    exact (@GetHeight_converts W Keyring Info Client Coins cs b w w1 c w2 h
             Hn Hi Hh).
  - intros W Keybase Info Client cs b w w1 w2 c h Hn Hi Hh.
    exact (@legacy_GetHeight_converts W Keybase Info Client cs b w w1 c w2 h
             Hn Hi Hh).
Qed.


(** X18: a call of [Broadcast] of the earlier revision is one entry into
    [broadcast]; or an entry that the node answers with the code of
    [ErrUnauthorized], then the refresh, and, when the refresh succeeds, a
    second entry on the receiver with the refreshed numbers, whose result is
    the result of the call.  An entry prepares the builder, estimates the
    gas, builds and signs, and submits, each stage only after the one before
    it succeeded, between taking and releasing the lock. *)
Theorem legacy_Broadcast_follows_the_calls :
  forall (W Msg : Type) (sdk : Legacy.Collaborators W Msg)
         (msgs : list Msg) (memo : string) (b : Legacy.Broadcaster) (w : W),
    let r := Legacy.Broadcast sdk msgs memo b w in
    LegacyLog.call sdk b memo (Legacy.events r) (Legacy.after r) (Legacy.ret r).
Proof.
  intros W Msg sdk msgs memo b w.
  exact (@Broadcast_call W Msg sdk msgs memo b w).
Qed.

(** X19: a call of the earlier revision enters [broadcast] once or twice
    and refreshes at most once; it enters twice exactly when the refresh
    succeeded, and it refreshes exactly when the first answer of the node
    has the code of [ErrUnauthorized]. *)
Theorem legacy_refresh_only_when_unauthorized :
  forall (W Msg : Type) (sdk : Legacy.Collaborators W Msg)
         (msgs : list Msg) (memo : string) (b : Legacy.Broadcaster) (w : W),
    let evs := Legacy.events (Legacy.Broadcast sdk msgs memo b w) in
    (Legacy.calls evs = 1%nat \/ Legacy.calls evs = 2%nat)
    /\ (List.length (LegacyLog.refreshes evs) <= 1)%nat
    /\ (LegacyLog.refreshes evs = [None] <-> Legacy.calls evs = 2%nat)
    /\ (LegacyLog.refreshes evs <> []
        <-> exists resp,
            Legacy.attempt_response evs = Some resp
            /\ Code resp = ABCICode_ErrUnauthorized).
Proof.
  intros W Msg sdk msgs memo b w.
  exact (@Broadcast_counts W Msg sdk msgs memo b w).
Qed.

(** X20: when the node answers the first entry with the code of
    [ErrUnauthorized], the account query decides the call of the earlier
    revision.  If the query fails, the call returns its error under
    [failed to refresh sequence] only, after one entry, and the receiver
    keeps the numbers that came with the failed query in place of its own.
    If it succeeds with [n] and [s], the call is the second entry on the
    receiver with [n] and [s]: its builder carries them, and when the second
    entry returns a response the receiver has the account number [n] and the
    sequence [s + 1] in [uint64] arithmetic. *)
Theorem legacy_refresh_decides_the_call :
  forall (W Msg : Type) (sdk : Legacy.Collaborators W Msg)
         (msgs : list Msg) (memo : string) (b : Legacy.Broadcaster)
         (w w2 : W) (resp : TxResponse) (n s : Z) (failed : option string),
    let r1 := Legacy.broadcast sdk msgs memo b w in
    let r := Legacy.Broadcast sdk msgs memo b w in
    Legacy.attempt_response (Legacy.events r1) = Some resp ->
    Code resp = ABCICode_ErrUnauthorized ->
    Legacy.GetAccountNumberSequence sdk (Legacy.world r1) (Legacy.fromAddress b)
    = (w2, (n, s, failed)) ->
    match failed with
    | Some text =>
        r = Legacy.mkRun (Legacy.set_num_seq b n s) w2
              (Legacy.events r1 ++ [Legacy.EvRefresh (Some text)])
              (inr (Wrapf "failed to refresh sequence" (External text)))
    | None =>
        let r2 := Legacy.broadcast sdk msgs memo (Legacy.set_num_seq b n s) w2 in
        r = Legacy.mkRun (Legacy.after r2) (Legacy.world r2)
              (Legacy.events r1 ++ Legacy.EvRefresh None :: Legacy.events r2)
              (LegacyLog.wrapped (Legacy.ret r2))
        /\ forall out,
            Legacy.ret r = inl out ->
            Legacy.num (Legacy.after r) = n
            /\ Legacy.seq (Legacy.after r) = uint64_add s 1
            /\ LegacyLog.builders (Legacy.events r2)
               = [LegacyLog.builder (Legacy.set_num_seq b n s) memo]
    end.
Proof.
  intros W Msg sdk msgs memo b w w2 resp n s failed r1 r Hresp Hcode Hq.
  subst r1 r.
  rewrite (@Broadcast_refreshes W Msg sdk msgs memo b w resp w2 n s failed
             Hresp Hcode Hq).
  destruct failed as [text|]; [reflexivity|].
  cbv zeta. split; [reflexivity|].
  cbn [Legacy.ret Legacy.after].
  intros out Hout.
  destruct (Legacy.ret (Legacy.broadcast sdk msgs memo (Legacy.set_num_seq b n s) w2))
    as [out'|err'] eqn:Hret; [|discriminate].
  exact (@legacy_retry_success W Msg sdk msgs memo b w2 n s out' Hret).
Qed.

(** X21: in the earlier revision an error of [Broadcast] in which
    [errors.Is] finds [errInvalidSequence] is that sentinel under the
    wrapper of the method, and it is returned only after the refresh
    succeeded and the node answered the second entry too with the code of
    [ErrUnauthorized]: there is no third entry. *)
Theorem legacy_invalid_sequence_after_two_entries :
  forall (W Msg : Type) (sdk : Legacy.Collaborators W Msg)
         (msgs : list Msg) (memo : string) (b : Legacy.Broadcaster) (w : W)
         (err : error),
    let r := Legacy.Broadcast sdk msgs memo b w in
    Legacy.ret r = inr err ->
    Is_invalid_sequence err = true ->
    err = Wrapf "failed to broadcast" errInvalidSequence
    /\ Legacy.calls (Legacy.events r) = 2%nat
    /\ LegacyLog.refreshes (Legacy.events r) = [None]
    /\ exists first second,
        LegacyLog.send_results (Legacy.events r) = [inl first; inl second]
        /\ Code first = ABCICode_ErrUnauthorized
        /\ Code second = ABCICode_ErrUnauthorized.
Proof.
  intros W Msg sdk msgs memo b w err r Hret His.
  exact (@Broadcast_invalid_sequence W Msg sdk msgs memo b w err Hret His).
Qed.

(** X22: a call of [Broadcast] of the earlier revision changes nothing of
    the receiver but [num] and [seq]; the first builder of the call is made
    of the receiver and the memo of the call, and every builder of the call
    is made of the receiver with the account number and the sequence that
    the builder carries, and of the memo of the call. *)
Theorem legacy_Broadcast_changes_num_and_seq_only :
  forall (W Msg : Type) (sdk : Legacy.Collaborators W Msg)
         (msgs : list Msg) (memo : string) (b : Legacy.Broadcaster) (w : W),
    let r := Legacy.Broadcast sdk msgs memo b w in
    Legacy.after r
    = Legacy.set_num_seq b (Legacy.num (Legacy.after r))
                         (Legacy.seq (Legacy.after r))
    /\ (exists rest,
           LegacyLog.builders (Legacy.events r)
           = LegacyLog.builder b memo :: rest)
    /\ Forall (fun bld =>
                 bld = LegacyLog.builder
                         (Legacy.set_num_seq b (Legacy.bldAccountNumber bld)
                                             (Legacy.bldSequence bld))
                         memo)
              (LegacyLog.builders (Legacy.events r)).
Proof.
  intros W Msg sdk msgs memo b w r. subst r. split.
  - exact (@Broadcast_legacy_frame W Msg sdk msgs memo b w).
  - exact (@Broadcast_builders W Msg sdk msgs memo b w).
Qed.

(** X23: the response that [Broadcast] of the earlier revision returns has
    code 0 and is the last answer of the node in the call; the only answer
    that can come before it is one with the code of [ErrUnauthorized]. *)
Theorem legacy_Broadcast_returns_an_accepted_response :
  forall (W Msg : Type) (sdk : Legacy.Collaborators W Msg)
         (msgs : list Msg) (memo : string) (b : Legacy.Broadcaster) (w : W)
         (resp : TxResponse),
    let r := Legacy.Broadcast sdk msgs memo b w in
    Legacy.ret r = inl resp ->
    Code resp = 0
    /\ (LegacyLog.send_results (Legacy.events r) = [inl resp]
        \/ exists first,
            LegacyLog.send_results (Legacy.events r) = [inl first; inl resp]
            /\ Code first = ABCICode_ErrUnauthorized).
Proof.
  intros W Msg sdk msgs memo b w resp r Hret.
  exact (@Broadcast_legacy_success W Msg sdk msgs memo b w resp Hret).
Qed.

(** X24: a text that starts with the sentence of the node, or in which the
    sentence comes right after a line feed, and that does not repeat the
    words of the sentence later, gives 0: the pattern wants a character
    before the sentence on its line.  When the first attempt of a call fails
    with such a text, the retried attempt runs with the sequence that the
    receiver had. *)
Theorem sentence_at_the_start_is_not_read :
  forall n got post : string,
    is_number n ->
    is_number got ->
    occurs expected_literal post = false ->
    (getNextSequence (mismatch_sentence n got ++ post) = 0
     /\ getNextSequence (String "010"%char (mismatch_sentence n got ++ post)) = 0)
    /\ forall (W Msg Tx : Type) (sdk : Collaborators W Msg Tx)
              (msgs : list Msg) (memo : string)
              (b : Blockchain.broadcaster) (w : W),
        let r := Blockchain.Broadcast sdk msgs memo b w in
        failure_text (Blockchain.events r)
        = Some (mismatch_sentence n got ++ post) ->
        Forall (uses_sequence (Sequence (Blockchain.txf b)))
               (retried_attempt (Blockchain.events r)).
Proof.
  intros n got post Hn Hg Hpost.
  pose proof (@sentence_at_the_start n got post Hn Hg Hpost) as Hzero.
  split; [exact Hzero|].
  intros W Msg Tx sdk msgs memo b w r Htext. subst r.
  rewrite Broadcast_events in *.
  destruct (@first_failure_retries W Msg Tx sdk msgs memo b w _ Htext)
    as (_ & Huses & _).
  unfold Passes.corrected in Huses.
  rewrite (proj1 Hzero) in Huses. exact Huses.
Qed.

(** ** The further properties at work on the scripted node *)

Lemma getNextSequence_reads_the_sentence_witness :
  getNextSequence
    ("rpc error: " ++ mismatch_sentence "18446744073709551616" "7"
       ++ " incorrect account sequence")
  = 18446744073709551615
  /\ getNextSequence
       ("a account sequence mismatch, expected 5, got 1: b "
          ++ mismatch_sentence "7" "3" ++ " c")
     = 7.
Proof.
  split.
  - rewrite (@getNextSequence_reads_the_sentence
               "rpc error: " "18446744073709551616" "7"
               " incorrect account sequence").
    + vm_compute. reflexivity.
    + discriminate.
    + vm_compute. reflexivity.
    + split; [discriminate | vm_compute; reflexivity].
    + split; [discriminate | vm_compute; reflexivity].
    + vm_compute. reflexivity.
    + vm_compute. reflexivity.
  - rewrite (@getNextSequence_reads_the_sentence
               "a account sequence mismatch, expected 5, got 1: b " "7" "3" " c").
    + vm_compute. reflexivity.
    + discriminate.
    + vm_compute. reflexivity.
    + split; [discriminate | vm_compute; reflexivity].
    + split; [discriminate | vm_compute; reflexivity].
    + vm_compute. reflexivity.
    + vm_compute. reflexivity.
Defined.

Lemma getNextSequence_nonzero_is_read_witness :
  exists skipped before n got after rest,
    "x account sequence mismatch, expected 7, got 3: y"
    = skipped ++ before ++ mismatch_sentence n got ++ after ++ rest
    /\ (before <> EmptyString /\ all_chars any_char before = true)
    /\ (after <> EmptyString /\ all_chars any_char after = true)
    /\ is_number n /\ is_number got
    /\ getNextSequence "x account sequence mismatch, expected 7, got 3: y"
       = saturated (decimal n)
    /\ 0 < decimal n.
Proof.
  apply getNextSequence_nonzero_is_read. vm_compute. discriminate.
Defined.

Lemma retry_runs_with_the_written_number_witness :
  let r :=
    Blockchain.Broadcast Scripted.sdk ["send"] "" (Scripted.account 100 3)
      (Scripted.node []
         [inl (Scripted.refused 32 "x account sequence mismatch, expected 7, got 3: y");
          inl Scripted.accepted]) in
  Forall (uses_sequence 7) (retried_attempt (Blockchain.events r)).
Proof.
  intros r.
  apply (@retry_runs_with_the_written_number
           Scripted.Node string Scripted.Tx Scripted.sdk ["send"] ""
           (Scripted.account 100 3)
           (Scripted.node []
              [inl (Scripted.refused 32 "x account sequence mismatch, expected 7, got 3: y");
               inl Scripted.accepted])
           "x " "7" "3" " y").
  - discriminate.
  - vm_compute. reflexivity.
  - split; [discriminate | vm_compute; reflexivity].
  - split; [discriminate | vm_compute; reflexivity].
  - vm_compute. reflexivity.
  - vm_compute. reflexivity.
  - vm_compute. reflexivity.
Defined.

Lemma fixed_gas_is_never_simulated_witness :
  let evs :=
    Blockchain.events
      (Blockchain.Broadcast Scripted.sdk ["send"] "" (Scripted.account 100 3)
         (Scripted.node [inl 55000]
            [inl (Scripted.refused 5 "insufficient funds");
             inl Scripted.accepted])) in
  simulations evs = []
  /\ Forall (fun f => Gas f = 100) (factories evs).
Proof.
  intros evs.
  apply (@fixed_gas_is_never_simulated Scripted.Node string Scripted.Tx Scripted.sdk ["send"] ""
           (Scripted.account 100 3)
           (Scripted.node [inl 55000]
              [inl (Scripted.refused 5 "insufficient funds");
               inl Scripted.accepted])).
  vm_compute. discriminate.
Defined.

Lemma estimated_gas_reaches_the_builder_witness :
  let evs :=
    Blockchain.events
      (Blockchain.Broadcast Scripted.sdk ["send"] "" (Scripted.account 0 3)
         (Scripted.node [inl 55000; inl 56000]
            [inl (Scripted.refused 5 "insufficient funds");
             inl Scripted.accepted])) in
  map Gas (built evs) = estimated evs
  /\ List.length (simulations evs) = S (retries evs).
Proof.
  intros evs.
  apply (@estimated_gas_reaches_the_builder Scripted.Node string Scripted.Tx Scripted.sdk ["send"] ""
           (Scripted.account 0 3)
           (Scripted.node [inl 55000; inl 56000]
              [inl (Scripted.refused 5 "insufficient funds");
               inl Scripted.accepted])).
  vm_compute. reflexivity.
Defined.

Lemma nothing_is_sent_out_of_order_witness :
  let evs :=
    Blockchain.events
      (Blockchain.Broadcast Scripted.sdk ["send"] "" (Scripted.account 100 3)
         (Scripted.node [] [inl Scripted.accepted])) in
  exists earlier f,
    firstn 4 evs
    = (earlier ++ [EvBuildUnsignedTx f None; EvSign f None; EvEncode None])%list.
Proof.
  intros evs.
  eapply (@nothing_is_sent_out_of_order Scripted.Node string Scripted.Tx Scripted.sdk ["send"] ""
            (Scripted.account 100 3)
            (Scripted.node [] [inl Scripted.accepted])).
  vm_compute. reflexivity.
Defined.

Lemma Broadcast_returns_an_accepted_response_witness :
  let r :=
    Blockchain.Broadcast Scripted.sdk ["send"] "" (Scripted.account 100 3)
      (Scripted.node []
         [inl (Scripted.refused 5 "insufficient funds"); inl Scripted.accepted]) in
  Code Scripted.accepted = 0
  /\ exists earlier,
      send_results (Blockchain.events r)
      = (earlier ++ [inl Scripted.accepted])%list
      /\ Forall (fun x => exists r1, x = inl r1 /\ rejected r1 = true) earlier.
Proof.
  intros r.
  apply (@Broadcast_returns_an_accepted_response Scripted.Node string Scripted.Tx Scripted.sdk ["send"] ""
           (Scripted.account 100 3)
           (Scripted.node []
              [inl (Scripted.refused 5 "insufficient funds");
               inl Scripted.accepted])).
  vm_compute. reflexivity.
Defined.

Lemma failed_Broadcast_keeps_or_corrects_witness :
  let b := Scripted.account 100 3 in
  let r :=
    Blockchain.Broadcast Scripted.sdk ["send"] "" b
      (Scripted.node []
         [inl (Scripted.refused 32 "x account sequence mismatch, expected 7, got 3: y");
          inr "connection reset"]) in
  Blockchain.after r
  = Blockchain.set_txf b (WithSequence (Blockchain.txf b) 7)
  /\ Sequence (Blockchain.txf (Blockchain.after r)) = 7.
Proof.
  intros b r.
  assert (Hafter : Blockchain.after r
                   = Blockchain.set_txf b (WithSequence (Blockchain.txf b) 7)).
  { etransitivity.
    - eapply (@failed_Broadcast_keeps_or_corrects
                Scripted.Node string Scripted.Tx Scripted.sdk ["send"] ""
                (Scripted.account 100 3)
                (Scripted.node []
                   [inl (Scripted.refused 32 "x account sequence mismatch, expected 7, got 3: y");
                    inr "connection reset"])).
      vm_compute. reflexivity.
    - vm_compute. reflexivity. }
  split; [exact Hafter|]. rewrite Hafter. reflexivity.
Defined.

Lemma sentinel_only_for_the_mempool_code_witness :
  let r :=
    Blockchain.Broadcast Scripted.sdk ["send"] "" (Scripted.account 100 3)
      (Scripted.node []
         [inl (Scripted.refused 5 "insufficient funds");
          inl (Scripted.refused 19 "tx already in mempool")]) in
  exists earlier resp,
    send_results (Blockchain.events r) = (earlier ++ [inl resp])%list
    /\ Code resp = ABCICode_ErrTxInMempoolCache.
Proof.
  intros r.
  eapply (@sentinel_only_for_the_mempool_code Scripted.Node string Scripted.Tx Scripted.sdk ["send"] ""
            (Scripted.account 100 3)
            (Scripted.node []
               [inl (Scripted.refused 5 "insufficient funds");
                inl (Scripted.refused 19 "tx already in mempool")])).
  - vm_compute. reflexivity.
  - vm_compute. reflexivity.
Defined.

Lemma New_starts_from_config_and_node_witness :
  (exists w1 kr w2 acc w3 w4 n s,
      Startup.Key (ScriptedStartup.startup (inl 5)) w1 kr "alice" = (w2, inl acc)
      /\ EnsureExists Scripted.sdk w3
           (Startup.GetAddress (ScriptedStartup.startup (inl 5)) acc)
         = (w4, None)
      /\ GetAccountNumberSequence Scripted.sdk w4
           (Startup.GetAddress (ScriptedStartup.startup (inl 5)) acc)
         = (ScriptedStartup.chain [] [], inl (n, s))
      /\ Scripted.account 0 3
         = Blockchain.mkBroadcaster
             (Blockchain.mkContext
                (Startup.GetName (ScriptedStartup.startup (inl 5)) acc)
                (Startup.GetAddress (ScriptedStartup.startup (inl 5)) acc))
             (mkFactory n s 0 0%float "" "10udec"))
  /\ (exists w1 kb w2 acc n s,
         LegacyStartup.Get (ScriptedStartup.legacy_startup (inl 5)) w1 kb "alice"
         = (w2, inl acc)
         /\ Legacy.GetAccountNumberSequence Scripted.legacy_sdk w2
              (LegacyStartup.GetAddress (ScriptedStartup.legacy_startup (inl 5)) acc)
            = (ScriptedStartup.legacy_chain [] [], (n, s, None))
         /\ Scripted.legacy_account 3
            = Legacy.mkBroadcaster
                (LegacyStartup.GetName (ScriptedStartup.legacy_startup (inl 5)) acc)
                (LegacyStartup.GetAddress (ScriptedStartup.legacy_startup (inl 5)) acc)
                "" "mainnet-3" n s "10udec" 100 1%float).
Proof.
  split.
  - apply (proj1 New_starts_from_config_and_node
             Scripted.Node string Scripted.Tx string (string * string)%type
             string string
             (ScriptedStartup.startup (inl 5)) Scripted.sdk
             (ScriptedStartup.config "test" 0)
             (ScriptedStartup.chain [inl (11, 3)] [])
             (ScriptedStartup.chain [] []) (Scripted.account 0 3)).
    vm_compute. reflexivity.
  - apply (proj2 New_starts_from_config_and_node
             Scripted.LegacyNode string string (string * string)%type string
             (ScriptedStartup.legacy_startup (inl 5)) Scripted.legacy_sdk
             (ScriptedStartup.legacy_config "test")
             (ScriptedStartup.legacy_chain [(11, 3, None)] [])
             (ScriptedStartup.legacy_chain [] []) (Scripted.legacy_account 3)).
    vm_compute. reflexivity.
Defined.


Lemma first_Broadcast_after_New_witness :
  exists w4 n s,
    GetAccountNumberSequence Scripted.sdk w4
      (Blockchain.From (Scripted.account 0 3))
    = (ScriptedStartup.chain [] [inl Scripted.accepted], inl (n, s))
    /\ let r :=
         Blockchain.Broadcast Scripted.sdk ["send"] "hello"
           (Scripted.account 0 3)
           (ScriptedStartup.chain [] [inl Scripted.accepted]) in
       Forall (fun f =>
                 AccountNumber f = n
                 /\ Memo f = "hello"
                 /\ Fees f = "10udec"
                 /\ GasAdjustment f = 1%float)
              (factories (Blockchain.events r))
       /\ Forall (uses_sequence s) (own_attempt (Blockchain.events r)).
Proof.
  apply (@first_Broadcast_after_New
           Scripted.Node string Scripted.Tx string (string * string)%type
           string string
           (ScriptedStartup.startup (inl 5)) Scripted.sdk
           (ScriptedStartup.config "test" 0)
           (ScriptedStartup.chain [inl (11, 3)] [inl Scripted.accepted])
           (ScriptedStartup.chain [] [inl Scripted.accepted])
           (Scripted.account 0 3) ["send"] "hello").
  vm_compute. reflexivity.
Defined.

Lemma GetHeight_converts_the_height_witness :
  Startup.GetHeight (ScriptedStartup.startup (inl (-1))) (Scripted.account 0 3)
                    (ScriptedStartup.chain [] [])
  = (ScriptedStartup.chain [] [], (18446744073709551615, None))
  /\ LegacyStartup.GetHeight (ScriptedStartup.legacy_startup (inl 1200))
                             (Scripted.legacy_account 3)
                             (ScriptedStartup.legacy_chain [] [])
     = (ScriptedStartup.legacy_chain [] [], (1200, None)).
Proof.
  split.
  - apply (proj1 GetHeight_converts_the_height
             Scripted.Node string (string * string)%type string string
             (ScriptedStartup.startup (inl (-1))) (Scripted.account 0 3)
             (ScriptedStartup.chain [] []) (ScriptedStartup.chain [] [])
             (ScriptedStartup.chain [] []) "tcp://localhost:26657" (-1)).
    + reflexivity.
    + reflexivity.
    + lia.
  - apply (proj2 GetHeight_converts_the_height
             Scripted.LegacyNode string (string * string)%type string
             (ScriptedStartup.legacy_startup (inl 1200))
             (Scripted.legacy_account 3)
             (ScriptedStartup.legacy_chain [] [])
             (ScriptedStartup.legacy_chain [] [])
             (ScriptedStartup.legacy_chain [] []) "tcp://localhost:26657" 1200).
    + reflexivity.
    + reflexivity.
    + lia.
Defined.


Lemma legacy_refresh_only_when_unauthorized_witness :
  let evs :=
    Legacy.events
      (Legacy.Broadcast Scripted.legacy_sdk ["send"] "hello"
         (Scripted.legacy_account 3)
         (ScriptedStartup.legacy_chain [(11, 9, None)]
            [inl (Scripted.refused 4 "unauthorized"); inl Scripted.accepted])) in
  LegacyLog.refreshes evs = [None]
  /\ exists resp,
      Legacy.attempt_response evs = Some resp
      /\ Code resp = ABCICode_ErrUnauthorized.
Proof.
  intros evs.
  destruct (@legacy_refresh_only_when_unauthorized
              Scripted.LegacyNode string Scripted.legacy_sdk ["send"] "hello"
              (Scripted.legacy_account 3)
              (ScriptedStartup.legacy_chain [(11, 9, None)]
                 [inl (Scripted.refused 4 "unauthorized"); inl Scripted.accepted]))
    as (_ & _ & Htwice & Hrefresh).
  split.
  - apply Htwice. vm_compute. reflexivity.
  - apply Hrefresh. vm_compute. discriminate.
Defined.

Lemma legacy_refresh_decides_the_call_witness :
  let b := Scripted.legacy_account 3 in
  (let w :=
     ScriptedStartup.legacy_chain [(0, 0, Some "account not found")]
       [inl (Scripted.refused 4 "unauthorized")] in
   Legacy.Broadcast Scripted.legacy_sdk ["send"] "hello" b w
   = Legacy.mkRun (Legacy.set_num_seq b 0 0)
       (ScriptedStartup.legacy_chain [] [])
       (Legacy.events (Legacy.broadcast Scripted.legacy_sdk ["send"] "hello" b w)
          ++ [Legacy.EvRefresh (Some "account not found")])
       (inr (Wrapf "failed to refresh sequence" (External "account not found"))))
  /\ (let w :=
        ScriptedStartup.legacy_chain [(11, 9, None)]
          [inl (Scripted.refused 4 "unauthorized"); inl Scripted.accepted] in
      let r := Legacy.Broadcast Scripted.legacy_sdk ["send"] "hello" b w in
      Legacy.num (Legacy.after r) = 11
      /\ Legacy.seq (Legacy.after r) = uint64_add 9 1).
Proof.
  intros b. split.
  - intros w.
    apply (@legacy_refresh_decides_the_call
             Scripted.LegacyNode string Scripted.legacy_sdk ["send"] "hello"
             b w (ScriptedStartup.legacy_chain [] [])
             (Scripted.refused 4 "unauthorized") 0 0 (Some "account not found")).
    + vm_compute. reflexivity.
    + vm_compute. reflexivity.
    + vm_compute. reflexivity.
  - intros w r.
    destruct (@legacy_refresh_decides_the_call
                Scripted.LegacyNode string Scripted.legacy_sdk ["send"] "hello"
                b w (ScriptedStartup.legacy_chain [] [inl Scripted.accepted])
                (Scripted.refused 4 "unauthorized") 11 9 None)
      as [_ Hsuccess].
    + vm_compute. reflexivity.
    + vm_compute. reflexivity.
    + vm_compute. reflexivity.
    + destruct (Hsuccess Scripted.accepted) as (Hnum & Hseq & _).
      * vm_compute. reflexivity.
      * split; assumption.
Defined.

Lemma legacy_invalid_sequence_after_two_entries_witness :
  let r :=
    Legacy.Broadcast Scripted.legacy_sdk ["send"] "hello"
      (Scripted.legacy_account 3)
      (ScriptedStartup.legacy_chain [(11, 9, None)]
         [inl (Scripted.refused 4 "unauthorized");
          inl (Scripted.refused 4 "unauthorized")]) in
  Wrapf "failed to broadcast" errInvalidSequence
  = Wrapf "failed to broadcast" errInvalidSequence
  /\ Legacy.calls (Legacy.events r) = 2%nat
  /\ LegacyLog.refreshes (Legacy.events r) = [None]
  /\ exists first second,
      LegacyLog.send_results (Legacy.events r) = [inl first; inl second]
      /\ Code first = ABCICode_ErrUnauthorized
      /\ Code second = ABCICode_ErrUnauthorized.
Proof.
  intros r.
  apply (@legacy_invalid_sequence_after_two_entries
           Scripted.LegacyNode string Scripted.legacy_sdk ["send"] "hello"
           (Scripted.legacy_account 3)
           (ScriptedStartup.legacy_chain [(11, 9, None)]
              [inl (Scripted.refused 4 "unauthorized");
               inl (Scripted.refused 4 "unauthorized")])
           (Wrapf "failed to broadcast" errInvalidSequence)).
  - vm_compute. reflexivity.
  - vm_compute. reflexivity.
Defined.

Lemma legacy_Broadcast_returns_an_accepted_response_witness :
  let r :=
    Legacy.Broadcast Scripted.legacy_sdk ["send"] "hello"
      (Scripted.legacy_account 3)
      (ScriptedStartup.legacy_chain [(11, 9, None)]
         [inl (Scripted.refused 4 "unauthorized"); inl Scripted.accepted]) in
  Code Scripted.accepted = 0
  /\ (LegacyLog.send_results (Legacy.events r) = [inl Scripted.accepted]
      \/ exists first,
          LegacyLog.send_results (Legacy.events r)
          = [inl first; inl Scripted.accepted]
          /\ Code first = ABCICode_ErrUnauthorized).
Proof.
  intros r.
  apply (@legacy_Broadcast_returns_an_accepted_response
           Scripted.LegacyNode string Scripted.legacy_sdk ["send"] "hello"
           (Scripted.legacy_account 3)
           (ScriptedStartup.legacy_chain [(11, 9, None)]
              [inl (Scripted.refused 4 "unauthorized"); inl Scripted.accepted])
           Scripted.accepted).
  vm_compute. reflexivity.
Defined.

Lemma sentence_at_the_start_is_not_read_witness :
  let text := mismatch_sentence "10" "9" ++ " incorrect account sequence" in
  getNextSequence text = 0
  /\ let r :=
       Blockchain.Broadcast Scripted.sdk ["send"] "" (Scripted.account 100 9)
         (Scripted.node []
            [inl (Scripted.refused 32 text); inl Scripted.accepted]) in
     Forall (uses_sequence 9) (retried_attempt (Blockchain.events r)).
Proof.
  intros text.
  destruct (@sentence_at_the_start_is_not_read
              "10" "9" " incorrect account sequence")
    as [[Hzero _] Hretry].
  - split; [discriminate | vm_compute; reflexivity].
  - split; [discriminate | vm_compute; reflexivity].
  - vm_compute. reflexivity.
  - split; [exact Hzero|].
    intros r.
    apply (Hretry Scripted.Node string Scripted.Tx Scripted.sdk ["send"] ""
             (Scripted.account 100 9)
             (Scripted.node []
                [inl (Scripted.refused 32 text); inl Scripted.accepted])).
    vm_compute. reflexivity.
Defined.
